(** * RoboBuilding / R1_LinearRegression: the indicators module

    A shallow embedding of [Stocks/R1_LinearRegression/indicators.py]:

    - [compute_linear_regression_mad_numba], the windowed least-squares
      estimator with Kahan-compensated sums and the mean absolute deviation;
    - [compute_lr_channel_mad_numba] and [LinearRegressionChannel_MAD.next],
      the batch and the incremental channel;
    - [VolatilityCalculator.calculate];
    - [VolatilityStageClusters]: construction, [calculate],
      [_calculate_clusters] and [is_in_cluster].

    The Python code computes on [numpy.float64].  Every function below is
    written once, over an interface [Float64Ops] of the operations the code
    uses, and is run at two instances: [exact_ops] (rationals extended with
    a not-a-number value: no rounding) and [b64_ops] (IEEE-754 binary64,
    the arithmetic of the code).  Python integers are unbounded ([Z]); in
    the functions compiled by [numba.njit] integers are 64-bit and their
    arithmetic wraps around ([int64]). *)

From Stdlib Require Import ZArith QArith Qcanon Qabs Qround Floats Uint63.
From Stdlib Require Import Lia Lqa.
From Stdlib Require Import Permutation Sorted.
From stdpp Require Import numbers strings list gmap.

Set Default Proof Using "Type".

(** ** The arithmetic the code is written in *)

Class Float64Ops := {
  F : Type;
  (** [np.float64(n)] and [float(n)] of a Python integer *)
  of_Z : Z → F;
  fadd : F → F → F;
  fsub : F → F → F;
  fmul : F → F → F;
  fdiv : F → F → F;
  fabs : F → F;
  (** Python's [<], [<=] and [==] on floats *)
  fltb : F → F → bool;
  fleb : F → F → bool;
  feqb : F → F → bool;
  (** the binary step of the reductions [np.max] and [np.min] *)
  fmax : F → F → F;
  fmin : F → F → F;
  (** [np.nan], [float('nan')] *)
  nan : F
}.

Declare Scope f64_scope.
Delimit Scope f64_scope with f64.
Infix "+" := fadd : f64_scope.
Infix "-" := fsub : f64_scope.
Infix "*" := fmul : f64_scope.
Infix "/" := fdiv : f64_scope.

(** *** Exact arithmetic: rationals with a not-a-number value *)

Inductive exact : Type :=
| Fin (q : Qc)
| NaN.

Module Exact.

Definition lift2 (f : Qc → Qc → Qc) (x y : exact) : exact :=
  match x, y with
  | Fin a, Fin b => Fin (f a b)
  | _, _ => NaN
  end.

Definition cmp2 (f : Qc → Qc → bool) (x y : exact) : bool :=
  match x, y with
  | Fin a, Fin b => f a b
  | _, _ => false
  end.

Definition div (x y : exact) : exact :=
  match x, y with
  | Fin a, Fin b => if decide (b = 0%Qc) then NaN else Fin (a / b)%Qc
  | _, _ => NaN
  end.

Definition qabs (a : Qc) : Qc := if decide (a < 0)%Qc then (- a)%Qc else a.

Definition abs (x : exact) : exact :=
  match x with
  | Fin a => Fin (qabs a)
  | NaN => NaN
  end.

Definition ltb (a b : Qc) : bool := bool_decide (a < b)%Qc.
Definition leb (a b : Qc) : bool := bool_decide (a ≤ b)%Qc.
Definition eqb (a b : Qc) : bool := bool_decide (a = b).

Definition max (a b : Qc) : Qc := if ltb a b then b else a.
Definition min (a b : Qc) : Qc := if ltb b a then b else a.

End Exact.

#[export] Instance exact_ops : Float64Ops := {|
  F := exact;
  of_Z z := Fin (Qc_of_Z z);
  fadd := Exact.lift2 Qcplus;
  fsub := Exact.lift2 Qcminus;
  fmul := Exact.lift2 Qcmult;
  fdiv := Exact.div;
  fabs := Exact.abs;
  fltb := Exact.cmp2 Exact.ltb;
  fleb := Exact.cmp2 Exact.leb;
  feqb := Exact.cmp2 Exact.eqb;
  fmax := Exact.lift2 Exact.max;
  fmin := Exact.lift2 Exact.min;
  nan := NaN
|}.

(** The rational [z]. *)
Definition exq (z : Z) : exact := Fin (Qc_of_Z z).

#[export] Instance exact_eq_dec : EqDecision exact.
Proof. solve_decision. Defined.

(** *** IEEE-754 binary64 *)

Module B64.

(** Round an integer to the nearest binary64 value (ties to even). *)
Definition of_Z (z : Z) : float :=
  SF2Prim (binary_normalize prec emax z 0 false).

(** [np.max] and [np.min] propagate not-a-number. *)
Definition max (a b : float) : float :=
  if is_nan a then a else if is_nan b then b
  else if PrimFloat.ltb a b then b else a.
Definition min (a b : float) : float :=
  if is_nan a then a else if is_nan b then b
  else if PrimFloat.ltb b a then b else a.

End B64.

Definition b64_ops : Float64Ops := {|
  F := float;
  of_Z := B64.of_Z;
  fadd := PrimFloat.add;
  fsub := PrimFloat.sub;
  fmul := PrimFloat.mul;
  fdiv := PrimFloat.div;
  fabs := PrimFloat.abs;
  fltb := PrimFloat.ltb;
  fleb := PrimFloat.leb;
  feqb := PrimFloat.eqb;
  fmax := B64.max;
  fmin := B64.min;
  nan := PrimFloat.nan
|}.

(** ** Python sequences *)

(** A slice bound, clamped as Python clamps it for a sequence of length [n]. *)
Definition slice_bound (n i : Z) : Z :=
  if (i <? 0)%Z then Z.max 0 (n + i) else Z.min i n.

(** [l[start:stop]] *)
Definition py_slice {A} (l : list A) (start stop : Z) : list A :=
  let n := Z.of_nat (length l) in
  let s := slice_bound n start in
  let e := slice_bound n stop in
  take (Z.to_nat (e - s)) (drop (Z.to_nat s) l).

(** [l[:stop] = v] on an array: every cell of the slice is set to [v]. *)
Definition slice_fill {A} (l : list A) (stop : Z) (v : A) : list A :=
  let e := Z.to_nat (slice_bound (Z.of_nat (length l)) stop) in
  replicate e v ++ drop e l.

(** [l[i] = v] with Python's negative indices; [None] outside the array. *)
Definition index_set {A} (l : list A) (i : Z) (v : A) : option (list A) :=
  let n := Z.of_nat (length l) in
  let j := if (i <? 0)%Z then (i + n)%Z else i in
  if decide (0 ≤ j < n)%Z then Some (<[Z.to_nat j := v]> l) else None.

(** [range(lo, hi)] *)
Definition py_range (lo hi : Z) : list Z :=
  (λ k : nat, (lo + Z.of_nat k)%Z) <$> seq 0 (Z.to_nat (hi - lo)).

(** A [for] loop whose body may fail. *)
Fixpoint for_each {S X} (body : S → X → option S) (xs : list X) (s : S)
  : option S :=
  match xs with
  | [] => Some s
  | x :: xs' =>
      match body s x with
      | Some s' => for_each body xs' s'
      | None => None
      end
  end.

(** ** Machine integers *)

(** The value of a signed 64-bit integer after an operation whose
    mathematical result is [z]: [z] modulo [2^64], between [-2^63] and
    [2^63 - 1]. *)
Definition int64 (z : Z) : Z := ((z + 2 ^ 63) `mod` 2 ^ 64 - 2 ^ 63)%Z.

(** The largest period [N] whose product [(N - 1) * N * (2 * N - 1)] fits
    an [int64]. *)
Definition max_period : Z := 1664511.

(** ** The estimator *)

Section Estimator.
Context {ops : Float64Ops}.
Local Open Scope f64_scope.

(** The literals [0.0], [2.0], [6.0] and [1e-10]. *)
Definition f0 : F := of_Z 0.
Definition f2 : F := of_Z 2.
Definition f6 : F := of_Z 6.
Definition f1e_10 : F := of_Z 1 / of_Z (10 ^ 10).

(** The accumulators of the first loop. *)
Record sums := Sums {
  sumy : F; sumy_c : F; sumxy : F; sumxy_c : F
}.

(** Body of [for g in range(period)]; reading [data_points[g]] outside the
    window has no defined result. *)
Definition sums_body (data_points : list F) (st : sums) (g : Z)
  : option sums :=
  match data_points !! Z.to_nat g with
  | None => None
  | Some y_val =>
      let y_temp := y_val - sumy_c st in
      let t := sumy st + y_temp in
      let sumy_c' := (t - sumy st) - y_temp in
      let sumy' := t in
      let xy_val := y_val * of_Z g in
      let xy_temp := xy_val - sumxy_c st in
      let t := sumxy st + xy_temp in
      let sumxy_c' := (t - sumxy st) - xy_temp in
      let sumxy' := t in
      Some (Sums sumy' sumy_c' sumxy' sumxy_c')
  end.

(** Body of [for i in range(period)] of the deviation loop; the state is
    [(mad, mad_c)]. *)
Definition mad_body (data_points : list F) (a b : F) (st : F * F) (i : Z)
  : option (F * F) :=
  match data_points !! Z.to_nat i with
  | None => None
  | Some y =>
      let '(mad, mad_c) := st in
      let regression_val := a + b * of_Z i in
      let distance := fabs (y - regression_val) in
      let temp := distance - mad_c in
      let t := mad + temp in
      let mad_c' := (t - mad) - temp in
      Some (t, mad_c')
  end.

Definition denominator (period : Z) : F :=
  let sumx := of_Z (int64 (period * int64 (period - 1))) / f2 in
  let sumx2 :=
    of_Z (int64 (int64 (int64 (period - 1) * period)
                 * int64 (int64 (2 * period) - 1))) / f6 in
  sumx2 * of_Z period - sumx * sumx.

(** [compute_linear_regression_mad_numba(data_points, period)]: the pair
    [(current_regression, mad)].  The function is compiled by [numba.njit]
    with [period] an [int64]: the integer products and differences of
    [sumx], [sumx2] and [period - 1] wrap around before they are converted
    to floats. *)
Definition compute_linear_regression_mad_numba
    (data_points : list F) (period : Z) : option (F * F) :=
  let sumx := of_Z (int64 (period * int64 (period - 1))) / f2 in
  let sumx2 :=
    of_Z (int64 (int64 (int64 (period - 1) * period)
                 * int64 (int64 (2 * period) - 1))) / f6 in
  match for_each (sums_body data_points) (py_range 0 period)
          (Sums f0 f0 f0 f0) with
  | None => None
  | Some st =>
      let c := sumx2 * of_Z period - sumx * sumx in
      if fltb (fabs c) f1e_10 then Some (f0, f0)
      else
        let b := (sumxy st * of_Z period - sumx * sumy st) / c in
        let a := (sumy st - sumx * b) / of_Z period in
        match for_each (mad_body data_points a b) (py_range 0 period)
                (f0, f0) with
        | None => None
        | Some (mad, _) =>
            let mad := mad / of_Z period in
            let current_regression := a + b * of_Z (int64 (period - 1)) in
            Some (current_regression, mad)
        end
  end.

End Estimator.

(** ** The regression channel *)

Section Channel.
Context {ops : Float64Ops}.
Local Open Scope f64_scope.

(** One bar of the three lines of the indicator. *)
Record ChannelPoint := Point {
  upperband : F; regression : F; lowerband : F
}.

(** The parameters of [LinearRegressionChannel_MAD]. *)
Record LinearRegressionChannel_MAD := Channel {
  period : Z; up_deviation : F; down_deviation : F
}.

(** [np.empty(n)]: [n] cells of whatever the memory held. *)
Definition np_empty (junk : F) (n : nat) : list F := replicate n junk.

(** Body of [for i in range(period-1, n)]; the state is
    [(upperband, regression, lowerband)]. *)
Definition channel_body (closes : list F) (period : Z) (up_dev down_dev : F)
    (st : list F * list F * list F) (i : Z)
  : option (list F * list F * list F) :=
  let '(upperband, regression, lowerband) := st in
  let data_window := py_slice closes (i - period + 1) (i + 1) in
  match compute_linear_regression_mad_numba data_window period with
  | None => None
  | Some (current_regression, mad) =>
      regression' ← index_set regression i current_regression;
      upperband' ← index_set upperband i
                     (current_regression + mad * up_dev);
      lowerband' ← index_set lowerband i
                     (current_regression - mad * down_dev);
      Some (upperband', regression', lowerband')
  end.

(** [compute_lr_channel_mad_numba(closes, period, up_deviation,
    down_deviation)]: the arrays [(upperband, regression, lowerband)]. *)
Definition compute_lr_channel_mad_numba (junk : F) (closes : list F)
    (period : Z) (up_dev down_dev : F)
  : option (list F * list F * list F) :=
  let n := length closes in
  let upperband := np_empty junk n in
  let regression := np_empty junk n in
  let lowerband := np_empty junk n in
  let upperband := slice_fill upperband (period - 1) nan in
  let regression := slice_fill regression (period - 1) nan in
  let lowerband := slice_fill lowerband (period - 1) nan in
  for_each (channel_body closes period up_dev down_dev)
    (py_range (period - 1) (Z.of_nat n))
    (upperband, regression, lowerband).

(** The bar [i] of the three arrays. *)
Definition point_at (arrays : list F * list F * list F) (i : nat)
  : option ChannelPoint :=
  let '(upperband, regression, lowerband) := arrays in
  u ← upperband !! i; r ← regression !! i; l ← lowerband !! i;
  Some (Point u r l).

(** The framework's [get(ago=0, size=size)] on a line whose values so far
    are [line]: the slice [array[idx - size + 1 : idx + 1]] with [idx] the
    index of the current bar. *)
Definition line_get {A} (line : list A) (size : Z) : list A :=
  let idx := (Z.of_nat (length line) - 1)%Z in
  py_slice line (idx - size + 1) (idx + 1).

Definition nan_point : ChannelPoint := Point nan nan nan.

(** [LinearRegressionChannel_MAD.next], as a function of the closes seen
    so far: the values written at the current bar. *)
Definition next (self : LinearRegressionChannel_MAD) (data : list F)
  : option ChannelPoint :=
  let data_points := line_get data (period self) in
  if (Z.of_nat (length data_points) <? period self)%Z then Some nan_point
  else
    match compute_linear_regression_mad_numba data_points (period self) with
    | None => None
    | Some (current_regression, mad) =>
        Some (Point (current_regression + mad * up_deviation self)
                    current_regression
                    (current_regression - mad * down_deviation self))
    end.

(** The incremental path: each arriving close is pushed on the data line
    and [next] writes one more bar of the output lines. *)
Definition on_close (self : LinearRegressionChannel_MAD)
    (st : list F * list ChannelPoint) (c : F)
  : option (list F * list ChannelPoint) :=
  let data := st.1 ++ [c] in
  pt ← next self data;
  Some (data, st.2 ++ [pt]).

Definition run_next (self : LinearRegressionChannel_MAD) (closes : list F)
  : option (list ChannelPoint) :=
  snd <$> for_each (on_close self) closes ([], []).

(** [LinearRegressionChannel_MAD.__init__]: registers the minimum period;
    the parameters are taken as they come. *)
Definition LinearRegressionChannel_MAD_init (period : Z) (up_dev down_dev : F)
  : LinearRegressionChannel_MAD * Z :=
  (Channel period up_dev down_dev, period).

End Channel.

(** ** The volatility of one instrument *)

Section Volatility.
Context {ops : Float64Ops}.
Local Open Scope f64_scope.

Record Bar := MkBar { high : F; low : F; close : F }.

(** A data feed: its name, when it has one, and its bars so far. *)
Record DataFeed := Feed { _name : option string; bars : list Bar }.

Definition f100 : F := of_Z 100.

(** [np.max(a)] and [np.min(a)] of a non-empty array. *)
Definition np_max (a0 : F) (a : list F) : F := foldl fmax a0 a.
Definition np_min (a0 : F) (a : list F) : F := foldl fmin a0 a.

(** [VolatilityCalculator(data, period).calculate()]. *)
Definition VolatilityCalculator_calculate (data : DataFeed) (period : Z) : F :=
  if (Z.of_nat (length (bars data)) <? 1)%Z then f0
  else
    let data_len := Z.of_nat (length (bars data)) in
    let actual_period := Z.min period data_len in
    let highs := high <$> line_get (bars data) actual_period in
    let lows := low <$> line_get (bars data) actual_period in
    match highs, lows with
    | h0 :: hs, l0 :: ls =>
        let max_price := np_max h0 hs in
        let min_price := np_min l0 ls in
        if feqb min_price f0 then f0
        else
          let move := max_price - min_price in
          move / (min_price / f100)
    | _, _ => f0
    end.

End Volatility.

(** ** The volatility clusters *)

Inductive exn := ValueError | AttributeError | IndexError.

Section Clusters.
Context {ops : Float64Ops}.
Local Open Scope f64_scope.

(** An entry of [sources_with_volatility]. *)
Record Source := MkSource {
  src_data : DataFeed; src_volatility : F; src_name : string
}.

Record VolatilityStageClusters := Clusters {
  cluster_one : gmap string Source;
  cluster_two : gmap string Source;
  cluster_three : gmap string Source;
  cluster_one_full : list Source;
  cluster_two_full : list Source;
  cluster_three_full : list Source;
  one_lot : F;
  length_ : Z;
  cluster_one_percent : F;
  cluster_two_percent : F;
  cluster_three_percent : F
}.

Definition f0_01 : F := of_Z 1 / of_Z 100.

(** [VolatilityStageClusters.__init__]. *)
Definition VolatilityStageClusters_init
    (lookback : Z) (one_percent two_percent three_percent : F)
  : exn + VolatilityStageClusters :=
  let self := Clusters ∅ ∅ ∅ [] [] [] f0 lookback
                one_percent two_percent three_percent in
  let total_percent := one_percent + two_percent + three_percent in
  if fltb f0_01 (fabs (total_percent - f100)) then inl ValueError
  else inr self.

(** [list.sort(key=...)]: a stable insertion sort that compares keys with
    [<] only; each element goes after the ones it is not smaller than. *)
Fixpoint sort_insert {A} (key : A → F) (x : A) (l : list A) : list A :=
  match l with
  | [] => [x]
  | y :: l' =>
      if fltb (key x) (key y) then x :: y :: l'
      else y :: sort_insert key x l'
  end.

Definition list_sort {A} (key : A → F) (l : list A) : list A :=
  foldl (λ acc x, sort_insert key x acc) [] l.

(** The feeds with enough candles, each with its volatility and name. *)
Definition collect_sources (lookback : Z) (data_feeds : list DataFeed)
  : list Source :=
  foldl (λ sources data,
           if (Z.of_nat (length (bars data)) <? lookback)%Z then sources
           else
             let volatility := VolatilityCalculator_calculate data lookback in
             sources ++ [MkSource data volatility
                           (default "Unknown" (_name data))])
    [] data_feeds.

(** Body of [for i in range(total_count)]. *)
Definition assign_body (sources : list Source)
    (cluster_one_limit cluster_two_limit : F)
    (self : VolatilityStageClusters) (i : Z)
  : option VolatilityStageClusters :=
  match sources !! Z.to_nat i with
  | None => None
  | Some src =>
      let position := of_Z (i + 1) in
      if fleb position cluster_one_limit then
        Some (Clusters
                (<[src_name src := src]> (cluster_one self))
                (cluster_two self) (cluster_three self)
                (cluster_one_full self ++ [src])
                (cluster_two_full self) (cluster_three_full self)
                (one_lot self) (length_ self) (cluster_one_percent self)
                (cluster_two_percent self) (cluster_three_percent self))
      else if fleb position cluster_two_limit then
        Some (Clusters
                (cluster_one self)
                (<[src_name src := src]> (cluster_two self))
                (cluster_three self)
                (cluster_one_full self)
                (cluster_two_full self ++ [src]) (cluster_three_full self)
                (one_lot self) (length_ self) (cluster_one_percent self)
                (cluster_two_percent self) (cluster_three_percent self))
      else
        Some (Clusters
                (cluster_one self) (cluster_two self)
                (<[src_name src := src]> (cluster_three self))
                (cluster_one_full self) (cluster_two_full self)
                (cluster_three_full self ++ [src])
                (one_lot self) (length_ self) (cluster_one_percent self)
                (cluster_two_percent self) (cluster_three_percent self))
  end.

Definition set_one_lot (self : VolatilityStageClusters) (v : F)
  : VolatilityStageClusters :=
  Clusters (cluster_one self) (cluster_two self) (cluster_three self)
    (cluster_one_full self) (cluster_two_full self)
    (cluster_three_full self) v (length_ self)
    (cluster_one_percent self) (cluster_two_percent self)
    (cluster_three_percent self).

(** [VolatilityStageClusters._calculate_clusters]: the object after the
    call and the exception it raised, if any. *)
Definition _calculate_clusters (self : VolatilityStageClusters)
    (data_feeds : list DataFeed) : VolatilityStageClusters * option exn :=
  match data_feeds with
  | [] => (self, None)
  | _ =>
      let sources_with_volatility :=
        collect_sources (length_ self) data_feeds in
      if decide (length sources_with_volatility ≤ 1) then
        if decide (length sources_with_volatility = 1) then
          (** [self.cluster_one.append(...)]: a dict has no [append] *)
          (self, Some AttributeError)
        else (self, None)
      else
        let sources_with_volatility :=
          list_sort src_volatility sources_with_volatility in
        let total_count := Z.of_nat (length sources_with_volatility) in
        let self := set_one_lot self (of_Z total_count / f100) in
        let cluster_one_limit := cluster_one_percent self * one_lot self in
        let cluster_two_limit :=
          (cluster_one_percent self + cluster_two_percent self)
          * one_lot self in
        match for_each (assign_body sources_with_volatility
                          cluster_one_limit cluster_two_limit)
                (py_range 0 total_count) self with
        | Some self' => (self', None)
        | None => (self, Some IndexError)
        end
  end.

(** The six [clear()] calls of [calculate]. *)
Definition clear_clusters (self : VolatilityStageClusters)
  : VolatilityStageClusters :=
  Clusters ∅ ∅ ∅ [] [] [] (one_lot self) (length_ self)
    (cluster_one_percent self) (cluster_two_percent self)
    (cluster_three_percent self).

(** [VolatilityStageClusters.calculate]. *)
Definition calculate (self : VolatilityStageClusters)
    (data_feeds : list DataFeed) : VolatilityStageClusters * option exn :=
  _calculate_clusters (clear_clusters self) data_feeds.

(** [key in d] *)
Definition dict_in {V} (k : string) (d : gmap string V) : bool :=
  bool_decide (is_Some (d !! k)).

(** [VolatilityStageClusters.is_in_cluster]; reading [data._name] of a feed
    without a name raises. *)
Definition is_in_cluster (self : VolatilityStageClusters) (data : DataFeed)
    (cluster_number : Z) : exn + bool :=
  if decide (cluster_number = 1%Z) then
    match _name data with
    | Some n => inr (dict_in n (cluster_one self))
    | None => inl AttributeError
    end
  else if decide (cluster_number = 2%Z) then
    match _name data with
    | Some n => inr (dict_in n (cluster_two self))
    | None => inl AttributeError
    end
  else if decide (cluster_number = 3%Z) then
    match _name data with
    | Some n => inr (dict_in n (cluster_three self))
    | None => inl AttributeError
    end
  else inr false.

End Clusters.

(** ** Reading the clusters *)

Section Eligible.
Context {ops : Float64Ops}.

(** A feed takes part in the ranking when it has at least [lookback]
    candles. *)
Definition eligible (lookback : Z) (data : DataFeed) : bool :=
  bool_decide (lookback ≤ Z.of_nat (length (bars data)))%Z.

(** The entry [_calculate_clusters] builds for a feed. *)
Definition source_of (lookback : Z) (data : DataFeed) : Source :=
  MkSource data (VolatilityCalculator_calculate data lookback)
    (default "Unknown" (_name data)).

End Eligible.


(** ** Sample instruments *)

Module Sample.

(** A feed of one candle, in exact arithmetic and in binary64. *)
Definition feed (nm : string) (h l : Z) : DataFeed (ops := exact_ops) :=
  Feed (ops := exact_ops) (Some nm)
    [MkBar (ops := exact_ops) (exq h) (exq l) (exq l)].

Definition feed64 (nm : string) (h l : Z) : DataFeed (ops := b64_ops) :=
  Feed (ops := b64_ops) (Some nm)
    [MkBar (ops := b64_ops) (B64.of_Z h) (B64.of_Z l) (B64.of_Z l)].

(** [VolatilityStageClusters(lookback=1)] with the default percentages. *)
Definition clusters : VolatilityStageClusters (ops := exact_ops) :=
  Clusters (ops := exact_ops) ∅ ∅ ∅ [] [] [] (exq 0) 1
    (exq 33) (exq 33) (exq 34).

Definition clusters64 : VolatilityStageClusters (ops := b64_ops) :=
  Clusters (ops := b64_ops) ∅ ∅ ∅ [] [] [] (B64.of_Z 0) 1
    (B64.of_Z 33) (B64.of_Z 33) (B64.of_Z 34).

(** Ten instruments whose volatilities are 1, 2, ..., 10 percent. *)
Definition names10 : list string :=
  ["a"; "b"; "c"; "d"; "e"; "f"; "g"; "h"; "i"; "j"].
Definition feeds10 : list (DataFeed (ops := exact_ops)) :=
  imap (λ i nm, feed nm (101 + Z.of_nat i) 100) names10.
Definition feeds10_64 : list (DataFeed (ops := b64_ops)) :=
  imap (λ i nm, feed64 nm (101 + Z.of_nat i) 100) names10.

End Sample.

(** ** The ranking, as the specification words it *)

Section Ranking.
Context {ops : Float64Ops}.

(** The cluster of the 1-based rank [r]: 1 when [r <= limit1], 2 when not
    but [r <= limit2], 3 otherwise. *)
Definition bucket (limit1 limit2 : F) (r : Z) : Z :=
  if fleb (of_Z r) limit1 then 1
  else if fleb (of_Z r) limit2 then 2 else 3.

(** The sources with their 1-based ranks. *)
Definition ranked (sources : list Source) : list (Z * Source) :=
  imap (λ i src, (Z.of_nat i + 1, src)%Z) sources.

(** The sources whose rank falls in cluster [k], in rank order. *)
Definition members (k : Z) (limit1 limit2 : F) (sources : list Source)
  : list Source :=
  snd <$> filter (λ p, bucket limit1 limit2 p.1 = k) (ranked sources).

(** The mapping from names that a list of sources fills, the later entry
    of a name replacing the earlier. *)
Definition dict_add (l : list Source) (d : gmap string Source)
  : gmap string Source :=
  foldl (λ m src, <[src_name src := src]> m) d l.

(** Neither volatility is smaller than the other. *)
Definition tied (a b : Source) : bool :=
  negb (fltb (src_volatility a) (src_volatility b))
  && negb (fltb (src_volatility b) (src_volatility a)).

(** [a] comes no later than [b] in ascending order of volatility. *)
Definition ascending (a b : Source) : Prop :=
  fltb (src_volatility b) (src_volatility a) = false.

End Ranking.

(** A value of the exact arithmetic that is a number. *)
Definition finite (x : exact) : Prop :=
  match x with Fin _ => True | NaN => False end.

#[export] Instance finite_dec (x : exact) : Decision (finite x).
Proof. destruct x; simpl; apply _. Defined.

(** ** The least-squares fit, as the specification words it *)

Module Spec.

Local Open Scope Qc_scope.

(** The sum of [f 0], ..., [f (n - 1)]. *)
Fixpoint bigsum (f : nat → Qc) (n : nat) : Qc :=
  match n with
  | O => 0
  | S n' => bigsum f n' + f n'
  end.

(** The position [i] and the sample at position [i] of a window. *)
Definition pos (i : nat) : Qc := Qc_of_Z (Z.of_nat i).
Definition sample (ys : list Qc) (i : nat) : Qc := default 0 (ys !! i).

(** [sumx = N(N-1)/2] and [sumx2 = (N-1)N(2N-1)/6]. *)
Definition sumx (N : Z) : Qc := Qc_of_Z (N * (N - 1)) / Qc_of_Z 2.
Definition sumx2 (N : Z) : Qc :=
  Qc_of_Z ((N - 1) * N * (2 * N - 1)) / Qc_of_Z 6.

(** [c = sumx2 * N - sumx^2] *)
Definition denom (N : Z) : Qc := sumx2 N * Qc_of_Z N - sumx N * sumx N.

Definition sumy (ys : list Qc) : Qc := bigsum (sample ys) (length ys).
Definition sumxy (ys : list Qc) : Qc :=
  bigsum (λ i, sample ys i * pos i) (length ys).

(** [b = (sumxy * N - sumx * sumy) / c] *)
Definition slope (ys : list Qc) : Qc :=
  let N := Z.of_nat (length ys) in
  (sumxy ys * Qc_of_Z N - sumx N * sumy ys) / denom N.

(** [a = (sumy - sumx * b) / N] *)
Definition intercept (ys : list Qc) : Qc :=
  let N := Z.of_nat (length ys) in
  (sumy ys - sumx N * slope ys) / Qc_of_Z N.

(** [regression_at(i) = a + b * i] *)
Definition regression_at (ys : list Qc) (i : nat) : Qc :=
  intercept ys + slope ys * pos i.

(** The mean of [|sample[i] - regression_at(i)|] over the window. *)
Definition mad (ys : list Qc) : Qc :=
  bigsum (λ i, Exact.qabs (sample ys i - regression_at ys i)) (length ys)
  / Qc_of_Z (Z.of_nat (length ys)).

(** The window of [N] samples on the line [y = m * x + k]. *)
Definition line (m k : Qc) (N : nat) : list Qc :=
  (λ i, m * pos i + k) <$> seq 0 N.

End Spec.

(** ** Binary64 values as rationals *)

(** The integer a binary64 value is, when it is one. *)
Definition b64_to_Z (x : float) : option Z :=
  match Prim2SF x with
  | S754_zero _ => Some 0%Z
  | S754_finite s m e =>
      let v := if s then Z.neg m else Z.pos m in
      if (0 <=? e)%Z then Some (v * 2 ^ e)%Z
      else if (v mod 2 ^ (- e) =? 0)%Z then Some (v / 2 ^ (- e))%Z
      else None
  | _ => None
  end.

(** The rational a binary64 value is, when it is finite. *)
Definition b64_to_Qc (x : float) : option Qc :=
  match Prim2SF x with
  | S754_zero _ => Some 0%Qc
  | S754_finite s m e =>
      let v := Qc_of_Z (if s then Z.neg m else Z.pos m) in
      if (0 <=? e)%Z then Some (v * Qc_of_Z (2 ^ e))%Qc
      else Some (v / Qc_of_Z (2 ^ (- e)))%Qc
  | _ => None
  end.

(** The binary64 value nearest to one tenth, [0.1] in the Python source. *)
Definition b64_tenth : float := PrimFloat.div (B64.of_Z 1) (B64.of_Z 10).

(** For every period from [lo] on, [count] of them: the denominator the
    estimator computes in binary64 is the integer [N^2 (N^2 - 1) / 12] and
    the guard [abs(c) < 1e-10] does not fire. *)
Fixpoint b64_denominators_exact (count : nat) (lo : Z) : bool :=
  match count with
  | O => true
  | S count' =>
      let c := denominator (ops := b64_ops) lo in
      bool_decide (b64_to_Z c = Some (lo * lo * (lo * lo - 1) / 12)%Z)
      && negb (fltb (Float64Ops := b64_ops) (fabs c) f1e_10)
      && b64_denominators_exact count' (lo + 1)
  end.

(** The guard [abs(c) < 1e-10] of the estimator in binary64 for the period
    [n], computed on machine integers. *)
Definition b64_two : float := Eval vm_compute in f2 (ops := b64_ops).
Definition b64_six : float := Eval vm_compute in f6 (ops := b64_ops).
Definition b64_1e_10 : float := Eval vm_compute in f1e_10 (ops := b64_ops).

Definition b64_guard (n : int) : bool :=
  let sumx := PrimFloat.div (of_uint63 (n * (n - 1))%uint63) b64_two in
  let sumx2 :=
    PrimFloat.div (of_uint63 ((n - 1) * n * (2 * n - 1))%uint63) b64_six in
  let c :=
    PrimFloat.sub (PrimFloat.mul sumx2 (of_uint63 n))
      (PrimFloat.mul sumx sumx) in
  PrimFloat.ltb (PrimFloat.abs c) b64_1e_10.

(** The guard is false for [count] periods from [lo] on. *)
Definition b64_guard_open (count : N) (lo : int) : bool :=
  (N.iter count
     (λ st : int * bool, ((st.1 + 1)%uint63, st.2 && negb (b64_guard st.1)))
     (lo, true)).2.

(** The bar of a high and a low that are numbers (it closes at its low). *)
Definition exact_bar (p : Qc * Qc) : Bar (ops := exact_ops) :=
  MkBar (ops := exact_ops) (Fin p.1) (Fin p.2) (Fin p.2).

(** ** The batch entry point of the indicator *)

Section Once.
Context {ops : Float64Ops}.

(** [LinearRegressionChannel_MAD.once(start, end)]: [preloaded] is the
    whole array of closes of the data feed, [lines] the three line buffers
    [(upperband, regression, lowerband)] before the call; the result is the
    three buffers after it. *)
Definition once (self : LinearRegressionChannel_MAD) (junk : F)
    (start end_ : Z) (preloaded : list F)
    (lines : list F * list F * list F)
  : option (list F * list F * list F) :=
  if decide (end_ - start = 1)%Z then Some lines
  else
    let closes := preloaded in
    compute_lr_channel_mad_numba junk closes (period self)
      (up_deviation self) (down_deviation self).

End Once.

(** ** The report on the clusters *)

Section ClusterInfo.
Context {ops : Float64Ops}.

(** The value stored under each of the keys ['cluster_one'],
    ['cluster_two'] and ['cluster_three'] of the report: the entries
    ['count'], ['names'] and ['one_lot']. *)
Record ClusterInfo := MkClusterInfo {
  info_count : nat; info_names : list string; info_one_lot : F
}.

(** [VolatilityStageClusters.get_cluster_info]: the values under the three
    keys, in order.  [fmt4] renders a float in the format [.4f]. *)
Definition get_cluster_info (fmt4 : F → string)
    (self : VolatilityStageClusters)
  : ClusterInfo * ClusterInfo * ClusterInfo :=
  let label v := src_name v +:+ "=" +:+ fmt4 (src_volatility v) in
  (MkClusterInfo (size (cluster_one self))
     (label <$> cluster_one_full self) (one_lot self),
   MkClusterInfo (size (cluster_two self))
     (label <$> cluster_two_full self) (one_lot self),
   MkClusterInfo (size (cluster_three self))
     (label <$> cluster_three_full self) (one_lot self)).

End ClusterInfo.

(** ** The strategy *)

(** A naive [datetime.time]. *)
Record pytime := MkTime {
  hour : Z; minute : Z; second : Z; microsecond : Z
}.

#[export] Instance pytime_eq_dec : EqDecision pytime.
Proof. solve_decision. Defined.

(** [a <= b] on naive times: the order of the tuples
    [(hour, minute, second, microsecond)]. *)
Definition time_le (a b : pytime) : bool :=
  if decide (hour a = hour b) then
    if decide (minute a = minute b) then
      if decide (second a = second b) then
        bool_decide (microsecond a ≤ microsecond b)%Z
      else bool_decide (second a < second b)%Z
    else bool_decide (minute a < minute b)%Z
  else bool_decide (hour a < hour b)%Z.

(** A naive [datetime.datetime]: the ordinal of its date and its time. *)
Record datetime := MkDatetime { toordinal : Z; time_ : pytime }.

#[export] Instance datetime_eq_dec : EqDecision datetime.
Proof. solve_decision. Defined.

(** [dt.weekday()]: Monday is 0. *)
Definition weekday (dt : datetime) : Z := ((toordinal dt + 6) `mod` 7)%Z.

Module R1.

Section Strategy.
Context {ops : Float64Ops}.

(** Python's [round(x)] of a float: an integer, or the exception raised
    for a value that is not a number. *)
Variable py_round : F → exn + Z.

(** The parameters of [R1_LinearRegression] the trading logic reads. *)
Record params := Params {
  lr_period : Z;
  lr_deviation : F;
  sma_filter : bool;
  volume_pct : Z;
  max_positions : Z;
  volatility_cluster : Z;
  trade_start_tm : pytime;
  trade_end_tm : pytime;
  trade_weekdays : list Z;
  live_mode : bool
}.

(** The strategy object: its parameters, the cluster manager and the time
    of the last recomputation of the clusters. *)
Record R1_LinearRegression := Strategy {
  p : params;
  volatility_clusters : VolatilityStageClusters;
  last_time_set_clusters : option datetime
}.

(** What the framework holds for a data feed [d] at the current bar: the
    feed, [d.datetime.datetime(0)], [self.getposition(d).size], the value
    [sma[0]] of its moving average and whether [self.stocks[d._name]] is
    [LIVE]. *)
Record Data := MkData {
  feed : DataFeed;
  datetime0 : datetime;
  position_size : Z;
  sma0 : F;
  status_live : bool
}.

(** The orders the strategy sends: [self.buy(data=d, size=size)] and
    [self.close(data=d)]. *)
Inductive Order :=
| Buy (d : Data) (size : Z)
| Close (d : Data).

(** [R1_LinearRegression.can_trade_now]. *)
Definition can_trade_now (self : R1_LinearRegression) (dt : datetime)
  : bool :=
  let current_time := time_ dt in
  let weekday := weekday dt in
  if negb (bool_decide (weekday ∈ trade_weekdays (p self))) then false
  else if time_le (trade_start_tm (p self)) current_time
          && time_le current_time (trade_end_tm (p self)) then true
  else false.

(** [d.close[0]]: the close of the current bar. *)
Definition close0 (d : DataFeed) : exn + F :=
  match last (bars d) with
  | Some b => inr (close b)
  | None => inl IndexError
  end.

(** [R1_LinearRegression.get_position_size]; [cash] is
    [self.broker.getvalue()]. *)
Definition get_position_size (cash : F) (self : R1_LinearRegression)
    (data : DataFeed) : exn + Z :=
  let position_value := (cash * (of_Z (volume_pct (p self)) / f100))%f64 in
  match close0 data with
  | inl e => inl e
  | inr price =>
      if feqb price f0 then inr 0%Z
      else
        let size := (position_value / price)%f64 in
        py_round size
  end.

(** [R1_LinearRegression.count_open_positions]. *)
Definition count_open_positions (datas : list Data) : Z :=
  foldl (λ count d, if (0 <? position_size d)%Z then (count + 1)%Z else count)
    0%Z datas.

(** [np.isnan(x)]: a float is not a number when it differs from itself. *)
Definition isnan (x : F) : bool := negb (feqb x x).

(** The current bar of [self.inds[d._name]['lr_channel']]: [__init__]
    builds, for every instrument, the channel on the closes of its feed
    with the period and the deviation of the strategy. *)
Definition lr_channel (self : R1_LinearRegression) (d : DataFeed)
  : exn + ChannelPoint :=
  match _name d with
  | None => inl AttributeError
  | Some _ =>
      match next (Channel (lr_period (p self)) (lr_deviation (p self))
                    (lr_deviation (p self)))
              (close <$> bars d) with
      | Some channel => inr channel
      | None => inl IndexError
      end
  end.

(** The recomputation of the clusters at the head of the loop body: a
    failure of [calculate] is caught and leaves the time of the last
    recomputation as it was. *)
Definition update_clusters (self : R1_LinearRegression) (datas : list Data)
    (dt : datetime) : R1_LinearRegression :=
  if match last_time_set_clusters self with
     | None => true
     | Some t => bool_decide (t ≠ dt)
     end
  then
    if decide (volatility_cluster (p self) ≠ 0%Z) then
      let r := calculate (volatility_clusters self) (feed <$> datas) in
      match r.2 with
      | None => Strategy (p self) r.1 (Some dt)
      | Some _ => Strategy (p self) r.1 (last_time_set_clusters self)
      end
    else self
  else self.

(** The body of [for d in self.datas] of [next]: the strategy after it,
    the orders it sent and the exception that left it, if any. *)
Definition next_body (cash : F) (datas : list Data)
    (self : R1_LinearRegression) (d : Data)
  : R1_LinearRegression * list Order * option exn :=
  let dt := datetime0 d in
  let self := update_clusters self datas dt in
  if negb (can_trade_now self dt) then (self, [], None)
  else
    let position := position_size d in
    match
      (if bool_decide (position = 0%Z)
          && bool_decide (volatility_cluster (p self) ≠ 0%Z)
       then is_in_cluster (volatility_clusters self) (feed d)
              (volatility_cluster (p self))
       else inr true)
    with
    | inl e => (self, [], Some e)
    | inr false => (self, [], None)
    | inr true =>
        match lr_channel self (feed d) with
        | inl e => (self, [], Some e)
        | inr channel =>
            if isnan (upperband channel) || isnan (lowerband channel)
            then (self, [], None)
            else
              match close0 (feed d) with
              | inl e => (self, [], Some e)
              | inr close =>
                  if live_mode (p self) && negb (status_live d)
                  then (self, [], None)
                  else if bool_decide (position = 0%Z) then
                    if bool_decide (max_positions (p self)
                                    ≤ count_open_positions datas)%Z
                    then (self, [], None)
                    else if fleb (upperband channel) close then
                      if sma_filter (p self) && fltb close (sma0 d)
                      then (self, [], None)
                      else
                        match get_position_size cash self (feed d) with
                        | inl e => (self, [], Some e)
                        | inr size =>
                            if bool_decide (0 < size)%Z
                            then (self, [Buy d size], None)
                            else (self, [], None)
                        end
                    else (self, [], None)
                  else if bool_decide (0 < position)%Z then
                    if fleb close (lowerband channel)
                    then (self, [Close d], None)
                    else (self, [], None)
                  else (self, [], None)
              end
        end
    end.

(** The loop [for d in self.datas], left at the first exception. *)
Fixpoint run (cash : F) (datas : list Data) (self : R1_LinearRegression)
    (todo : list Data) : R1_LinearRegression * list Order * option exn :=
  match todo with
  | [] => (self, [], None)
  | d :: rest =>
      let '(self', orders, e) := next_body cash datas self d in
      match e with
      | Some _ => (self', orders, e)
      | None =>
          let '(self'', orders', e') := run cash datas self' rest in
          (self'', orders ++ orders', e')
      end
  end.

(** [R1_LinearRegression.next]. *)
Definition next (cash : F) (self : R1_LinearRegression) (datas : list Data)
  : R1_LinearRegression * list Order * option exn :=
  run cash datas self datas.

(** The feed an order is for. *)
Definition order_data (o : Order) : Data :=
  match o with
  | Buy d _ => d
  | Close d => d
  end.

End Strategy.

End R1.

(** The number of microseconds since midnight. *)
Definition microseconds (t : pytime) : Z :=
  (((hour t * 60 + minute t) * 60 + second t) * 1000000 + microsecond t)%Z.

(** The values a [datetime.time] can hold. *)
Definition valid_time (t : pytime) : Prop :=
  (0 ≤ hour t < 24 ∧ 0 ≤ minute t < 60 ∧ 0 ≤ second t < 60
   ∧ 0 ≤ microsecond t < 1000000)%Z.

(** Python's [round] on a number: the nearest integer, a tie going to the
    even one; it raises for not-a-number. *)
Definition exact_round (x : exact) : exn + Z :=
  match x with
  | NaN => inl ValueError
  | Fin q =>
      let f := Qfloor (this q) in
      let frac := (q - Qc_of_Z f)%Qc in
      inr (if decide (frac < Q2Qc (1 # 2))%Qc then f
           else if decide (Q2Qc (1 # 2) < frac)%Qc then (f + 1)%Z
           else if Z.even f then f else (f + 1)%Z)
  end.

(** ** A sample bar of the strategy *)

Module SampleRun.

(** A feed of two candles, given as (high, low, close). *)
Definition feed (nm : string) (b1 b2 : Z * Z * Z)
  : DataFeed (ops := exact_ops) :=
  Feed (ops := exact_ops) (Some nm)
    [MkBar (ops := exact_ops) (exq b1.1.1) (exq b1.1.2) (exq b1.2);
     MkBar (ops := exact_ops) (exq b2.1.1) (exq b2.1.2) (exq b2.2)].

(** Thursday, 12:00. *)
Definition noon : datetime := MkDatetime 738000 (MkTime 12 0 0 0).

Definition data (nm : string) (b1 b2 : Z * Z * Z) (size : Z)
  : R1.Data (ops := exact_ops) :=
  R1.MkData (ops := exact_ops) (feed nm b1 b2) noon size (exq 100) true.

(** The default parameters, with a channel of period 2. *)
Definition params : R1.params (ops := exact_ops) :=
  R1.Params (ops := exact_ops) 2 (Fin (Q2Qc (24 # 10))) true 10 10 1
    (MkTime 10 5 0 0) (MkTime 18 0 0 0) [0; 1; 2; 3; 4]%Z false.

(** The strategy as [__init__] leaves it, with a lookback of one candle. *)
Definition strategy : R1.R1_LinearRegression (ops := exact_ops) :=
  R1.Strategy (ops := exact_ops) params Sample.clusters None.

(** Four instruments: ["A"] is the least volatile and closes on its upper
    band; ["D"] is held and closes on its lower band. *)
Definition A : R1.Data (ops := exact_ops) :=
  data "A" (101, 99, 100)%Z (111, 110, 110)%Z 0.
Definition B : R1.Data (ops := exact_ops) :=
  data "B" (101, 99, 100)%Z (102, 100, 101)%Z 0.
Definition C : R1.Data (ops := exact_ops) :=
  data "C" (101, 99, 100)%Z (103, 100, 102)%Z 0.
Definition D : R1.Data (ops := exact_ops) :=
  data "D" (101, 99, 100)%Z (95, 90, 90)%Z 5.

End SampleRun.

(** * Properties *)

(** ** Machine integers *)

Lemma int64_small (z : Z) : (- 2 ^ 63 ≤ z < 2 ^ 63)%Z → int64 z = z.
Proof. intros Hz. unfold int64. rewrite Z.mod_small; lia. Qed.

(** Up to [max_period] no integer operation of the estimator wraps. *)
Lemma period_products_fit (N : Z) :
  (0 ≤ N ≤ max_period)%Z →
  int64 (N - 1) = (N - 1)%Z
  ∧ int64 (N * int64 (N - 1)) = (N * (N - 1))%Z
  ∧ int64 (int64 (int64 (N - 1) * N) * int64 (int64 (2 * N) - 1))
    = ((N - 1) * N * (2 * N - 1))%Z.
Proof.
  unfold max_period. intros HN.
  assert (int64 (N - 1) = (N - 1)%Z) as E1 by (apply int64_small; lia).
  assert (int64 (2 * N) = (2 * N)%Z) as E2 by (apply int64_small; lia).
  rewrite E1, E2.
  assert (int64 (2 * N - 1) = (2 * N - 1)%Z) as -> by (apply int64_small; lia).
  assert (- 1664511 ≤ (N - 1) * N ≤ 1664510 * 1664511)%Z as H2 by nia.
  rewrite (int64_small ((N - 1) * N)) by lia.
  split; [done|]. split; [apply int64_small; nia|].
  apply int64_small.
  destruct (decide (N = 0%Z)) as [->|H0]; [done|].
  assert (0 ≤ (N - 1) * N * (2 * N - 1)
          ≤ 1664510 * 1664511 * (2 * 1664511 - 1))%Z; [|lia].
  split; [apply Z.mul_nonneg_nonneg; nia|].
  apply Z.mul_le_mono_nonneg; nia.
Qed.

Example estimator_exact_3 :
  compute_linear_regression_mad_numba (ops := exact_ops)
    [exq 1; exq 3; exq 5] 3 = Some (exq 5, exq 0).
Proof. compute_done. Qed.

(** ** Loops, ranges and slices *)

Lemma for_each_app {S X} (body : S → X → option S) (xs ys : list X) (s : S) :
  for_each body (xs ++ ys) s = for_each body xs s ≫= for_each body ys.
Proof.
  revert s. induction xs as [|x xs IH]; intros s; simpl; [done|].
  destruct (body s x); simpl; auto.
Qed.

Lemma for_each_is_Some {S X} (body : S → X → option S) (xs : list X) (s : S) :
  (∀ s' x, x ∈ xs → is_Some (body s' x)) → is_Some (for_each body xs s).
Proof.
  revert s. induction xs as [|x xs IH]; intros s Hb; simpl; [by eexists|].
  destruct (Hb s x) as [s' ->]; [left|].
  apply IH. intros s'' y Hy. apply Hb. by right.
Qed.

Lemma py_range_snoc (lo : Z) (m : nat) :
  py_range lo (lo + Z.of_nat (S m))
  = py_range lo (lo + Z.of_nat m) ++ [(lo + Z.of_nat m)%Z].
Proof.
  unfold py_range.
  replace (Z.to_nat (lo + Z.of_nat (S m) - lo)) with (S m) by lia.
  replace (Z.to_nat (lo + Z.of_nat m - lo)) with m by lia.
  rewrite seq_S, fmap_app. done.
Qed.

Lemma py_range_empty (lo hi : Z) : (hi ≤ lo)%Z → py_range lo hi = [].
Proof.
  intros H. unfold py_range. by replace (Z.to_nat (hi - lo)) with 0%nat by lia.
Qed.

Lemma elem_of_py_range (lo hi x : Z) :
  x ∈ py_range lo hi ↔ (lo ≤ x < hi)%Z.
Proof.
  unfold py_range. rewrite list_elem_of_fmap. split.
  - intros (k & -> & Hk). apply elem_of_seq in Hk. lia.
  - intros H. exists (Z.to_nat (x - lo)). split; [lia|].
    apply elem_of_seq. lia.
Qed.

Lemma py_slice_inside {A} (l : list A) (s e : nat) :
  s ≤ e ≤ length l →
  py_slice l (Z.of_nat s) (Z.of_nat e) = take (e - s) (drop s l).
Proof.
  intros H. unfold py_slice, slice_bound.
  assert ((Z.of_nat s <? 0)%Z = false) as -> by lia.
  assert ((Z.of_nat e <? 0)%Z = false) as -> by lia.
  f_equal; [|f_equal]; lia.
Qed.

Lemma py_slice_length_le {A} (l : list A) (s e : Z) :
  length (py_slice l s e) ≤ length l.
Proof.
  unfold py_slice. rewrite length_take, length_drop. lia.
Qed.

(** ** The estimator returns a value on every window that is long enough *)

Section EstimatorTotal.
Context {ops : Float64Ops}.

Lemma sums_loop_is_Some (data_points : list F) (period : Z) (st : sums) :
  (period ≤ Z.of_nat (length data_points))%Z →
  is_Some (for_each (sums_body data_points) (py_range 0 period) st).
Proof.
  intros Hlen. apply for_each_is_Some. intros s g Hg.
  apply elem_of_py_range in Hg. unfold sums_body.
  destruct (lookup_lt_is_Some_2 data_points (Z.to_nat g)) as [y ->];
    [lia|by eexists].
Qed.

Lemma mad_loop_is_Some (data_points : list F) (period : Z) (a b : F)
    (st : F * F) :
  (period ≤ Z.of_nat (length data_points))%Z →
  is_Some (for_each (mad_body data_points a b) (py_range 0 period) st).
Proof.
  intros Hlen. apply for_each_is_Some. intros [m c] g Hg.
  apply elem_of_py_range in Hg. unfold mad_body.
  destruct (lookup_lt_is_Some_2 data_points (Z.to_nat g)) as [y ->];
    [lia|by eexists].
Qed.

Lemma estimator_is_Some (data_points : list F) (period : Z) :
  (period ≤ Z.of_nat (length data_points))%Z →
  is_Some (compute_linear_regression_mad_numba data_points period).
Proof.
  intros Hlen. unfold compute_linear_regression_mad_numba.
  destruct (sums_loop_is_Some data_points period (Sums f0 f0 f0 f0) Hlen)
    as [st ->].
  destruct (fltb _ _); [by eexists|].
  match goal with
  | |- context [for_each (mad_body _ ?a ?b) _ ?s] =>
      destruct (mad_loop_is_Some data_points period a b s Hlen)
        as [[m c] ->]
  end.
  by eexists.
Qed.

End EstimatorTotal.

(** ** Batch and incremental channel *)

Section ChannelPaths.
Context {ops : Float64Ops}.

Lemma line_get_short {A} (line : list A) (size : Z) :
  length (line_get line size) ≤ length line.
Proof. apply py_slice_length_le. Qed.

Lemma line_get_full {A} (line : list A) (size : nat) :
  size ≤ length line →
  line_get line (Z.of_nat size) = drop (length line - size) line.
Proof.
  intros H. unfold line_get.
  replace (Z.of_nat (length line) - 1 - Z.of_nat size + 1)%Z
    with (Z.of_nat (length line - size)) by lia.
  replace (Z.of_nat (length line) - 1 + 1)%Z
    with (Z.of_nat (length line)) by lia.
  rewrite py_slice_inside by lia.
  apply take_ge. rewrite length_drop. lia.
Qed.

Lemma next_before_period (self : LinearRegressionChannel_MAD)
    (data : list F) :
  (Z.of_nat (length data) < period self)%Z → next self data = Some nan_point.
Proof.
  intros H. unfold next.
  pose proof (line_get_short data (period self)).
  by assert ((Z.of_nat (length (line_get data (period self)))
              <? period self)%Z = true) as -> by lia.
Qed.

Lemma next_at_index (closes : list F) (N : nat) (up down : F) (i : nat) :
  N - 1 ≤ i → i < length closes → 1 ≤ N →
  next (Channel (Z.of_nat N) up down) (take (S i) closes)
  = match compute_linear_regression_mad_numba
            (take N (drop (S i - N) closes)) (Z.of_nat N) with
    | None => None
    | Some (cr, mad) => Some (Point (cr + mad * up) cr (cr - mad * down))%f64
    end.
Proof.
  intros Hi Hn HN. unfold next; simpl.
  assert (length (take (S i) closes) = S i) as Hlen
    by (rewrite length_take; lia).
  rewrite line_get_full by lia. rewrite Hlen.
  replace (drop (S i - N) (take (S i) closes))
    with (take N (drop (S i - N) closes)).
  2:{ rewrite take_drop_commute. do 2 f_equal. lia. }
  assert (length (take N (drop (S i - N) closes)) = N) as Hw
    by (rewrite length_take, length_drop; lia).
  rewrite Hw.
  by assert ((Z.of_nat N <? Z.of_nat N)%Z = false) as -> by lia.
Qed.

Lemma next_is_Some (self : LinearRegressionChannel_MAD) (data : list F) :
  is_Some (next self data).
Proof.
  unfold next. destruct (_ <? _)%Z eqn:E; [by eexists|].
  destruct (estimator_is_Some (line_get data (period self)) (period self))
    as [[cr mad] ->]; [lia|by eexists].
Qed.

(** The incremental run emits, bar after bar, [next] of the closes seen. *)
Lemma run_next_lookup (self : LinearRegressionChannel_MAD)
    (closes : list F) :
  ∃ pts, for_each (on_close self) closes ([], []) = Some (closes, pts)
         ∧ length pts = length closes
         ∧ ∀ k, k < length closes →
                Some <$> pts !! k = Some (next self (take (S k) closes)).
Proof.
  induction closes as [|c cs IH] using rev_ind.
  - exists []. simpl. split_and!; [done..|]. intros k Hk. simpl in Hk. lia.
  - destruct IH as (pts & Hrun & Hlen & Hk).
    destruct (next_is_Some self (cs ++ [c])) as [pt Hpt].
    exists (pts ++ [pt]). rewrite for_each_app, Hrun. simpl.
    unfold on_close at 1. simpl. rewrite Hpt. simpl.
    split_and!; [done|rewrite !length_app; simpl; lia|].
    intros k Hlt. rewrite length_app in Hlt. simpl in Hlt.
    destruct (decide (k < length cs)) as [Hin|Hout].
    + rewrite lookup_app_l by lia. rewrite take_app_le by lia. by apply Hk.
    + assert (k = length cs) as -> by lia.
      rewrite lookup_app_r by lia.
      replace (length cs - length pts) with 0 by lia. simpl.
      rewrite take_ge by (rewrite length_app; simpl; lia).
      by rewrite Hpt.
Qed.

Lemma slice_fill_length {A} (l : list A) (stop : Z) (v : A) :
  length (slice_fill l stop v) = length l.
Proof.
  unfold slice_fill, slice_bound.
  rewrite length_app, length_replicate, length_drop.
  destruct (stop <? 0)%Z eqn:E; lia.
Qed.

Lemma slice_fill_lookup {A} (l : list A) (stop : nat) (v : A) (k : nat) :
  k < stop → k < length l → slice_fill l (Z.of_nat stop) v !! k = Some v.
Proof.
  intros Hk Hl. unfold slice_fill, slice_bound.
  assert ((Z.of_nat stop <? 0)%Z = false) as -> by lia.
  rewrite lookup_app_l by (rewrite length_replicate; lia).
  apply lookup_replicate_2. lia.
Qed.

Lemma index_set_inside {A} (l : list A) (i : nat) (v : A) :
  i < length l → index_set l (Z.of_nat i) v = Some (<[i := v]> l).
Proof.
  intros H. unfold index_set.
  assert ((Z.of_nat i <? 0)%Z = false) as -> by lia.
  rewrite decide_True by lia. by rewrite Nat2Z.id.
Qed.

(** After [m] rounds of the batch loop every bar below [period - 1 + m]
    holds what [next] writes at that bar. *)
Lemma batch_loop_invariant (junk : F) (closes : list F) (N : nat)
    (up down : F) (m : nat) :
  1 ≤ N → (m ≠ 0 → N - 1 + m ≤ length closes) →
  let n := length closes in
  let init := (slice_fill (np_empty junk n) (Z.of_nat N - 1) nan,
               slice_fill (np_empty junk n) (Z.of_nat N - 1) nan,
               slice_fill (np_empty junk n) (Z.of_nat N - 1) nan) in
  ∃ ub reg lb,
    for_each (channel_body closes (Z.of_nat N) up down)
      (py_range (Z.of_nat N - 1) (Z.of_nat N - 1 + Z.of_nat m)) init
    = Some (ub, reg, lb)
    ∧ length ub = n ∧ length reg = n ∧ length lb = n
    ∧ ∀ k, k < n → k < N - 1 + m →
           point_at (ub, reg, lb) k
           = next (Channel (Z.of_nat N) up down) (take (S k) closes).
Proof.
  intros HN Hm n init. induction m as [|m IH].
  - eexists _, _, _. rewrite py_range_empty by lia. simpl.
    split_and!; [done|unfold np_empty;
      by rewrite slice_fill_length, length_replicate..|].
    intros k Hk Hlt. replace (Z.of_nat N - 1)%Z with (Z.of_nat (N - 1)) by lia.
    rewrite !slice_fill_lookup
      by (unfold np_empty; rewrite ?length_replicate; lia).
    simpl. symmetry. apply next_before_period. simpl.
    rewrite length_take. lia.
  - assert (N - 1 + S m ≤ length closes) as Hm' by (apply Hm; lia).
    destruct IH as (ub & reg & lb & Hrun & Hub & Hreg & Hlb & Hpts); [lia|].
    rewrite py_range_snoc, for_each_app, Hrun. simpl.
    replace (Z.of_nat N - 1 + Z.of_nat m)%Z with (Z.of_nat (N - 1 + m)) by lia.
    replace (Z.of_nat (N - 1 + m) - Z.of_nat N + 1)%Z
      with (Z.of_nat (S (N - 1 + m) - N)) by lia.
    replace (Z.of_nat (N - 1 + m) + 1)%Z
      with (Z.of_nat (S (N - 1 + m))) by lia.
    rewrite py_slice_inside by lia.
    replace (S (N - 1 + m) - (S (N - 1 + m) - N)) with N by lia.
    pose proof (next_at_index closes N up down (N - 1 + m)) as Hnext.
    destruct (estimator_is_Some
                (take N (drop (S (N - 1 + m) - N) closes)) (Z.of_nat N))
      as [[cr mad] Hest].
    { rewrite length_take, length_drop. lia. }
    rewrite Hest in Hnext |- *.
    rewrite !index_set_inside by lia. simpl.
    eexists _, _, _. split_and!; [done|by rewrite length_insert..|].
    intros k Hk Hlt. destruct (decide (k = N - 1 + m)) as [->|Hne].
    + rewrite Hnext by lia. simpl.
      by rewrite !list_lookup_insert_eq by lia.
    + rewrite <- Hpts by lia. simpl.
      by rewrite !list_lookup_insert_ne by lia.
Qed.

End ChannelPaths.

(** C1.  For every close series and every period N >= 2 the batch pass
    [compute_lr_channel_mad_numba] returns its three arrays, the incremental
    path ([next] after each arriving close) returns its points, and at every
    index [i] the two hold the same [ChannelPoint]: the not-a-number sentinel
    while fewer than N closes have arrived ([i < N - 1]), and otherwise the
    bands built from the estimator applied to the window [i-N+1 .. i].  The
    statement holds for any arithmetic, binary64 included, and whatever the
    uninitialised cells of [np.empty] held. *)
Theorem batch_matches_incremental {ops : Float64Ops} (junk : F)
    (closes : list F) (period : Z) (up down : F) :
  (2 ≤ period)%Z →
  ∃ arrays pts,
    compute_lr_channel_mad_numba junk closes period up down = Some arrays
    ∧ run_next (Channel period up down) closes = Some pts
    ∧ ∀ i, i < length closes →
        ∃ pt, point_at arrays i = Some pt
          ∧ pts !! i = Some pt
          ∧ ((Z.of_nat i < period - 1)%Z → pt = nan_point)
          ∧ ((period - 1 ≤ Z.of_nat i)%Z →
             ∃ cr mad,
               compute_linear_regression_mad_numba
                 (take (Z.to_nat period)
                    (drop (S i - Z.to_nat period) closes)) period
               = Some (cr, mad)
               ∧ pt = Point (cr + mad * up)%f64 cr (cr - mad * down)%f64).
Proof.
  intros HN.
  assert (∃ N, period = Z.of_nat N) as [N ->]
    by (exists (Z.to_nat period); lia).
  rewrite Nat2Z.id. assert (1 ≤ N) as HN1 by lia.
  set (m := length closes - (N - 1)).
  destruct (batch_loop_invariant junk closes N up down m HN1)
    as (ub & reg & lb & Hrun & Hub & Hreg & Hlb & Hpts); [lia|].
  destruct (run_next_lookup (Channel (Z.of_nat N) up down) closes)
    as (pts & Hinc & Hlen & Hk).
  exists (ub, reg, lb), pts. split_and!.
  - unfold compute_lr_channel_mad_numba. rewrite <- Hrun.
    destruct (decide (N - 1 ≤ length closes)) as [Hle|Hgt].
    + do 2 f_equal. lia.
    + rewrite !py_range_empty by lia. done.
  - unfold run_next. by rewrite Hinc.
  - intros i Hi.
    destruct (next_is_Some (Channel (Z.of_nat N) up down) (take (S i) closes))
      as [pt Hpt].
    specialize (Hk i Hi). rewrite Hpt in Hk.
    exists pt. split_and!.
    + destruct (decide (i < N - 1 + m)) as [Hlt|Hge].
      * rewrite Hpts by lia. done.
      * assert (length closes < N - 1) by lia. lia.
    + destruct (pts !! i); simpl in Hk; congruence.
    + intros Hlt. rewrite next_before_period in Hpt; [congruence|].
      simpl. rewrite length_take. lia.
    + intros Hge. rewrite next_at_index in Hpt by lia.
      destruct (compute_linear_regression_mad_numba _ _) as [[cr mad]|];
        [|done].
      exists cr, mad. split; congruence.
Qed.

Lemma batch_matches_incremental_witness :
  ∃ arrays pts,
    compute_lr_channel_mad_numba (ops := b64_ops) 7%float
      [1; 2; 4; 8; 16]%float 3 2%float 2%float = Some arrays
    ∧ run_next (ops := b64_ops) (Channel (ops := b64_ops) 3 2%float 2%float)
        [1; 2; 4; 8; 16]%float = Some pts
    ∧ ∀ i, i < 5 →
        ∃ pt, point_at arrays i = Some pt
          ∧ pts !! i = Some pt
          ∧ ((Z.of_nat i < 3 - 1)%Z → pt = nan_point)
          ∧ ((3 - 1 ≤ Z.of_nat i)%Z →
             ∃ cr mad,
               compute_linear_regression_mad_numba (ops := b64_ops)
                 (take (Z.to_nat 3)
                    (drop (S i - Z.to_nat 3) [1; 2; 4; 8; 16]%float)) 3
               = Some (cr, mad)
               ∧ pt = Point (ops := b64_ops)
                        (PrimFloat.add cr (PrimFloat.mul mad 2))
                        cr (PrimFloat.sub cr (PrimFloat.mul mad 2))).
Proof.
  apply (batch_matches_incremental (ops := b64_ops) 7%float
           [1; 2; 4; 8; 16]%float 3 2%float 2%float).
  lia.
Defined.


(** ** Cluster membership queries *)

Section Queries.
Context {ops : Float64Ops}.

Lemma dict_in_dom {V} (k : string) (d : gmap string V) :
  dict_in k d = bool_decide (k ∈ dom d).
Proof. unfold dict_in. apply bool_decide_ext. by rewrite elem_of_dom. Qed.

Lemma collect_sources_filter (lookback : Z) (data_feeds : list DataFeed) :
  collect_sources lookback data_feeds
  = source_of lookback <$> filter (λ d, eligible lookback d) data_feeds.
Proof.
  unfold collect_sources.
  enough (∀ acc,
    foldl (λ sources data,
             if (Z.of_nat (length (bars data)) <? lookback)%Z then sources
             else sources ++ [MkSource data
                                (VolatilityCalculator_calculate data lookback)
                                (default "Unknown" (_name data))])
      acc data_feeds
    = acc ++ (source_of lookback
                <$> filter (λ d, eligible lookback d) data_feeds)) as H
    by apply (H []).
  induction data_feeds as [|d ds IH]; intros acc; simpl.
  - by rewrite app_nil_r.
  - rewrite IH, filter_cons.
    destruct (Z.of_nat (length (bars d)) <? lookback)%Z eqn:E;
      case_decide as Hel; unfold eligible in Hel.
    + apply bool_decide_unpack in Hel. lia.
    + done.
    + by rewrite <- app_assoc.
    + exfalso. apply Hel, bool_decide_pack. lia.
Qed.

Lemma is_in_cluster_cleared (self : VolatilityStageClusters)
    (n : string) (bs : list Bar) (cluster_number : Z) :
  is_in_cluster (clear_clusters self) (Feed (Some n) bs) cluster_number
  = inr false.
Proof.
  unfold is_in_cluster, dict_in; simpl.
  repeat case_decide; try done;
    by rewrite lookup_empty, bool_decide_eq_false_2 by (by intros [? ?]).
Qed.

End Queries.

(** C10.  For every data feed that carries a name and every integer
    [cluster_number], [is_in_cluster] returns a boolean and does not raise:
    for 1, 2 and 3 it tells whether the feed's name is a key of the
    corresponding cluster mapping, and for any other number it is False. *)
Theorem is_in_cluster_returns_bool {ops : Float64Ops}
    (self : VolatilityStageClusters) (n : string) (bs : list Bar)
    (cluster_number : Z) :
  is_in_cluster self (Feed (Some n) bs) cluster_number
  = inr (match cluster_number with
         | 1%Z => bool_decide (n ∈ dom (cluster_one self))
         | 2%Z => bool_decide (n ∈ dom (cluster_two self))
         | 3%Z => bool_decide (n ∈ dom (cluster_three self))
         | _ => false
         end).
Proof.
  unfold is_in_cluster; simpl. rewrite !dict_in_dom.
  destruct (decide (cluster_number = 1%Z)) as [->|H1]; [done|].
  destruct (decide (cluster_number = 2%Z)) as [->|H2]; [done|].
  destruct (decide (cluster_number = 3%Z)) as [->|H3]; [done|].
  destruct cluster_number as [|[[]|[]|]|]; done.
Qed.

(** C2 (the code departs from it).  Whenever exactly one feed is eligible,
    [calculate] clears the clusters and then raises [AttributeError] at
    [self.cluster_one.append]: the instrument is not placed in Cluster1,
    and the membership query for it and cluster 1 answers False. *)
Theorem single_instrument_raises {ops : Float64Ops}
    (self : VolatilityStageClusters) (data_feeds : list DataFeed)
    (n : string) (bs : list Bar) :
  filter (λ d, eligible (length_ self) d) data_feeds = [Feed (Some n) bs] →
  calculate self data_feeds = (clear_clusters self, Some AttributeError)
  ∧ is_in_cluster (calculate self data_feeds).1 (Feed (Some n) bs) 1
    = inr false.
Proof.
  intros Hone.
  assert (calculate self data_feeds = (clear_clusters self, Some AttributeError))
    as Hcalc.
  { unfold calculate, _calculate_clusters.
    destruct data_feeds as [|d ds]; [done|].
    rewrite collect_sources_filter. simpl length_. rewrite Hone. simpl.
    done. }
  split; [done|]. rewrite Hcalc. apply is_in_cluster_cleared.
Qed.

Lemma single_instrument_raises_witness :
  filter (λ d, eligible (length_ Sample.clusters) d)
    [Sample.feed "SBER" 110 100; Feed (ops := exact_ops) (Some "GAZP") []]
  = [Sample.feed "SBER" 110 100]
  ∧ calculate Sample.clusters
      [Sample.feed "SBER" 110 100; Feed (ops := exact_ops) (Some "GAZP") []]
    = (clear_clusters Sample.clusters, Some AttributeError)
  ∧ is_in_cluster
      (calculate Sample.clusters
         [Sample.feed "SBER" 110 100;
          Feed (ops := exact_ops) (Some "GAZP") []]).1
      (Sample.feed "SBER" 110 100) 1
    = inr false.
Proof.
  split; [reflexivity|].
  apply (single_instrument_raises (ops := exact_ops) Sample.clusters
           [Sample.feed "SBER" 110 100;
            Feed (ops := exact_ops) (Some "GAZP") []]
           "SBER" [MkBar (ops := exact_ops) (exq 110) (exq 100) (exq 100)]).
  reflexivity.
Defined.

(** ** Recomputing with no eligible instrument *)

(** The claim C3 as stated fails: after a ranking of two instruments,
    ["a"] is a member of cluster 2; a recomputation with an empty feed list
    returns normally and ["a"] is a member no more. *)
Lemma empty_recompute_forgets_assignment :
  let st := (calculate Sample.clusters
               [Sample.feed "a" 101 100; Sample.feed "b" 102 100]).1 in
  is_in_cluster st (Sample.feed "a" 101 100) 2 = inr true
  ∧ (calculate st []).2 = None
  ∧ is_in_cluster (calculate st []).1 (Sample.feed "a" 101 100) 2
    = inr false.
Proof. vm_compute. done. Qed.

(** C3, as amended.  When no feed is eligible (an empty feed list, or no
    feed with at least [lookback] candles), [calculate] raises nothing and
    returns the object with its three cluster mappings and three lists
    emptied, the configuration and [one_lot] kept: afterwards no membership
    query answers True.  The inner step [_calculate_clusters] alone leaves
    the object as it was. *)
Theorem recompute_without_eligible_feeds {ops : Float64Ops}
    (self : VolatilityStageClusters) (data_feeds : list DataFeed)
    (n : string) (bs : list Bar) (cluster_number : Z) :
  filter (λ d, eligible (length_ self) d) data_feeds = [] →
  calculate self data_feeds = (clear_clusters self, None)
  ∧ is_in_cluster (calculate self data_feeds).1 (Feed (Some n) bs)
      cluster_number = inr false
  ∧ _calculate_clusters self data_feeds = (self, None).
Proof.
  intros Hnone.
  assert (∀ st, length_ st = length_ self →
                _calculate_clusters st data_feeds = (st, None)) as Hinner.
  { intros st Hst. unfold _calculate_clusters.
    destruct data_feeds as [|d ds]; [done|].
    rewrite collect_sources_filter, Hst, Hnone. done. }
  unfold calculate. rewrite !Hinner by done.
  split_and!; [done| |done]. apply is_in_cluster_cleared.
Qed.

Lemma recompute_without_eligible_feeds_witness :
  filter (λ d, eligible (length_ Sample.clusters) d)
    [Feed (ops := exact_ops) (Some "GAZP") []] = []
  ∧ calculate Sample.clusters [Feed (ops := exact_ops) (Some "GAZP") []]
    = (clear_clusters Sample.clusters, None)
  ∧ is_in_cluster
      (calculate Sample.clusters
         [Feed (ops := exact_ops) (Some "GAZP") []]).1
      (Feed (ops := exact_ops) (Some "GAZP") []) 1 = inr false
  ∧ _calculate_clusters Sample.clusters
      [Feed (ops := exact_ops) (Some "GAZP") []]
    = (Sample.clusters, None).
Proof.
  split; [reflexivity|].
  apply (recompute_without_eligible_feeds (ops := exact_ops) Sample.clusters
           [Feed (ops := exact_ops) (Some "GAZP") []] "GAZP" [] 1).
  reflexivity.
Defined.

(** ** Construction *)

(** Normalise an order goal over [Qc] to one over [Q]. *)
Ltac qc_norm :=
  repeat (progress (unfold Qcle, Qclt, Qcdiv, Qcminus, Qcplus, Qcopp, Qcmult,
                      Qcinv, Qc_of_Z, Q2Qc in *; cbn [this] in * ));
  repeat match goal with
  | H : context [Qred _] |- _ => rewrite Qred_correct in H
  | |- context [Qred _] => rewrite Qred_correct
  end.

(** Inverses of constants, computed. *)
Ltac q_const_inv :=
  repeat match goal with
  | |- context [Qinv (Qmake ?n ?d)] =>
      let v := eval compute in (Qinv (Qmake n d)) in
      change (Qinv (Qmake n d)) with v
  | H : context [Qinv (Qmake ?n ?d)] |- _ =>
      let v := eval compute in (Qinv (Qmake n d)) in
      change (Qinv (Qmake n d)) with v in H
  end.

Ltac qc_lra := qc_norm; unfold inject_Z in *; q_const_inv; lra.

Lemma exact_div_fin (a b : Qc) :
  b ≠ 0%Qc → Exact.div (Fin a) (Fin b) = Fin (a / b)%Qc.
Proof. intros Hb. unfold Exact.div. by rewrite decide_False. Qed.

Lemma f0_exact : f0 (ops := exact_ops) = Fin 0%Qc.
Proof. unfold f0. cbn [of_Z exact_ops]. by rewrite Z2Qc_inj_0. Qed.

Lemma f0_01_exact : f0_01 (ops := exact_ops) = Fin (Q2Qc (1 # 100)).
Proof.
  unfold f0_01; cbn [fdiv of_Z exact_ops]. rewrite exact_div_fin by done.
  apply (f_equal Fin), Qc_is_canon. reflexivity.
Qed.

(** The claim C7 as stated fails: with lookback 0 and the percentages
    -10, 60 and 50 (one of them negative) the partitioner is built. *)
Lemma negative_percent_is_accepted :
  fltb (Float64Ops := b64_ops) (B64.of_Z (-10)) (B64.of_Z 0) = true
  ∧ VolatilityStageClusters_init (ops := b64_ops) 0
      (B64.of_Z (-10)) (B64.of_Z 60) (B64.of_Z 50)
    = inr (Clusters (ops := b64_ops) ∅ ∅ ∅ [] [] [] (B64.of_Z 0) 0
             (B64.of_Z (-10)) (B64.of_Z 60) (B64.of_Z 50)).
Proof. split; reflexivity. Qed.

(** The construction test without rounding: the sum of the percentages is
    within 0.01 of 100. *)
Lemma init_exact (lookback : Z) (p1 p2 p3 : Qc) :
  VolatilityStageClusters_init (ops := exact_ops) lookback
    (Fin p1) (Fin p2) (Fin p3)
  = (if decide (p1 + p2 + p3 - Qc_of_Z 100 ≤ Q2Qc (1 # 100)
                ∧ Qc_of_Z 100 - (p1 + p2 + p3) ≤ Q2Qc (1 # 100))%Qc
     then inr (Clusters (ops := exact_ops) ∅ ∅ ∅ [] [] [] (exq 0) lookback
                 (Fin p1) (Fin p2) (Fin p3))
     else inl ValueError).
Proof.
  unfold VolatilityStageClusters_init, f100, f0, exq.
  rewrite f0_01_exact.
  cbn [fadd fsub fabs fltb of_Z exact_ops Exact.lift2 Exact.abs Exact.cmp2].
  unfold Exact.ltb, Exact.qabs.
  destruct (decide (p1 + p2 + p3 - Qc_of_Z 100 < 0)%Qc) as [Hneg|Hpos];
    case_bool_decide as Hlt; case_decide as Hok; try done; exfalso.
  - destruct Hok as [H1 H2]. revert Hlt H2. clear. intros. qc_lra.
  - apply Hok. revert Hlt Hneg. clear. intros. split; qc_lra.
  - destruct Hok as [H1 H2]. revert Hlt H1. clear. intros. qc_lra.
  - apply Hok. revert Hlt Hpos. clear. intros. split; qc_lra.
Qed.

(** C7, as amended.  The only check made at construction is the one on the
    sum of the three percentages, as the code computes it: in any
    arithmetic, binary64 included, [VolatilityStageClusters] is refused
    (ValueError) exactly when [abs((p1 + p2) + p3 - 100.0) > 0.01]
    evaluates to true, and is otherwise built with the lookback and the
    percentages as given, whatever their signs and whatever the lookback;
    the constructor of the regression channel takes any period and any
    deviation multipliers and only registers the period as minimum period.
    Without rounding the test is that the sum is within 0.01 of 100; in
    binary64 the sum is rounded and depends on the order of the
    percentages: [(0.01, 50, 50)] is built and [(50, 50, 0.01)] is
    refused. *)
Theorem construction_checks_only_the_sum :
  (∀ (ops : Float64Ops) (lookback : Z) (p1 p2 p3 : F) (period : Z)
     (up down : F),
     VolatilityStageClusters_init lookback p1 p2 p3
     = (if fltb f0_01 (fabs (p1 + p2 + p3 - f100)%f64)
        then inl ValueError
        else inr (Clusters ∅ ∅ ∅ [] [] [] f0 lookback p1 p2 p3))
     ∧ LinearRegressionChannel_MAD_init period up down
       = (Channel period up down, period))
  ∧ (∀ (lookback : Z) (p1 p2 p3 : Qc),
       VolatilityStageClusters_init (ops := exact_ops) lookback
         (Fin p1) (Fin p2) (Fin p3)
       = (if decide (p1 + p2 + p3 - Qc_of_Z 100 ≤ Q2Qc (1 # 100)
                     ∧ Qc_of_Z 100 - (p1 + p2 + p3) ≤ Q2Qc (1 # 100))%Qc
          then inr (Clusters (ops := exact_ops) ∅ ∅ ∅ [] [] [] (exq 0)
                      lookback (Fin p1) (Fin p2) (Fin p3))
          else inl ValueError))
  ∧ VolatilityStageClusters_init (ops := b64_ops) 30
      (f0_01 (ops := b64_ops)) (B64.of_Z 50) (B64.of_Z 50)
    = inr (Clusters (ops := b64_ops) ∅ ∅ ∅ [] [] [] (B64.of_Z 0) 30
             (f0_01 (ops := b64_ops)) (B64.of_Z 50) (B64.of_Z 50))
  ∧ VolatilityStageClusters_init (ops := b64_ops) 30
      (B64.of_Z 50) (B64.of_Z 50) (f0_01 (ops := b64_ops))
    = inl ValueError.
Proof.
  split_and!.
  - intros ops lookback p1 p2 p3 period up down. split; [|done].
    unfold VolatilityStageClusters_init. by destruct (fltb _ _).
  - apply init_exact.
  - reflexivity.
  - reflexivity.
Qed.

(** ** The volatility gauge *)

Section Gauge.
Context {ops : Float64Ops}.

Lemma line_get_nonpos {A} (line : list A) (size : Z) :
  (size ≤ 0)%Z → line_get line size = [].
Proof.
  intros H. unfold line_get, py_slice, slice_bound.
  assert ((Z.of_nat (length line) - 1 - size + 1 <? 0)%Z = false) as ->
    by (apply Z.ltb_ge; lia).
  assert ((Z.of_nat (length line) - 1 + 1 <? 0)%Z = false) as ->
    by (apply Z.ltb_ge; lia).
  apply length_zero_iff_nil. rewrite length_take, length_drop. lia.
Qed.

(** The window the gauge reads: the last [period] bars, or all of them
    when the feed is shorter. *)
Lemma gauge_window (line : list Bar) (period : Z) :
  line_get line (Z.min period (Z.of_nat (length line)))
  = drop (length line - Z.to_nat period) line.
Proof.
  destruct (decide (period ≤ 0)%Z) as [Hle|Hgt].
  - rewrite line_get_nonpos by lia.
    replace (length line - Z.to_nat period) with (length line) by lia.
    by rewrite drop_all.
  - replace (Z.min period (Z.of_nat (length line)))
      with (Z.of_nat (Nat.min (Z.to_nat period) (length line))) by lia.
    rewrite line_get_full by lia. f_equal. lia.
Qed.

End Gauge.

(** In exact arithmetic [np.max] of numbers is their greatest and [np.min]
    their least. *)
Lemma np_max_exact (h0 : Qc) (hs : list Qc) :
  ∃ M, np_max (ops := exact_ops) (Fin h0) (Fin <$> hs) = Fin M
       ∧ M ∈ h0 :: hs ∧ ∀ x, x ∈ h0 :: hs → (x ≤ M)%Qc.
Proof.
  unfold np_max. revert h0. induction hs as [|h hs IH]; intros h0; simpl.
  - exists h0. split_and!; [done|left|].
    intros x ->%list_elem_of_singleton. apply Qcle_refl.
  - destruct (IH (Exact.max h0 h)) as (M & HM & Hin & Hle).
    exists M. split; [done|]. unfold Exact.max, Exact.ltb in *.
    case_bool_decide as Hlt; split.
    + apply elem_of_cons in Hin as [->|Hin]; [right; left|by do 2 right].
    + intros x [->|Hx]%elem_of_cons; [|by apply Hle].
      apply Qcle_trans with h; [by apply Qclt_le_weak|apply Hle; left].
    + apply elem_of_cons in Hin as [->|Hin]; [left|by do 2 right].
    + intros x [->|[->|Hx]%elem_of_cons]%elem_of_cons.
      * apply Hle. left.
      * apply Qcle_trans with h0; [by apply Qcnot_lt_le|apply Hle; left].
      * apply Hle. by right.
Qed.

Lemma np_min_exact (l0 : Qc) (ls : list Qc) :
  ∃ M, np_min (ops := exact_ops) (Fin l0) (Fin <$> ls) = Fin M
       ∧ M ∈ l0 :: ls ∧ ∀ x, x ∈ l0 :: ls → (M ≤ x)%Qc.
Proof.
  unfold np_min. revert l0. induction ls as [|l ls IH]; intros l0; simpl.
  - exists l0. split_and!; [done|left|].
    intros x ->%list_elem_of_singleton. apply Qcle_refl.
  - destruct (IH (Exact.min l0 l)) as (M & HM & Hin & Hle).
    exists M. split; [done|]. unfold Exact.min, Exact.ltb in *.
    case_bool_decide as Hlt; split.
    + apply elem_of_cons in Hin as [->|Hin]; [right; left|by do 2 right].
    + intros x [->|Hx]%elem_of_cons; [|by apply Hle].
      apply Qcle_trans with l; [apply Hle; left|by apply Qclt_le_weak].
    + apply elem_of_cons in Hin as [->|Hin]; [left|by do 2 right].
    + intros x [->|[->|Hx]%elem_of_cons]%elem_of_cons.
      * apply Hle. left.
      * apply Qcle_trans with l0; [apply Hle; left|by apply Qcnot_lt_le].
      * apply Hle. by right.
Qed.

(** The value of the gauge on the window it reads, in any arithmetic. *)
Lemma gauge_general {ops : Float64Ops} (data : DataFeed) (period : Z) :
  VolatilityCalculator_calculate data period
  = match drop (length (bars data) - Z.to_nat period) (bars data) with
    | [] => f0
    | b :: w =>
        let max_price := np_max (high b) (high <$> w) in
        let min_price := np_min (low b) (low <$> w) in
        if feqb min_price f0 then f0
        else ((max_price - min_price) / (min_price / f100))%f64
    end.
Proof.
  unfold VolatilityCalculator_calculate.
  destruct (Z.of_nat (length (bars data)) <? 1)%Z eqn:E.
  - apply Z.ltb_lt in E.
    destruct (bars data); [|simpl in E; lia]. by rewrite drop_nil.
  - rewrite gauge_window.
    by destruct (drop (length (bars data) - Z.to_nat period) (bars data)).
Qed.

(** The gauge on numbers: the window is [p0 :: w], pairs of a high and a
    low, preceded by older bars [pre]. *)
Lemma gauge_exact (nm : option string) (pre : list (Qc * Qc))
    (p0 : Qc * Qc) (w : list (Qc * Qc)) :
  ∃ M m : Qc,
    (M ∈ fst <$> p0 :: w ∧ ∀ x, x ∈ fst <$> p0 :: w → (x ≤ M)%Qc)
    ∧ (m ∈ snd <$> p0 :: w ∧ ∀ x, x ∈ snd <$> p0 :: w → (m ≤ x)%Qc)
    ∧ VolatilityCalculator_calculate (ops := exact_ops)
        (Feed (ops := exact_ops) nm (exact_bar <$> pre ++ p0 :: w))
        (Z.of_nat (S (length w)))
      = if decide (m = 0%Qc) then Fin 0%Qc
        else Fin ((M - m) / (m / Qc_of_Z 100))%Qc.
Proof.
  destruct (np_max_exact p0.1 (fst <$> w)) as (M & HM & HMin & HMle).
  destruct (np_min_exact p0.2 (snd <$> w)) as (m & Hm & Hmin & Hmle).
  exists M, m. split_and!; [done..|].
  rewrite gauge_general. cbn [bars].
  rewrite length_fmap, length_app, Nat2Z.id. cbn [length].
  replace (length pre + S (length w) - S (length w)) with (length pre) by lia.
  rewrite fmap_app, drop_app_length'; [|by rewrite length_fmap].
  rewrite fmap_cons. cbn [high low exact_bar].
  rewrite <- !list_fmap_compose.
  change (high ∘ exact_bar) with (Fin ∘ fst (B := Qc)).
  change (low ∘ exact_bar) with (Fin ∘ snd (A := Qc)).
  rewrite !list_fmap_compose, HM, Hm, f0_exact.
  cbn [feqb fsub fdiv exact_ops Exact.cmp2 Exact.lift2]. unfold Exact.eqb.
  case_bool_decide as H0; case_decide as H0'; try done.
  unfold f100. cbn [of_Z exact_ops].
  rewrite (exact_div_fin m) by done.
  rewrite exact_div_fin; [done|].
  intros Hz. apply H0. revert Hz. clear.
  intros Hz. apply Qc_is_canon.
  assert (this (m / Qc_of_Z 100)%Qc == 0)%Q as Hq by by rewrite Hz.
  revert Hq. qc_norm. unfold inject_Z. q_const_inv. intros. lra.
Qed.

(** C6.  For every feed and lookback, the gauge reads the last [lookback]
    bars (all of them when the feed is shorter).  With no bar in that window
    it returns 0; otherwise, with [max] the [np.max] of the highs and [min]
    the [np.min] of the lows, it returns 0 when [min == 0] and
    [(max - min) / (min / 100)] when not; on numbers [max] is the greatest
    high and [min] the least low of the window.  For highs 110, 120, 100 and
    lows 90, 95, 80 with lookback 3 it returns 50, in exact arithmetic and
    in binary64. *)
Theorem volatility_gauge_value :
  (∀ (ops : Float64Ops) (data : DataFeed) (period : Z),
     VolatilityCalculator_calculate data period
     = match drop (length (bars data) - Z.to_nat period) (bars data) with
       | [] => f0
       | b :: w =>
           let max_price := np_max (high b) (high <$> w) in
           let min_price := np_min (low b) (low <$> w) in
           if feqb min_price f0 then f0
           else ((max_price - min_price) / (min_price / f100))%f64
       end)
  ∧ (∀ (nm : option string) (pre : list (Qc * Qc)) (p0 : Qc * Qc)
       (w : list (Qc * Qc)),
       ∃ M m : Qc,
         (M ∈ fst <$> p0 :: w ∧ ∀ x, x ∈ fst <$> p0 :: w → (x ≤ M)%Qc)
         ∧ (m ∈ snd <$> p0 :: w ∧ ∀ x, x ∈ snd <$> p0 :: w → (m ≤ x)%Qc)
         ∧ VolatilityCalculator_calculate (ops := exact_ops)
             (Feed (ops := exact_ops) nm (exact_bar <$> pre ++ p0 :: w))
             (Z.of_nat (S (length w)))
           = if decide (m = 0%Qc) then Fin 0%Qc
             else Fin ((M - m) / (m / Qc_of_Z 100))%Qc)
  ∧ VolatilityCalculator_calculate (ops := exact_ops)
      (Feed (ops := exact_ops) None
         [MkBar (ops := exact_ops) (exq 110) (exq 90) (exq 100);
          MkBar (ops := exact_ops) (exq 120) (exq 95) (exq 100);
          MkBar (ops := exact_ops) (exq 100) (exq 80) (exq 100)]) 3
    = exq 50
  ∧ VolatilityCalculator_calculate (ops := b64_ops)
      (Feed (ops := b64_ops) None
         [MkBar (ops := b64_ops) 110%float 90%float 100%float;
          MkBar (ops := b64_ops) 120%float 95%float 100%float;
          MkBar (ops := b64_ops) 100%float 80%float 100%float]) 3
    = 50%float.
Proof.
  split_and!.
  - intros ops data period. apply gauge_general.
  - apply gauge_exact.
  - compute_done.
  - vm_compute. reflexivity.
Qed.

(** ** The assignment loop *)

Section Assignment.
Context {ops : Float64Ops}.

Lemma ranked_snoc (l : list Source) (x : Source) :
  ranked (l ++ [x]) = ranked l ++ [((Z.of_nat (length l) + 1)%Z, x)].
Proof.
  unfold ranked. rewrite imap_app. simpl. do 4 f_equal. lia.
Qed.

Lemma members_snoc (k : Z) (limit1 limit2 : F) (l : list Source)
    (x : Source) :
  members k limit1 limit2 (l ++ [x])
  = members k limit1 limit2 l
    ++ (if decide (bucket limit1 limit2 (Z.of_nat (length l) + 1) = k)
        then [x] else []).
Proof.
  unfold members. rewrite ranked_snoc, filter_app, fmap_app. f_equal.
  rewrite filter_cons, filter_nil. simpl. by case_decide.
Qed.

Lemma dict_add_snoc (l : list Source) (x : Source)
    (d : gmap string Source) :
  dict_add (l ++ [x]) d = <[src_name x := x]> (dict_add l d).
Proof. unfold dict_add. by rewrite foldl_app. Qed.

(** After [m] rounds of the loop, the clusters hold the first [m] sources,
    each in the cluster of its rank. *)
Lemma assign_loop (sources : list Source) (limit1 limit2 : F)
    (self : VolatilityStageClusters) (m : nat) :
  m ≤ length sources →
  for_each (assign_body sources limit1 limit2)
    (py_range 0 (Z.of_nat m)) self
  = Some (Clusters
            (dict_add (members 1 limit1 limit2 (take m sources))
               (cluster_one self))
            (dict_add (members 2 limit1 limit2 (take m sources))
               (cluster_two self))
            (dict_add (members 3 limit1 limit2 (take m sources))
               (cluster_three self))
            (cluster_one_full self
               ++ members 1 limit1 limit2 (take m sources))
            (cluster_two_full self
               ++ members 2 limit1 limit2 (take m sources))
            (cluster_three_full self
               ++ members 3 limit1 limit2 (take m sources))
            (one_lot self) (length_ self) (cluster_one_percent self)
            (cluster_two_percent self) (cluster_three_percent self)).
Proof.
  induction m as [|m IH]; intros Hm.
  - simpl. unfold members, dict_add. simpl. rewrite !app_nil_r.
    by destruct self.
  - pose proof (py_range_snoc 0 m) as Hr. rewrite !Z.add_0_l in Hr.
    rewrite Hr, for_each_app, IH by lia. simpl.
    destruct (lookup_lt_is_Some_2 sources m) as [x Hx]; [lia|].
    rewrite (take_S_r _ _ _ Hx). unfold assign_body. rewrite Nat2Z.id, Hx.
    rewrite !members_snoc, length_take.
    replace (m `min` length sources) with m by lia.
    unfold bucket. simpl.
    destruct (fleb (of_Z (Z.of_nat m + 1)) limit1);
      [|destruct (fleb (of_Z (Z.of_nat m + 1)) limit2)];
      simpl; rewrite ?dict_add_snoc, ?app_nil_r, ?app_assoc; done.
Qed.

End Assignment.

(** ** The sort *)

Section ListSort.
Context {ops : Float64Ops}.

Lemma sort_insert_perm (x : Source) (l : list Source) :
  sort_insert src_volatility x l ≡ₚ x :: l.
Proof.
  induction l as [|y l IH]; simpl; [done|].
  destruct (fltb _ _); [done|]. rewrite IH. apply Permutation_swap.
Qed.

Lemma sort_fold_perm (l acc : list Source) :
  foldl (λ acc x, sort_insert src_volatility x acc) acc l ≡ₚ acc ++ l.
Proof.
  revert acc. induction l as [|x l IH]; intros acc; simpl.
  - by rewrite app_nil_r.
  - rewrite IH, sort_insert_perm. by rewrite <- Permutation_middle.
Qed.

Lemma list_sort_perm (l : list Source) :
  list_sort src_volatility l ≡ₚ l.
Proof. apply (sort_fold_perm l []). Qed.

(** The comparison [<] is a strict weak order on the volatilities that
    satisfy [P] (the finite ones, in the arithmetics at hand). *)
Variable P : F → Prop.
Hypothesis lt_asym :
  ∀ a b, P a → P b → fltb a b = true → fltb b a = false.
Hypothesis ge_trans :
  ∀ a b c, P a → P b → P c →
           fltb b a = false → fltb c b = false → fltb c a = false.

Let good (s : Source) : Prop := P (src_volatility s).

Lemma sort_insert_sorted (x : Source) (l : list Source) :
  good x → Forall good l → StronglySorted ascending l →
  StronglySorted ascending (sort_insert src_volatility x l).
Proof using lt_asym ge_trans.
  intros Hx Hl Hs. induction l as [|y l IH]; simpl.
  - repeat constructor.
  - apply Forall_cons in Hl as [Hy Hl].
    apply StronglySorted_inv in Hs as [Hs Hyl].
    destruct (fltb (src_volatility x) (src_volatility y)) eqn:E.
    + assert (ascending x y) as Hxy by (by apply lt_asym).
      constructor; [by constructor|]. constructor; [done|].
      rewrite Forall_forall in Hyl, Hl |- *. intros z Hz.
      apply (ge_trans (src_volatility x) (src_volatility y));
        [apply Hx|apply Hy|by apply Hl|apply Hxy|by apply Hyl].
    + constructor; [by apply IH|].
      rewrite sort_insert_perm. by constructor.
Qed.

Lemma sort_fold_sorted (l acc : list Source) :
  Forall good acc → Forall good l → StronglySorted ascending acc →
  StronglySorted ascending
    (foldl (λ acc x, sort_insert src_volatility x acc) acc l).
Proof using lt_asym ge_trans.
  revert acc. induction l as [|x l IH]; intros acc Ha Hl Hs; simpl; [done|].
  apply Forall_cons in Hl as [Hx Hl].
  apply IH; [|done|by apply sort_insert_sorted].
  rewrite sort_insert_perm. by constructor.
Qed.

Lemma list_sort_sorted (l : list Source) :
  Forall good l → StronglySorted ascending (list_sort src_volatility l).
Proof using lt_asym ge_trans.
  intros Hl. apply sort_fold_sorted; [constructor|done|constructor].
Qed.

(** An element tied with [a] is inserted after every element tied with
    [a] that is already there. *)
Lemma sort_insert_tied (a x : Source) (l : list Source) :
  good a → good x → Forall good l → StronglySorted ascending l →
  filter (λ b, tied a b) (sort_insert src_volatility x l)
  = filter (λ b, tied a b) l ++ (if tied a x then [x] else []).
Proof using lt_asym ge_trans.
  intros Ha Hx Hl Hs. induction l as [|y l IH]; simpl.
  - rewrite filter_cons, filter_nil. by destruct (tied a x).
  - apply Forall_cons in Hl as [Hy Hl].
    apply StronglySorted_inv in Hs as [Hs Hyl].
    destruct (fltb (src_volatility x) (src_volatility y)) eqn:E.
    + rewrite (filter_cons _ x).
      destruct (tied a x) eqn:Et;
        [|rewrite decide_False, app_nil_r; [done|by intros []]].
      rewrite decide_True by done.
      assert (∀ z, good z → ascending y z → ¬ tied a z) as Hno.
      { intros z Hz Hyz Htz. unfold tied, ascending in *.
        apply andb_prop in Et as [Eax Exa].
        apply andb_prop_elim in Htz as [Eaz Eza].
        apply negb_true_iff in Eax, Exa.
        apply negb_prop_elim, Is_true_false_1 in Eaz.
        assert (fltb (src_volatility x) (src_volatility z) = false) as Exz
          by (apply (ge_trans _ (src_volatility a)); auto).
        assert (fltb (src_volatility x) (src_volatility y) = false)
          by (apply (ge_trans _ (src_volatility z)); auto).
        congruence. }
      assert (ascending y y) as Hyy.
      { unfold ascending.
        destruct (fltb (src_volatility y) (src_volatility y)) eqn:Ey;
          [|done]. rewrite <- Ey at 1. by apply lt_asym. }
      assert (filter (λ b, tied a b) (y :: l) = []) as ->; [|done].
      apply elem_of_nil_inv. intros z Hz.
      apply list_elem_of_filter in Hz as [Htz Hz].
      apply elem_of_cons in Hz as [->|Hz]; [by apply (Hno y)|].
      rewrite Forall_forall in Hl, Hyl. apply (Hno z); auto.
    + rewrite !(filter_cons _ y), IH by done. by case_decide.
Qed.

Lemma sort_fold_tied (a : Source) (l acc : list Source) :
  good a → Forall good acc → Forall good l →
  StronglySorted ascending acc →
  filter (λ b, tied a b)
    (foldl (λ acc x, sort_insert src_volatility x acc) acc l)
  = filter (λ b, tied a b) (acc ++ l).
Proof using lt_asym ge_trans.
  intros Ha. revert acc.
  induction l as [|x l IH]; intros acc Hacc Hl Hs; simpl.
  - by rewrite app_nil_r.
  - apply Forall_cons in Hl as [Hx Hl].
    rewrite IH; [|rewrite sort_insert_perm; by constructor|done
                 |by apply sort_insert_sorted].
    rewrite !filter_app, sort_insert_tied, filter_cons by done.
    rewrite <- app_assoc. f_equal. by case_decide as Ht; destruct (tied a x).
Qed.

(** Sources with tied volatilities keep their input order. *)
Lemma list_sort_stable (a : Source) (l : list Source) :
  good a → Forall good l →
  filter (λ b, tied a b) (list_sort src_volatility l)
  = filter (λ b, tied a b) l.
Proof using lt_asym ge_trans.
  intros Ha Hl. apply (sort_fold_tied a l []); by try constructor.
Qed.


End ListSort.

Lemma exact_lt_asym (a b : exact) :
  finite a → finite b →
  fltb (Float64Ops := exact_ops) a b = true →
  fltb (Float64Ops := exact_ops) b a = false.
Proof.
  destruct a as [p|], b as [q|]; try done. intros _ _.
  simpl. unfold Exact.ltb. intros H.
  apply bool_decide_eq_true_1 in H. apply bool_decide_eq_false_2.
  revert H. clear. intros. qc_lra.
Qed.

Lemma exact_ge_trans (a b c : exact) :
  finite a → finite b → finite c →
  fltb (Float64Ops := exact_ops) b a = false →
  fltb (Float64Ops := exact_ops) c b = false →
  fltb (Float64Ops := exact_ops) c a = false.
Proof.
  destruct a as [p|], b as [q|], c as [r|]; try done. intros _ _ _.
  simpl. unfold Exact.ltb. intros H1 H2.
  apply bool_decide_eq_false_1 in H1, H2. apply bool_decide_eq_false_2.
  revert H1 H2. clear. intros. qc_lra.
Qed.

(** ** The ranking *)

Section RankingFacts.
Context {ops : Float64Ops}.

Lemma bucket_cases (limit1 limit2 : F) (r : Z) :
  bucket limit1 limit2 r = 1%Z ∨ bucket limit1 limit2 r = 2%Z
  ∨ bucket limit1 limit2 r = 3%Z.
Proof. unfold bucket. repeat destruct (fleb _ _); auto. Qed.

Lemma ranked_snd (sources : list Source) : snd <$> ranked sources = sources.
Proof.
  induction sources as [|x l IH] using rev_ind; [done|].
  rewrite ranked_snoc, fmap_app, IH. done.
Qed.

(** Every ranked source is in the list of exactly one cluster. *)
Lemma members_partition (limit1 limit2 : F) (sources : list Source) :
  members 1 limit1 limit2 sources ++ members 2 limit1 limit2 sources
    ++ members 3 limit1 limit2 sources ≡ₚ sources.
Proof.
  induction sources as [|x l IH] using rev_ind; [done|].
  rewrite !members_snoc.
  etrans; [|apply Permutation_app_tail, IH].
  destruct (bucket_cases limit1 limit2 (Z.of_nat (length l) + 1))
    as [-> | [-> | ->]]; simpl; rewrite ?app_nil_r, <- ?app_assoc.
  - apply Permutation_app_head.
    rewrite (app_assoc (members 2 limit1 limit2 l)).
    apply (Permutation_app_comm [x]).
  - do 2 apply Permutation_app_head. apply (Permutation_app_comm [x]).
  - done.
Qed.

End RankingFacts.

(** C4.  With at least two eligible instruments [calculate] raises nothing
    and leaves the clusters as follows.  The eligible instruments are
    sorted by volatility (a permutation of the input; ascending, and with
    tied instruments in input order, wherever [<] is a strict weak order on
    the volatilities, as it is on numbers); [one_lot] is count/100, the
    limits are [p1 * one_lot] and [(p1 + p2) * one_lot]; the instrument of
    1-based rank r is appended to the list, and stored under its name in the
    mapping, of Cluster1 when [r <= limit1], of Cluster2 when not but
    [r <= limit2], and of Cluster3 otherwise, so that each rank is in
    exactly one cluster.  For the ten sample instruments of volatilities
    1, ..., 10 and the split 33/33/34, ranks 1-3 are in Cluster1, 4-6 in
    Cluster2 and 7-10 in Cluster3, and each instrument answers True for
    exactly one cluster, in exact arithmetic and in binary64. *)
Theorem cluster_ranking {ops : Float64Ops} (P : F → Prop)
    (self : VolatilityStageClusters) (data_feeds : list DataFeed) :
  let sources :=
    source_of (length_ self)
      <$> filter (λ d, eligible (length_ self) d) data_feeds in
  let sorted := list_sort src_volatility sources in
  let lot := (of_Z (Z.of_nat (length sources)) / f100)%f64 in
  let limit1 := (cluster_one_percent self * lot)%f64 in
  let limit2 :=
    ((cluster_one_percent self + cluster_two_percent self) * lot)%f64 in
  2 ≤ length sources →
  (∀ a b, P a → P b → fltb a b = true → fltb b a = false) →
  (∀ a b c, P a → P b → P c →
            fltb b a = false → fltb c b = false → fltb c a = false) →
  Forall (λ s, P (src_volatility s)) sources →
  calculate self data_feeds
  = (Clusters
       (dict_add (members 1 limit1 limit2 sorted) ∅)
       (dict_add (members 2 limit1 limit2 sorted) ∅)
       (dict_add (members 3 limit1 limit2 sorted) ∅)
       (members 1 limit1 limit2 sorted)
       (members 2 limit1 limit2 sorted)
       (members 3 limit1 limit2 sorted)
       lot (length_ self) (cluster_one_percent self)
       (cluster_two_percent self) (cluster_three_percent self), None)
  ∧ sorted ≡ₚ sources
  ∧ StronglySorted ascending sorted
  ∧ (∀ a, P (src_volatility a) →
          filter (λ b, tied a b) sorted = filter (λ b, tied a b) sources)
  ∧ members 1 limit1 limit2 sorted ++ members 2 limit1 limit2 sorted
      ++ members 3 limit1 limit2 sorted ≡ₚ sorted
  ∧ (let r := (calculate Sample.clusters Sample.feeds10).1 in
     src_name <$> cluster_one_full r = ["a"; "b"; "c"]
     ∧ src_name <$> cluster_two_full r = ["d"; "e"; "f"]
     ∧ src_name <$> cluster_three_full r = ["g"; "h"; "i"; "j"]
     ∧ (λ d, (is_in_cluster r d 1, is_in_cluster r d 2, is_in_cluster r d 3))
         <$> Sample.feeds10
       = replicate 3 (inr true, inr false, inr false)
         ++ replicate 3 (inr false, inr true, inr false)
         ++ replicate 4 (inr false, inr false, inr true))
  ∧ (let r := (calculate Sample.clusters64 Sample.feeds10_64).1 in
     src_name <$> cluster_one_full r = ["a"; "b"; "c"]
     ∧ src_name <$> cluster_two_full r = ["d"; "e"; "f"]
     ∧ src_name <$> cluster_three_full r = ["g"; "h"; "i"; "j"]
     ∧ (λ d, (is_in_cluster r d 1, is_in_cluster r d 2, is_in_cluster r d 3))
         <$> Sample.feeds10_64
       = replicate 3 (inr true, inr false, inr false)
         ++ replicate 3 (inr false, inr true, inr false)
         ++ replicate 4 (inr false, inr false, inr true)).
Proof.
  intros sources sorted lot limit1 limit2 Hcount Hasym Htrans Hgood.
  assert (sorted ≡ₚ sources) as Hperm by apply list_sort_perm.
  assert (length sorted = length sources) as Hlen by by rewrite Hperm.
  split_and!.
  - unfold calculate, _calculate_clusters.
    destruct data_feeds as [|d ds]; [simpl in Hcount; lia|].
    rewrite collect_sources_filter.
    change (length_ (clear_clusters self)) with (length_ self).
    fold sources. rewrite decide_False by lia. fold sorted.
    rewrite assign_loop by lia. rewrite take_ge by lia.
    simpl. rewrite Hlen. done.
  - done.
  - by apply (list_sort_sorted P).
  - intros a Ha. by apply (list_sort_stable P).
  - apply members_partition.
  - vm_compute. done.
  - vm_compute. done.
Qed.

Lemma cluster_ranking_witness :
  let self := Sample.clusters in
  let data_feeds := Sample.feeds10 in
  let sources :=
    source_of (length_ self)
      <$> filter (λ d, eligible (length_ self) d) data_feeds in
  let sorted := list_sort src_volatility sources in
  let lot := (of_Z (Z.of_nat (length sources)) / f100)%f64 in
  let limit1 := (cluster_one_percent self * lot)%f64 in
  let limit2 :=
    ((cluster_one_percent self + cluster_two_percent self) * lot)%f64 in
  2 ≤ length sources
  ∧ Forall (λ s, finite (src_volatility s)) sources
  ∧ calculate self data_feeds
    = (Clusters
         (dict_add (members 1 limit1 limit2 sorted) ∅)
         (dict_add (members 2 limit1 limit2 sorted) ∅)
         (dict_add (members 3 limit1 limit2 sorted) ∅)
         (members 1 limit1 limit2 sorted)
         (members 2 limit1 limit2 sorted)
         (members 3 limit1 limit2 sorted)
         lot (length_ self) (cluster_one_percent self)
         (cluster_two_percent self) (cluster_three_percent self), None)
  ∧ sorted ≡ₚ sources
  ∧ StronglySorted ascending sorted
  ∧ (∀ a, finite (src_volatility a) →
          filter (λ b, tied a b) sorted = filter (λ b, tied a b) sources)
  ∧ members 1 limit1 limit2 sorted ++ members 2 limit1 limit2 sorted
      ++ members 3 limit1 limit2 sorted ≡ₚ sorted.
Proof.
  intros self data_feeds sources sorted lot limit1 limit2.
  assert (2 ≤ length sources) as Hcount by (vm_compute; lia).
  assert (Forall (λ s, finite (src_volatility s)) sources) as Hfin.
  { apply (bool_decide_unpack _). vm_compute. exact I. }
  split; [exact Hcount|]. split; [exact Hfin|].
  destruct (cluster_ranking (ops := exact_ops) finite self data_feeds
              Hcount exact_lt_asym exact_ge_trans Hfin)
    as (H1 & H2 & H3 & H4 & H5 & _).
  exact (conj H1 (conj H2 (conj H3 (conj H4 H5)))).
Defined.

(** ** The estimator in exact arithmetic *)

Section ExactEstimator.
Local Open Scope Qc_scope.

Lemma Qc_of_Z_nonzero (z : Z) : z ≠ 0%Z → Qc_of_Z z ≠ 0.
Proof. intros Hz H. apply Hz, Z2Qc_inj. by rewrite H, Z2Qc_inj_0. Qed.

Lemma sums_fin_eq (a b c d a' b' c' d' : Qc) :
  a = a' → b = b' → c = c' → d = d' →
  Some (Sums (ops := exact_ops) (Fin a) (Fin b) (Fin c) (Fin d))
  = Some (Sums (ops := exact_ops) (Fin a') (Fin b') (Fin c') (Fin d')).
Proof. by intros -> -> -> ->. Qed.

Lemma sample_lookup (ys : list Qc) (i : nat) :
  (i < length ys)%nat → (Fin <$> ys) !! i = Some (Fin (Spec.sample ys i)).
Proof.
  intros Hi. destruct (lookup_lt_is_Some_2 ys i Hi) as [y Hy].
  unfold Spec.sample. by rewrite list_lookup_fmap, Hy.
Qed.

(** With no rounding the compensation terms stay zero and the two
    accumulators are the plain sums. *)
Lemma sums_loop_exact (ys : list Qc) (n : nat) :
  (n ≤ length ys)%nat →
  for_each (sums_body (ops := exact_ops) (Fin <$> ys))
    (py_range 0 (Z.of_nat n)) (Sums f0 f0 f0 f0)
  = Some (Sums (ops := exact_ops)
            (Fin (Spec.bigsum (Spec.sample ys) n)) (Fin 0)
            (Fin (Spec.bigsum (λ i, Spec.sample ys i * Spec.pos i) n))
            (Fin 0)).
Proof.
  rewrite f0_exact. induction n as [|n IH]; intros Hn; [reflexivity|].
  pose proof (py_range_snoc 0 n) as Hr. rewrite !Z.add_0_l in Hr.
  rewrite Hr, for_each_app, IH by lia.
  cbn [mbind option_bind for_each]. unfold sums_body.
  rewrite Nat2Z.id, sample_lookup by lia.
  cbn [sumy sumy_c sumxy sumxy_c fadd fsub fmul of_Z exact_ops Exact.lift2
       Spec.bigsum].
  apply sums_fin_eq; unfold Spec.pos; ring.
Qed.


Lemma mad_loop_exact (ys : list Qc) (a b : Qc) (n : nat) :
  (n ≤ length ys)%nat →
  for_each (mad_body (ops := exact_ops) (Fin <$> ys) (Fin a) (Fin b))
    (py_range 0 (Z.of_nat n)) (f0, f0)
  = Some (Fin (Spec.bigsum
                 (λ i, Exact.qabs (Spec.sample ys i - (a + b * Spec.pos i)))
                 n), Fin 0).
Proof.
  rewrite f0_exact. induction n as [|n IH]; intros Hn; [reflexivity|].
  pose proof (py_range_snoc 0 n) as Hr. rewrite !Z.add_0_l in Hr.
  rewrite Hr, for_each_app, IH by lia.
  cbn [mbind option_bind for_each]. unfold mad_body.
  rewrite Nat2Z.id, sample_lookup by lia.
  cbn [fadd fsub fmul fabs of_Z exact_ops Exact.lift2 Exact.abs Spec.bigsum].
  fold (Spec.pos n). do 2 f_equal; f_equal; ring.
Qed.

Lemma sumx_exact (N : Z) :
  (of_Z (Float64Ops := exact_ops) (N * (N - 1)) / f2)%f64
  = Fin (Spec.sumx N).
Proof.
  unfold f2. cbn [fdiv of_Z exact_ops]. by rewrite exact_div_fin.
Qed.

Lemma sumx2_exact (N : Z) :
  (of_Z (Float64Ops := exact_ops) ((N - 1) * N * (2 * N - 1)) / f6)%f64
  = Fin (Spec.sumx2 N).
Proof.
  unfold f6. cbn [fdiv of_Z exact_ops]. by rewrite exact_div_fin.
Qed.

Lemma denominator_exact (N : Z) :
  (0 ≤ N ≤ max_period)%Z →
  denominator (ops := exact_ops) N = Fin (Spec.denom N).
Proof.
  intros HN. unfold denominator.
  destruct (period_products_fit N HN) as (_ & E2 & E3). rewrite E2, E3.
  by rewrite sumx_exact, sumx2_exact.
Qed.

(** [c = N^2 (N^2 - 1) / 12] *)
Lemma denom_closed (N : Z) :
  Spec.denom N = Qc_of_Z (N * N * (N * N - 1)) / Qc_of_Z 12.
Proof.
  unfold Spec.denom, Spec.sumx, Spec.sumx2.
  apply Qc_is_canon. qc_norm. unfold Z.sub.
  rewrite ?inject_Z_mult, ?inject_Z_plus, ?inject_Z_opp, ?inject_Z_mult.
  generalize (inject_Z N). intros q. unfold inject_Z. field.
Qed.

Lemma denom_ge_1 (N : Z) : (2 ≤ N)%Z → 1 ≤ Spec.denom N.
Proof.
  intros HN. rewrite denom_closed.
  assert (12 ≤ N * N * (N * N - 1))%Z as H by nia.
  apply (Z2Qc_inj_le 12) in H. revert H.
  generalize (Qc_of_Z (N * N * (N * N - 1))). intros c Hc. qc_lra.
Qed.

Lemma f1e_10_exact :
  f1e_10 (ops := exact_ops) = Fin (Qc_of_Z 1 / Qc_of_Z (10 ^ 10)).
Proof. unfold f1e_10. cbn [fdiv of_Z exact_ops]. by rewrite exact_div_fin. Qed.

(** The guard [abs(c) < 1e-10] is false from period 2 on. *)
Lemma guard_false (N : Z) :
  (2 ≤ N)%Z →
  fltb (Float64Ops := exact_ops) (fabs (Fin (Spec.denom N))) f1e_10 = false.
Proof.
  intros HN. pose proof (denom_ge_1 N HN) as Hc. rewrite f1e_10_exact.
  cbn [fltb fabs exact_ops Exact.abs Exact.cmp2].
  unfold Exact.ltb, Exact.qabs. apply bool_decide_eq_false_2.
  revert Hc. generalize (Spec.denom N). intros c Hc.
  case_decide as Hneg; revert Hneg; qc_lra.
Qed.

End ExactEstimator.

(** The estimator on a window of numbers, without rounding: with [sx] and
    [sx2] the values the code has for [sumx] and [sumx2], and a guard that
    does not fire, it returns the value at the last position of the line
    these sums give and the mean absolute deviation around that line. *)
Lemma estimator_exact_gen (ys : list Qc) (sx sx2 : Qc) :
  let N := Z.of_nat (length ys) in
  let c := (sx2 * Qc_of_Z N - sx * sx)%Qc in
  let b := ((Spec.sumxy ys * Qc_of_Z N - sx * Spec.sumy ys) / c)%Qc in
  let a := ((Spec.sumy ys - sx * b) / Qc_of_Z N)%Qc in
  1 ≤ length ys →
  (of_Z (Float64Ops := exact_ops) (int64 (N * int64 (N - 1))) / f2)%f64
  = Fin sx →
  (of_Z (Float64Ops := exact_ops)
     (int64 (int64 (int64 (N - 1) * N) * int64 (int64 (2 * N) - 1)))
   / f6)%f64 = Fin sx2 →
  fltb (Float64Ops := exact_ops) (fabs (Fin c)) f1e_10 = false →
  c ≠ 0%Qc →
  compute_linear_regression_mad_numba (ops := exact_ops) (Fin <$> ys) N
  = Some (Fin (a + b * Qc_of_Z (int64 (N - 1)))%Qc,
          Fin (Spec.bigsum
                 (λ i, Exact.qabs (Spec.sample ys i - (a + b * Spec.pos i))%Qc)
                 (length ys)
               / Qc_of_Z N)%Qc).
Proof.
  intros N c b a HN Hsx Hsx2 Hguard Hc0.
  unfold compute_linear_regression_mad_numba.
  fold N. rewrite Hsx, Hsx2.
  unfold N at 1. rewrite sums_loop_exact by lia. fold N.
  cbn [sumy sumxy].
  assert ((Fin sx2 * of_Z N - Fin sx * Fin sx)%f64 = Fin c) as ->
    by reflexivity.
  rewrite Hguard.
  assert (Qc_of_Z N ≠ 0%Qc) as HN0 by (apply Qc_of_Z_nonzero; lia).
  cbn [fadd fsub fmul fdiv of_Z exact_ops Exact.lift2].
  rewrite (exact_div_fin _ c) by done.
  cbn [Exact.lift2].
  rewrite (exact_div_fin _ (Qc_of_Z N)) by done.
  change (py_range 0 N) with (py_range 0 (Z.of_nat (length ys))).
  rewrite mad_loop_exact by lia.
  rewrite (exact_div_fin _ (Qc_of_Z N)) by done.
  cbn [Exact.lift2]. reflexivity.
Qed.

(** On a window of exactly [N] numbers, [2 <= N <= max_period], the
    estimator returns the fitted value at the last position and the mean
    absolute deviation, the sums being the plain sums. *)
Lemma estimator_exact (ys : list Qc) :
  2 ≤ length ys →
  (Z.of_nat (length ys) ≤ max_period)%Z →
  compute_linear_regression_mad_numba (ops := exact_ops)
    (Fin <$> ys) (Z.of_nat (length ys))
  = Some (Fin (Spec.regression_at ys (length ys - 1)), Fin (Spec.mad ys)).
Proof.
  intros HN Hmax. set (N := Z.of_nat (length ys)).
  assert (2 ≤ N)%Z as HN' by lia.
  destruct (period_products_fit N ltac:(lia)) as (E1 & E2 & E3).
  pose proof (denom_ge_1 N HN') as Hc.
  assert (Spec.denom N ≠ 0%Qc) as Hc0.
  { intros H0. rewrite H0 in Hc. revert Hc. clear. intros. qc_lra. }
  pose proof (estimator_exact_gen ys (Spec.sumx N) (Spec.sumx2 N)) as H.
  cbv zeta in H. fold N in H. rewrite E2, E3, E1 in H.
  rewrite H; [|lia|apply sumx_exact|apply sumx2_exact
              |by apply guard_false|done].
  unfold Spec.regression_at, Spec.mad, Spec.intercept, Spec.slope,
    Spec.sumy, Spec.sumxy, Spec.pos, Spec.denom. fold N.
  replace (Z.of_nat (length ys - 1)) with (N - 1)%Z by lia.
  reflexivity.
Qed.

(** ** Sums over positions *)

Section PositionSums.
Local Open Scope Qc_scope.

Lemma bigsum_ext (f g : nat → Qc) (n : nat) :
  (∀ i, (i < n)%nat → f i = g i) → Spec.bigsum f n = Spec.bigsum g n.
Proof.
  induction n as [|n IH]; intros H; simpl; [done|].
  rewrite IH, H by (intros; auto with lia). done.
Qed.

Lemma bigsum_linear (f g : nat → Qc) (m k : Qc) (n : nat) :
  Spec.bigsum (λ i, m * f i + k * g i) n
  = m * Spec.bigsum f n + k * Spec.bigsum g n.
Proof. induction n as [|n IH]; simpl; [|rewrite IH]; ring. Qed.

Lemma bigsum_zero (n : nat) : Spec.bigsum (λ _, 0) n = 0.
Proof. induction n as [|n IH]; simpl; [|rewrite IH]; ring. Qed.

Lemma pos_succ (n : nat) : Spec.pos (S n) = Spec.pos n + 1.
Proof.
  unfold Spec.pos. by rewrite Nat2Z.inj_succ, <- Z.add_1_r, Z2Qc_inj_add,
    Z2Qc_inj_1.
Qed.

Lemma bigsum_one (n : nat) : Spec.bigsum (λ _, 1) n = Spec.pos n.
Proof.
  induction n as [|n IH]; simpl.
  - symmetry. apply Z2Qc_inj_0.
  - by rewrite IH, pos_succ.
Qed.

(** The closed forms are the sums of the positions and of their squares. *)
Lemma sumx_succ (z : Z) :
  Spec.sumx (Z.succ z) = Spec.sumx z + Qc_of_Z z.
Proof.
  unfold Spec.sumx. apply Qc_is_canon. qc_norm. unfold Z.succ, Z.sub.
  repeat (rewrite inject_Z_mult || rewrite inject_Z_plus
          || rewrite inject_Z_opp).
  generalize (inject_Z z). intros q. unfold inject_Z. field.
Qed.

Lemma sumx2_succ (z : Z) :
  Spec.sumx2 (Z.succ z) = Spec.sumx2 z + Qc_of_Z z * Qc_of_Z z.
Proof.
  unfold Spec.sumx2. apply Qc_is_canon. qc_norm. unfold Z.succ, Z.sub.
  repeat (rewrite inject_Z_mult || rewrite inject_Z_plus
          || rewrite inject_Z_opp).
  generalize (inject_Z z). intros q. unfold inject_Z. field.
Qed.

Lemma sumx_is_sum (n : nat) :
  Spec.sumx (Z.of_nat n) = Spec.bigsum Spec.pos n.
Proof.
  induction n as [|n IH]; [by apply Qc_is_canon|].
  simpl Spec.bigsum. by rewrite Nat2Z.inj_succ, sumx_succ, IH.
Qed.

Lemma sumx2_is_sum (n : nat) :
  Spec.sumx2 (Z.of_nat n) = Spec.bigsum (λ i, Spec.pos i * Spec.pos i) n.
Proof.
  induction n as [|n IH]; [by apply Qc_is_canon|].
  simpl Spec.bigsum. by rewrite Nat2Z.inj_succ, sumx2_succ, IH.
Qed.

End PositionSums.

(** ** The fit of a window *)

(** The claim C5 as stated fails in three ways.  For a window of one
    sample the guard on the denominator fires and the estimator returns
    [(0, 0)], while the intercept [(sumy - sumx * b) / N] is 5 and
    [a + b * (N - 1)] is 5 for every slope [b].  For period
    [max_period + 1 = 1664512] the product [(N - 1) * N * (2 * N - 1)]
    exceeds [2^63] and wraps, and the denominator the code computes, even
    without rounding, is not [sumx2 * N - sumx^2] for the closed forms of
    [sumx] and [sumx2].  In binary64 the values returned are rounded: for
    the window [0, 0, 1] the formulas give the regression value [5/6] and
    the MAD [2/9], and the code returns neither. *)
Lemma single_sample_window_hits_guard :
  (compute_linear_regression_mad_numba (ops := exact_ops) [exq 5] 1
   = Some (exq 0, exq 0)
   ∧ Spec.denom 1 = 0%Qc
   ∧ ∀ b : Qc,
       let a := ((Spec.sumy [Qc_of_Z 5] - Spec.sumx 1 * b) / Qc_of_Z 1)%Qc in
       (a + b * Spec.pos 0)%Qc = Qc_of_Z 5 ∧ Qc_of_Z 5 ≠ Qc_of_Z 0)
  ∧ ((2 ^ 63 ≤ (1664512 - 1) * 1664512 * (2 * 1664512 - 1))%Z
     ∧ denominator (ops := exact_ops) 1664512
       ≠ Fin (Spec.sumx2 1664512 * Qc_of_Z 1664512
              - Spec.sumx 1664512 * Spec.sumx 1664512)%Qc)
  ∧ (∃ r d : float,
       compute_linear_regression_mad_numba (ops := b64_ops)
         [B64.of_Z 0; B64.of_Z 0; B64.of_Z 1] 3 = Some (r, d)
       ∧ Spec.regression_at [Qc_of_Z 0; Qc_of_Z 0; Qc_of_Z 1] 2
         = Q2Qc (5 # 6)
       ∧ Spec.mad [Qc_of_Z 0; Qc_of_Z 0; Qc_of_Z 1] = Q2Qc (2 # 9)
       ∧ b64_to_Qc r ≠ Some (Q2Qc (5 # 6))
       ∧ b64_to_Qc d ≠ Some (Q2Qc (2 # 9))).
Proof.
  split_and!.
  - compute_done.
  - by apply Qc_is_canon.
  - intros b a. split; [|by intros ?%Z2Qc_inj].
    subst a. apply Qc_is_canon. unfold Spec.sumy, Spec.sumx, Spec.pos.
    simpl Spec.bigsum. unfold Spec.sample. simpl.
    change (1 * (1 - 1))%Z with 0%Z. change (Z.of_nat 0) with 0%Z.
    generalize (this b). intros q. rewrite !Qred_correct. unfold inject_Z.
    field.
  - by vm_compute.
  - compute_done.
  - eexists _, _. split_and!; [vm_compute; reflexivity|compute_done..].
Qed.

(** C5, as amended.  For every window of exactly N samples at positions
    0..N-1, with [2 <= N <= max_period = 1664511] (the periods whose
    integer products fit 64 bits), computed without rounding:
    [sumx = N(N-1)/2] and
    [sumx2 = (N-1)N(2N-1)/6] are the sums of the positions and of their
    squares, whatever the data; with [sumy] and [sumxy] the sums of the
    samples and of the samples times their positions, the slope is
    [b = (sumxy*N - sumx*sumy)/c] with [c = sumx2*N - sumx^2], the intercept
    is [a = (sumy - sumx*b)/N]; the estimator returns [a + b*(N-1)] and the
    mean over i = 0..N-1 of [|sample[i] - (a + b*i)|]. *)
Theorem estimator_formulas (ys : list Qc) :
  2 ≤ length ys →
  (Z.of_nat (length ys) ≤ max_period)%Z →
  compute_linear_regression_mad_numba (ops := exact_ops)
    (Fin <$> ys) (Z.of_nat (length ys))
  = Some (Fin (Spec.regression_at ys (length ys - 1)), Fin (Spec.mad ys))
  ∧ Spec.sumx (Z.of_nat (length ys)) = Spec.bigsum Spec.pos (length ys)
  ∧ Spec.sumx2 (Z.of_nat (length ys))
    = Spec.bigsum (λ i, Spec.pos i * Spec.pos i)%Qc (length ys).
Proof.
  intros HN Hmax. split_and!.
  - by apply estimator_exact.
  - apply sumx_is_sum.
  - apply sumx2_is_sum.
Qed.

Lemma estimator_formulas_witness :
  2 ≤ length [Qc_of_Z 1; Qc_of_Z 2; Qc_of_Z 4]
  ∧ (Z.of_nat (length [Qc_of_Z 1; Qc_of_Z 2; Qc_of_Z 4]) ≤ max_period)%Z
  ∧ compute_linear_regression_mad_numba (ops := exact_ops)
      (Fin <$> [Qc_of_Z 1; Qc_of_Z 2; Qc_of_Z 4])
      (Z.of_nat (length [Qc_of_Z 1; Qc_of_Z 2; Qc_of_Z 4]))
    = Some (Fin (Spec.regression_at [Qc_of_Z 1; Qc_of_Z 2; Qc_of_Z 4]
                   (length [Qc_of_Z 1; Qc_of_Z 2; Qc_of_Z 4] - 1)),
            Fin (Spec.mad [Qc_of_Z 1; Qc_of_Z 2; Qc_of_Z 4])).
Proof.
  split; [simpl; lia|]. split; [compute_done|].
  apply (estimator_formulas [Qc_of_Z 1; Qc_of_Z 2; Qc_of_Z 4]);
    [simpl; lia|compute_done].
Defined.

(** ** Windows on a line *)

Section OnALine.
Local Open Scope Qc_scope.
Variables (m k : Qc) (N : nat).
Hypothesis HN : (2 ≤ N)%nat.

Lemma length_line : length (Spec.line m k N) = N.
Proof. unfold Spec.line. by rewrite length_fmap, length_seq. Qed.

Lemma sample_line (i : nat) :
  (i < N)%nat → Spec.sample (Spec.line m k N) i = m * Spec.pos i + k.
Proof.
  intros Hi. unfold Spec.sample, Spec.line.
  by rewrite list_lookup_fmap, lookup_seq_lt.
Qed.

Lemma sumy_line :
  Spec.sumy (Spec.line m k N)
  = m * Spec.sumx (Z.of_nat N) + k * Spec.pos N.
Proof.
  unfold Spec.sumy. rewrite length_line.
  rewrite (bigsum_ext _ (λ i, m * Spec.pos i + k * 1)).
  - by rewrite bigsum_linear, bigsum_one, sumx_is_sum.
  - intros i Hi. rewrite sample_line by done. ring.
Qed.

Lemma sumxy_line :
  Spec.sumxy (Spec.line m k N)
  = m * Spec.sumx2 (Z.of_nat N) + k * Spec.sumx (Z.of_nat N).
Proof.
  unfold Spec.sumxy. rewrite length_line.
  rewrite (bigsum_ext _ (λ i, m * (Spec.pos i * Spec.pos i) + k * Spec.pos i)).
  - by rewrite bigsum_linear, sumx_is_sum, sumx2_is_sum.
  - intros i Hi. rewrite sample_line by done. ring.
Qed.

Lemma denom_nonzero : Spec.denom (Z.of_nat N) ≠ 0.
Proof using HN.
  pose proof (denom_ge_1 (Z.of_nat N)) as Hc. intros H0.
  rewrite H0 in Hc. assert (2 ≤ Z.of_nat N)%Z as H2 by lia.
  specialize (Hc H2). revert Hc. clear. intros. qc_lra.
Qed.

Lemma pos_nonzero : Spec.pos N ≠ 0.
Proof using HN. apply Qc_of_Z_nonzero. lia. Qed.

(** The fitted line is the line the samples lie on. *)
Lemma slope_line : Spec.slope (Spec.line m k N) = m.
Proof using HN.
  unfold Spec.slope. rewrite length_line, sumy_line, sumxy_line.
  pose proof denom_nonzero as Hc. unfold Spec.denom in *.
  fold (Spec.pos N) in *. field. done.
Qed.

Lemma intercept_line : Spec.intercept (Spec.line m k N) = k.
Proof using HN.
  unfold Spec.intercept. rewrite slope_line, length_line, sumy_line.
  pose proof pos_nonzero as Hp. fold (Spec.pos N). field. done.
Qed.

Lemma regression_at_line (i : nat) :
  Spec.regression_at (Spec.line m k N) i = m * Spec.pos i + k.
Proof using HN.
  unfold Spec.regression_at. rewrite slope_line, intercept_line. ring.
Qed.

Lemma qabs_zero : Exact.qabs 0 = 0.
Proof. unfold Exact.qabs. by case_decide. Qed.

Lemma mad_line : Spec.mad (Spec.line m k N) = 0.
Proof using HN.
  unfold Spec.mad. rewrite length_line.
  rewrite (bigsum_ext _ (λ _, 0)).
  - rewrite bigsum_zero. pose proof pos_nonzero as Hp.
    fold (Spec.pos N). field. done.
  - intros i Hi. rewrite regression_at_line, sample_line by done.
    replace (m * Spec.pos i + k - (m * Spec.pos i + k)) with 0 by ring.
    apply qabs_zero.
Qed.

End OnALine.

(** Past [max_period] the line is not recovered, even without rounding: for
    period 1664512 the code's [sumx2] has wrapped, and on the window
    [0, 1, ..., 1664511] of the line [y = x] the value returned is not
    [1664511]. *)
Lemma wrapped_fit_misses_line :
  ∃ r d : Qc,
    compute_linear_regression_mad_numba (ops := exact_ops)
      (Fin <$> Spec.line (Qc_of_Z 1) (Qc_of_Z 0) (Z.to_nat 1664512))
      1664512
    = Some (Fin r, Fin d)
    ∧ r ≠ Qc_of_Z 1664511.
Proof.
  set (N := Z.to_nat 1664512).
  assert (Z.of_nat N = 1664512%Z) as HNZ by (unfold N; by rewrite Z2Nat.id).
  clearbody N.
  set (W := (- 9223357831482350080)%Z).
  assert (int64 (int64 (int64 (1664512 - 1) * 1664512)
                 * int64 (int64 (2 * 1664512) - 1)) = W) as HW
    by (by vm_compute).
  pose proof (estimator_exact_gen (Spec.line (Qc_of_Z 1) (Qc_of_Z 0) N)
                (Spec.sumx 1664512) (Qc_of_Z W / Qc_of_Z 6)%Qc) as H.
  cbv zeta in H. rewrite length_line, sumy_line, sumxy_line, HNZ, HW in H.
  unfold Spec.pos in *. rewrite HNZ in H.
  eexists _, _. split.
  - apply H.
    + lia.
    + rewrite !int64_small by (by vm_compute). apply sumx_exact.
    + unfold f6. cbn [fdiv of_Z exact_ops]. by rewrite exact_div_fin.
    + by vm_compute.
    + compute_done.
  - compute_done.
Qed.

(** The claim C8 as stated fails in two ways.  In binary64 the window of
    three samples equal to 0.1 lies on the line [y = 0 * x + 0.1], yet the
    estimator returns a regression value one unit in the last place above
    0.1 and a MAD of [2^-56], and with multipliers 2 the bands lie off the
    regression value.  And for period [max_period + 1 = 1664512], where the
    code's integer product for [sumx2] wraps, the value returned on the
    window [0, 1, ..., 1664511] of the line [y = x] is not [1664511], even
    without rounding. *)
Lemma constant_window_rounds_in_binary64 :
  (compute_linear_regression_mad_numba (ops := b64_ops)
     [b64_tenth; b64_tenth; b64_tenth] 3
   = Some (0x1.999999999999bp-4, 0x1p-56)%float
   ∧ PrimFloat.eqb 0x1.999999999999bp-4 b64_tenth = false
   ∧ PrimFloat.eqb 0x1p-56 0 = false
   ∧ ∃ pt, next (ops := b64_ops)
             (Channel (ops := b64_ops) 3 (B64.of_Z 2) (B64.of_Z 2))
             [b64_tenth; b64_tenth; b64_tenth] = Some pt
           ∧ PrimFloat.ltb (regression pt) (upperband pt) = true
           ∧ PrimFloat.ltb (lowerband pt) (regression pt) = true)
  ∧ (∃ r d : Qc,
       compute_linear_regression_mad_numba (ops := exact_ops)
         (Fin <$> Spec.line (Qc_of_Z 1) (Qc_of_Z 0) (Z.to_nat 1664512))
         1664512
       = Some (Fin r, Fin d)
       ∧ r ≠ Qc_of_Z 1664511).
Proof.
  split; [|exact wrapped_fit_misses_line].
  split_and!; [vm_compute; reflexivity..|].
  exists (Point (ops := b64_ops) 0x1.999999999999dp-4%float
            0x1.999999999999bp-4%float 0x1.9999999999999p-4%float).
  split_and!; vm_compute; reflexivity.
Qed.

(** C8, as amended.  Computed without rounding, for every period N with
    [2 <= N <= max_period = 1664511] and every window on a line
    [y = m*x + k] (constant series: [m = 0]), the fitted line is that line
    (slope [m], intercept [k]), the estimator returns [m*(N-1) + k] and a
    MAD of 0, and for any finite deviation multipliers the upper and the
    lower band are the regression value. *)
Theorem line_is_recovered (m k up down : Qc) (N : nat) :
  2 ≤ N →
  (Z.of_nat N ≤ max_period)%Z →
  Spec.slope (Spec.line m k N) = m
  ∧ Spec.intercept (Spec.line m k N) = k
  ∧ compute_linear_regression_mad_numba (ops := exact_ops)
      (Fin <$> Spec.line m k N) (Z.of_nat N)
    = Some (Fin (m * Spec.pos (N - 1) + k)%Qc, Fin 0%Qc)
  ∧ next (ops := exact_ops)
      (Channel (ops := exact_ops) (Z.of_nat N) (Fin up) (Fin down))
      (Fin <$> Spec.line m k N)
    = Some (Point (ops := exact_ops)
              (Fin (m * Spec.pos (N - 1) + k)%Qc)
              (Fin (m * Spec.pos (N - 1) + k)%Qc)
              (Fin (m * Spec.pos (N - 1) + k)%Qc)).
Proof.
  intros HN Hmax.
  assert (compute_linear_regression_mad_numba (ops := exact_ops)
            (Fin <$> Spec.line m k N) (Z.of_nat N)
          = Some (Fin (m * Spec.pos (N - 1) + k)%Qc, Fin 0%Qc)) as Hest.
  { pose proof (estimator_exact (Spec.line m k N)) as H.
    rewrite length_line, regression_at_line, mad_line in H by done.
    by apply H. }
  split_and!; [by apply slope_line|by apply intercept_line|done|].
  unfold next. cbn [period up_deviation down_deviation].
  assert (length (Fin <$> Spec.line m k N) = N) as Hlen
    by by rewrite length_fmap, length_line.
  cbn [F exact_ops]. rewrite line_get_full by (by rewrite Hlen).
  rewrite Hlen, Nat.sub_diag, drop_0, Hlen.
  rewrite Z.ltb_irrefl, Hest.
  cbn [fadd fsub fmul exact_ops Exact.lift2].
  do 2 f_equal; f_equal; ring.
Qed.

Lemma line_is_recovered_witness :
  2 ≤ 3
  ∧ (Z.of_nat 3 ≤ max_period)%Z
  ∧ Spec.slope (Spec.line (Qc_of_Z 2) (Qc_of_Z 1) 3) = Qc_of_Z 2
  ∧ Spec.intercept (Spec.line (Qc_of_Z 2) (Qc_of_Z 1) 3) = Qc_of_Z 1
  ∧ compute_linear_regression_mad_numba (ops := exact_ops)
      (Fin <$> Spec.line (Qc_of_Z 2) (Qc_of_Z 1) 3) (Z.of_nat 3)
    = Some (Fin (Qc_of_Z 2 * Spec.pos (3 - 1) + Qc_of_Z 1)%Qc, Fin 0%Qc).
Proof.
  split; [lia|]. split; [compute_done|].
  destruct (line_is_recovered (Qc_of_Z 2) (Qc_of_Z 1) (Qc_of_Z 2)
              (Qc_of_Z 2) 3) as (H1 & H2 & H3 & _); [lia|compute_done|].
  exact (conj H1 (conj H2 H3)).
Defined.

(** ** The guard on the denominator *)

Section Binary64Guard.

(** Below [2^63] the conversion of an integer to binary64 is the machine
    conversion. *)
Lemma of_Z_uint63 (z : Z) :
  (0 ≤ z < 2 ^ 63)%Z → B64.of_Z z = of_uint63 (Uint63.of_Z z).
Proof.
  intros Hz. unfold B64.of_Z.
  rewrite <- (SF2Prim_Prim2SF (of_uint63 (Uint63.of_Z z))).
  f_equal. rewrite of_uint63_spec. f_equal.
  rewrite Uint63.of_Z_spec. symmetry. apply Z.mod_small.
  change wB with (2 ^ 63)%Z. lia.
Qed.

Lemma uint63_products (n : Z) :
  (1 ≤ n ≤ max_period)%Z →
  ∀ i, i = Uint63.of_Z n →
  (i * (i - 1))%uint63 = Uint63.of_Z (n * (n - 1))
  ∧ ((i - 1) * i * (2 * i - 1))%uint63
    = Uint63.of_Z ((n - 1) * n * (2 * n - 1)).
Proof.
  unfold max_period. intros Hn i Hdef.
  assert (wB = 2 ^ 63)%Z as HwB by reflexivity.
  assert (Uint63.to_Z i = n) as Hi.
  { rewrite Hdef, Uint63.of_Z_spec. apply Z.mod_small. lia. }
  assert (Uint63.to_Z (i - 1)%uint63 = (n - 1)%Z) as Hi1.
  { rewrite Uint63.sub_spec, Hi. change (Uint63.to_Z 1%uint63) with 1%Z.
    apply Z.mod_small. lia. }
  assert (Uint63.to_Z (2 * i - 1)%uint63 = (2 * n - 1)%Z) as Hi2.
  { rewrite Uint63.sub_spec, Uint63.mul_spec, Hi.
    change (Uint63.to_Z 1%uint63) with 1%Z. change (Uint63.to_Z 2%uint63) with 2%Z.
    rewrite (Z.mod_small (2 * n)) by lia. apply Z.mod_small. lia. }
  assert (0 ≤ (n - 1) * n ≤ 1664510 * 1664511)%Z as H2 by nia.
  assert (0 ≤ (n - 1) * n * (2 * n - 1)
          ≤ 1664510 * 1664511 * (2 * 1664511 - 1))%Z as H3.
  { split; [apply Z.mul_nonneg_nonneg; nia|].
    apply Z.mul_le_mono_nonneg; nia. }
  split; apply Uint63.to_Z_inj.
  - rewrite Uint63.mul_spec, Hi, Hi1, Uint63.of_Z_spec.
    f_equal.
  - rewrite !Uint63.mul_spec, Hi, Hi1, Hi2, Uint63.of_Z_spec.
    rewrite (Z.mod_small ((n - 1) * n)) by lia. done.
Qed.

Lemma b64_guard_open_spec (count : N) (lo : Z) :
  (0 ≤ lo)%Z → (lo + Z.of_N count < 2 ^ 63)%Z →
  b64_guard_open count (Uint63.of_Z lo) = true →
  ∀ n, (lo ≤ n < lo + Z.of_N count)%Z → b64_guard (Uint63.of_Z n) = false.
Proof.
  intros Hlo. unfold b64_guard_open.
  induction count as [|count IH] using N.peano_ind; intros Hhi Hrun n Hn;
    [lia|].
  rewrite N.iter_succ in Hrun.
  set (st := N.iter count _ _) in *.
  assert (st.1 = Uint63.of_Z (lo + Z.of_N count)) as Hst.
  { unfold st. clear. induction count as [|count IH] using N.peano_ind.
    - simpl. f_equal. lia.
    - rewrite N.iter_succ. simpl. rewrite IH.
      apply Uint63.to_Z_inj.
      rewrite Uint63.add_spec, !Uint63.of_Z_spec.
      change (Uint63.to_Z 1%uint63) with 1%Z.
      rewrite Zplus_mod_idemp_l. f_equal. lia. }
  simpl in Hrun. apply andb_prop in Hrun as [Hok Hg].
  destruct (decide (n = lo + Z.of_N count)%Z) as [->|Hne].
  - rewrite <- Hst. by apply negb_true_iff in Hg.
  - apply IH; [lia|done|lia].
Qed.

(** In binary64 the guard is false for every period from 2 to
    [max_period]. *)
Lemma b64_guard_false (n : Z) :
  (2 ≤ n ≤ max_period)%Z →
  fltb (Float64Ops := b64_ops) (fabs (denominator (ops := b64_ops) n))
    f1e_10 = false.
Proof.
  intros Hn.
  assert (b64_guard (Uint63.of_Z n) = false) as Hg.
  { apply (b64_guard_open_spec (Z.to_N (max_period - 1)) 2);
      [lia|by vm_compute|by vm_compute|].
    unfold max_period in *. lia. }
  unfold denominator.
  destruct (period_products_fit n ltac:(lia)) as (_ & E2 & E3).
  rewrite E2, E3. cbn [of_Z fdiv fmul fsub fabs fltb b64_ops].
  destruct (uint63_products n ltac:(lia) _ eq_refl) as [U1 U2].
  assert (0 ≤ n * (n - 1) < 2 ^ 63)%Z as B1 by (unfold max_period in Hn; nia).
  assert (0 ≤ (n - 1) * n * (2 * n - 1) < 2 ^ 63)%Z as B2.
  { unfold max_period in Hn.
    assert (0 ≤ (n - 1) * n * (2 * n - 1)
            ≤ 1664510 * 1664511 * (2 * 1664511 - 1))%Z; [|lia].
    split; [apply Z.mul_nonneg_nonneg; nia|].
    apply Z.mul_le_mono_nonneg; nia. }
  rewrite !of_Z_uint63 by (unfold max_period in Hn; lia).
  rewrite <- U1, <- U2. exact Hg.
Qed.

End Binary64Guard.

(** The claim C9 as stated fails in two ways.  In binary64, for period
    12823 the product [sumx2 * N] exceeds [2^53] and is rounded, and the
    denominator the estimator computes is one less than
    [N^2 (N^2 - 1) / 12].  And for period [max_period + 1 = 1664512] the
    integer product [(N - 1) * N * (2 * N - 1)] exceeds [2^63] and wraps:
    the denominator the code computes is negative, without rounding and in
    binary64 alike. *)
Lemma denominator_rounds_in_binary64 :
  (b64_to_Z (denominator (ops := b64_ops) 12823) = Some 2253083672580075%Z
   ∧ (12823 * 12823 * (12823 * 12823 - 1) / 12 = 2253083672580076)%Z
   ∧ (12823 * 12823 * (12823 * 12823 - 1) mod 12 = 0)%Z)
  ∧ ((2 ^ 63 ≤ (1664512 - 1) * 1664512 * (2 * 1664512 - 1))%Z
     ∧ (∃ c : Qc, denominator (ops := exact_ops) 1664512 = Fin c
                  ∧ (c < 0)%Qc)
     ∧ PrimFloat.ltb (denominator (ops := b64_ops) 1664512) 0 = true).
Proof.
  split; [split_and!; vm_compute; reflexivity|].
  split_and!; [by vm_compute| |vm_compute; reflexivity].
  eexists. split; [vm_compute; reflexivity|by vm_compute].
Qed.

(** C9, as amended.  For every period N with
    [2 <= N <= max_period = 1664511]: computed without rounding, the
    denominator [c = sumx2*N - sumx^2] is [N^2 (N^2 - 1) / 12], which is at
    least 1, so the guard [abs(c) < 1e-10] is false, the [(0, 0)] fallback
    is not taken, and the estimator returns a pair of numbers for every
    window of N numbers; in binary64 the guard is false as well, and the
    estimator returns a pair for every window of at least N floats.  In
    binary64 the computed [c] is exactly the integer [N^2 (N^2 - 1) / 12]
    for every period from 2 to 12822. *)
Theorem guard_is_unreachable (N : nat) (ys : list Qc) :
  2 ≤ N → (Z.of_nat N ≤ max_period)%Z → length ys = N →
  denominator (ops := exact_ops) (Z.of_nat N)
  = Fin (Qc_of_Z (Z.of_nat N * Z.of_nat N * (Z.of_nat N * Z.of_nat N - 1))
         / Qc_of_Z 12)%Qc
  ∧ (1 ≤ Qc_of_Z (Z.of_nat N * Z.of_nat N * (Z.of_nat N * Z.of_nat N - 1))
         / Qc_of_Z 12)%Qc
  ∧ fltb (Float64Ops := exact_ops)
      (fabs (denominator (ops := exact_ops) (Z.of_nat N))) f1e_10 = false
  ∧ compute_linear_regression_mad_numba (ops := exact_ops)
      (Fin <$> ys) (Z.of_nat N)
    = Some (Fin (Spec.regression_at ys (N - 1)), Fin (Spec.mad ys))
  ∧ fltb (Float64Ops := b64_ops)
      (fabs (denominator (ops := b64_ops) (Z.of_nat N))) f1e_10 = false
  ∧ (∀ w : list float,
       N ≤ length w →
       is_Some (compute_linear_regression_mad_numba (ops := b64_ops)
                  w (Z.of_nat N)))
  ∧ b64_denominators_exact (Z.to_nat 12821) 2 = true.
Proof.
  intros HN Hmax Hlen. assert (2 ≤ Z.of_nat N)%Z as HN' by lia.
  split_and!.
  - rewrite denominator_exact by lia. by rewrite denom_closed.
  - rewrite <- denom_closed. by apply denom_ge_1.
  - rewrite denominator_exact by lia. by apply guard_false.
  - subst N. by apply estimator_exact.
  - by apply b64_guard_false.
  - intros w Hw. apply (estimator_is_Some (ops := b64_ops)).
    cbn [F b64_ops]. lia.
  - vm_compute. reflexivity.
Qed.

Lemma guard_is_unreachable_witness :
  2 ≤ 3
  ∧ (Z.of_nat 3 ≤ max_period)%Z
  ∧ length [Qc_of_Z 1; Qc_of_Z 2; Qc_of_Z 4] = 3
  ∧ denominator (ops := exact_ops) (Z.of_nat 3)
    = Fin (Qc_of_Z (Z.of_nat 3 * Z.of_nat 3 * (Z.of_nat 3 * Z.of_nat 3 - 1))
           / Qc_of_Z 12)%Qc
  ∧ fltb (Float64Ops := exact_ops)
      (fabs (denominator (ops := exact_ops) (Z.of_nat 3))) f1e_10 = false
  ∧ compute_linear_regression_mad_numba (ops := exact_ops)
      (Fin <$> [Qc_of_Z 1; Qc_of_Z 2; Qc_of_Z 4]) (Z.of_nat 3)
    = Some (Fin (Spec.regression_at [Qc_of_Z 1; Qc_of_Z 2; Qc_of_Z 4]
                   (3 - 1)),
            Fin (Spec.mad [Qc_of_Z 1; Qc_of_Z 2; Qc_of_Z 4]))
  ∧ fltb (Float64Ops := b64_ops)
      (fabs (denominator (ops := b64_ops) (Z.of_nat 3))) f1e_10 = false.
Proof.
  split; [lia|]. split; [compute_done|]. split; [reflexivity|].
  destruct (guard_is_unreachable 3 [Qc_of_Z 1; Qc_of_Z 2; Qc_of_Z 4])
    as (H1 & _ & H3 & H4 & H5 & _); [lia|compute_done|reflexivity|].
  exact (conj H1 (conj H3 (conj H4 H5))).
Defined.

(** * Further properties of the estimator *)

Section FitFacts.
Local Open Scope Qc_scope.

Lemma bigsum_plus (f g : nat → Qc) (n : nat) :
  Spec.bigsum (λ i, f i + g i) n = Spec.bigsum f n + Spec.bigsum g n.
Proof. induction n as [|n IH]; simpl; [|rewrite IH]; ring. Qed.

Lemma bigsum_scale (c : Qc) (f : nat → Qc) (n : nat) :
  Spec.bigsum (λ i, c * f i) n = c * Spec.bigsum f n.
Proof. induction n as [|n IH]; simpl; [|rewrite IH]; ring. Qed.

(** The sum of the residuals of a line [a + b * i]. *)
Lemma residual_sum (ys : list Qc) (a b : Qc) :
  Spec.bigsum (λ i, Spec.sample ys i - (a + b * Spec.pos i)) (length ys)
  = Spec.sumy ys - a * Spec.pos (length ys)
    - b * Spec.sumx (Z.of_nat (length ys)).
Proof.
  rewrite (bigsum_ext _ (λ i, Spec.sample ys i
                              + ((- a) * 1 + (- b) * Spec.pos i)))
    by (intros; ring).
  rewrite bigsum_plus, bigsum_linear, bigsum_one, <- sumx_is_sum.
  unfold Spec.sumy. ring.
Qed.

(** The sum of the residuals weighted by the positions. *)
Lemma residual_moment (ys : list Qc) (a b : Qc) :
  Spec.bigsum (λ i, (Spec.sample ys i - (a + b * Spec.pos i)) * Spec.pos i)
    (length ys)
  = Spec.sumxy ys - a * Spec.sumx (Z.of_nat (length ys))
    - b * Spec.sumx2 (Z.of_nat (length ys)).
Proof.
  rewrite (bigsum_ext _ (λ i, Spec.sample ys i * Spec.pos i
                              + ((- a) * Spec.pos i
                                 + (- b) * (Spec.pos i * Spec.pos i))))
    by (intros; ring).
  rewrite bigsum_plus, bigsum_linear, <- sumx_is_sum, <- sumx2_is_sum.
  unfold Spec.sumxy. ring.
Qed.

End FitFacts.

(** X1.  The line the estimator fits is the least-squares line: on a window
    of N numbers, [2 <= N <= max_period = 1664511], computed without
    rounding, the value returned is that line at position N-1, and the
    residuals [sample[i] - (a + b*i)] sum to zero and are orthogonal to the
    positions (the normal equations). *)
Theorem fit_satisfies_normal_equations (ys : list Qc) :
  2 ≤ length ys →
  (Z.of_nat (length ys) ≤ max_period)%Z →
  compute_linear_regression_mad_numba (ops := exact_ops)
    (Fin <$> ys) (Z.of_nat (length ys))
  = Some (Fin (Spec.regression_at ys (length ys - 1)), Fin (Spec.mad ys))
  ∧ Spec.bigsum (λ i, Spec.sample ys i - Spec.regression_at ys i)%Qc
      (length ys) = 0%Qc
  ∧ Spec.bigsum
      (λ i, (Spec.sample ys i - Spec.regression_at ys i) * Spec.pos i)%Qc
      (length ys) = 0%Qc.
Proof.
  intros HN Hmax. split; [by apply estimator_exact|].
  pose proof (denom_nonzero (length ys) HN) as Hc.
  pose proof (pos_nonzero (length ys) HN) as Hp.
  unfold Spec.regression_at. rewrite residual_sum, residual_moment.
  unfold Spec.intercept, Spec.slope, Spec.denom in *.
  fold (Spec.pos (length ys)) in *.
  split; field; done.
Qed.

Lemma fit_satisfies_normal_equations_witness :
  2 ≤ length [Qc_of_Z 1; Qc_of_Z 2; Qc_of_Z 4]
  ∧ (Z.of_nat (length [Qc_of_Z 1; Qc_of_Z 2; Qc_of_Z 4]) ≤ max_period)%Z
  ∧ Spec.bigsum
      (λ i, Spec.sample [Qc_of_Z 1; Qc_of_Z 2; Qc_of_Z 4] i
            - Spec.regression_at [Qc_of_Z 1; Qc_of_Z 2; Qc_of_Z 4] i)%Qc
      (length [Qc_of_Z 1; Qc_of_Z 2; Qc_of_Z 4]) = 0%Qc.
Proof.
  split; [simpl; lia|]. split; [compute_done|].
  destruct (fit_satisfies_normal_equations
              [Qc_of_Z 1; Qc_of_Z 2; Qc_of_Z 4]) as (_ & H & _);
    [simpl; lia|compute_done|exact H].
Defined.

(** ** The absolute value *)

Lemma qabs_this (a : Qc) : (this (Exact.qabs a) == Qabs (this a))%Q.
Proof.
  unfold Exact.qabs. case_decide as Ha.
  - rewrite Qabs_neg by (revert Ha; clear; intros; qc_lra).
    simpl. by rewrite Qred_correct.
  - rewrite Qabs_pos by (revert Ha; clear; intros; qc_lra). done.
Qed.

Lemma qabs_mult (a b : Qc) :
  Exact.qabs (a * b) = (Exact.qabs a * Exact.qabs b)%Qc.
Proof.
  apply Qc_is_canon. rewrite qabs_this. simpl.
  rewrite !Qred_correct, !qabs_this. apply Qabs_Qmult.
Qed.

Lemma qabs_nonneg (a : Qc) : (0 ≤ Exact.qabs a)%Qc.
Proof.
  unfold Qcle. rewrite qabs_this. apply Qabs_nonneg.
Qed.

Section Equivariance.
Local Open Scope Qc_scope.
Variables (ys : list Qc) (s t : Qc).
Hypothesis HN : (2 ≤ length ys)%nat.

(** The window [s * y + t]. *)
Let zs : list Qc := (λ y, s * y + t) <$> ys.

Lemma length_affine : length zs = length ys.
Proof. unfold zs. by rewrite length_fmap. Qed.

Lemma sample_affine (i : nat) :
  (i < length ys)%nat → Spec.sample zs i = s * Spec.sample ys i + t.
Proof.
  intros Hi. destruct (lookup_lt_is_Some_2 ys i Hi) as [y Hy].
  unfold Spec.sample, zs. by rewrite list_lookup_fmap, Hy.
Qed.

Lemma sumy_affine :
  Spec.sumy zs = s * Spec.sumy ys + t * Spec.pos (length ys).
Proof.
  unfold Spec.sumy. rewrite length_affine.
  rewrite (bigsum_ext _ (λ i, s * Spec.sample ys i + t * 1)).
  - by rewrite bigsum_linear, bigsum_one.
  - intros i Hi. rewrite sample_affine by done. ring.
Qed.

Lemma sumxy_affine :
  Spec.sumxy zs
  = s * Spec.sumxy ys + t * Spec.sumx (Z.of_nat (length ys)).
Proof.
  unfold Spec.sumxy. rewrite length_affine.
  rewrite (bigsum_ext _ (λ i, s * (Spec.sample ys i * Spec.pos i)
                              + t * Spec.pos i)).
  - by rewrite bigsum_linear, sumx_is_sum.
  - intros i Hi. rewrite sample_affine by done. ring.
Qed.

Lemma slope_affine : Spec.slope zs = s * Spec.slope ys.
Proof using HN.
  unfold Spec.slope. rewrite length_affine, sumy_affine, sumxy_affine.
  pose proof (denom_nonzero (length ys) HN) as Hc.
  unfold Spec.denom in *. fold (Spec.pos (length ys)) in *. field. done.
Qed.

Lemma intercept_affine : Spec.intercept zs = s * Spec.intercept ys + t.
Proof using HN.
  unfold Spec.intercept. rewrite slope_affine, length_affine, sumy_affine.
  pose proof (pos_nonzero (length ys) HN) as Hp.
  fold (Spec.pos (length ys)) in *. field. done.
Qed.

Lemma regression_at_affine (i : nat) :
  Spec.regression_at zs i = s * Spec.regression_at ys i + t.
Proof using HN.
  unfold Spec.regression_at. rewrite slope_affine, intercept_affine. ring.
Qed.

Lemma residual_affine (i : nat) :
  (i < length ys)%nat →
  Exact.qabs (Spec.sample zs i - Spec.regression_at zs i)
  = Exact.qabs s * Exact.qabs (Spec.sample ys i - Spec.regression_at ys i).
Proof using HN.
  intros Hi. rewrite sample_affine, regression_at_affine by done.
  rewrite <- qabs_mult. f_equal. ring.
Qed.

Lemma mad_affine : Spec.mad zs = Exact.qabs s * Spec.mad ys.
Proof using HN.
  unfold Spec.mad. rewrite length_affine.
  rewrite (bigsum_ext _ (λ i, Exact.qabs s
              * Exact.qabs (Spec.sample ys i - Spec.regression_at ys i)))
    by (intros; by apply residual_affine).
  rewrite bigsum_scale. pose proof (pos_nonzero (length ys) HN) as Hp.
  fold (Spec.pos (length ys)) in *. field. done.
Qed.

End Equivariance.

(** X2.  The estimator commutes with affine changes of the samples: on a
    window of N numbers, [2 <= N <= max_period = 1664511], computed without
    rounding, replacing every sample [y] by [s * y + t] turns the
    regression value [r] into [s * r + t] and the MAD [d] into
    [|s| * d]. *)
Theorem estimator_affine_equivariant (ys : list Qc) (s t : Qc) :
  2 ≤ length ys →
  (Z.of_nat (length ys) ≤ max_period)%Z →
  ∃ r d : Qc,
    compute_linear_regression_mad_numba (ops := exact_ops)
      (Fin <$> ys) (Z.of_nat (length ys)) = Some (Fin r, Fin d)
    ∧ compute_linear_regression_mad_numba (ops := exact_ops)
        (Fin <$> ((λ y, s * y + t)%Qc <$> ys)) (Z.of_nat (length ys))
      = Some (Fin (s * r + t)%Qc, Fin (Exact.qabs s * d)%Qc).
Proof.
  intros HN Hmax.
  exists (Spec.regression_at ys (length ys - 1)), (Spec.mad ys).
  split; [by apply estimator_exact|].
  pose proof (estimator_exact ((λ y, s * y + t)%Qc <$> ys)) as H.
  rewrite length_affine, regression_at_affine, mad_affine in H by done.
  by apply H.
Qed.

Lemma estimator_affine_equivariant_witness :
  2 ≤ length [Qc_of_Z 1; Qc_of_Z 2; Qc_of_Z 4]
  ∧ (Z.of_nat (length [Qc_of_Z 1; Qc_of_Z 2; Qc_of_Z 4]) ≤ max_period)%Z
  ∧ ∃ r d : Qc,
      compute_linear_regression_mad_numba (ops := exact_ops)
        (Fin <$> [Qc_of_Z 1; Qc_of_Z 2; Qc_of_Z 4])
        (Z.of_nat (length [Qc_of_Z 1; Qc_of_Z 2; Qc_of_Z 4]))
      = Some (Fin r, Fin d)
      ∧ compute_linear_regression_mad_numba (ops := exact_ops)
          (Fin <$> ((λ y, Qc_of_Z (-3) * y + Qc_of_Z 7)%Qc
                      <$> [Qc_of_Z 1; Qc_of_Z 2; Qc_of_Z 4]))
          (Z.of_nat (length [Qc_of_Z 1; Qc_of_Z 2; Qc_of_Z 4]))
        = Some (Fin (Qc_of_Z (-3) * r + Qc_of_Z 7)%Qc,
                Fin (Exact.qabs (Qc_of_Z (-3)) * d)%Qc).
Proof.
  split; [simpl; lia|]. split; [compute_done|].
  apply (estimator_affine_equivariant [Qc_of_Z 1; Qc_of_Z 2; Qc_of_Z 4]
           (Qc_of_Z (-3)) (Qc_of_Z 7)); [simpl; lia|compute_done].
Defined.

(** ** The bands around the regression value *)

Lemma bigsum_nonneg (f : nat → Qc) (n : nat) :
  (∀ i, 0 ≤ f i)%Qc → (0 ≤ Spec.bigsum f n)%Qc.
Proof.
  intros Hf. induction n as [|n IH]; simpl; [apply Qcle_refl|].
  specialize (Hf n). revert IH Hf.
  generalize (Spec.bigsum f n) (f n). clear. intros a b Ha Hb. qc_lra.
Qed.

Lemma mad_nonneg (ys : list Qc) : (0 ≤ Spec.mad ys)%Qc.
Proof.
  unfold Spec.mad.
  pose proof (bigsum_nonneg
                (λ i, Exact.qabs (Spec.sample ys i - Spec.regression_at ys i))
                (length ys) (λ i, qabs_nonneg _)) as HS.
  assert (0 ≤ Qc_of_Z (Z.of_nat (length ys)))%Qc as HN.
  { rewrite <- Z2Qc_inj_0. apply (proj1 (Z2Qc_inj_le _ _)). lia. }
  revert HS HN. generalize (Qc_of_Z (Z.of_nat (length ys))).
  generalize (Spec.bigsum
                (λ i, Exact.qabs (Spec.sample ys i - Spec.regression_at ys i))
                (length ys)).
  clear. intros a n Ha Hn. unfold Qcle in *. unfold Qcdiv, Qcmult, Qcinv.
  simpl. rewrite !Qred_correct.
  apply Qmult_le_0_compat; [done|]. by apply Qinv_le_0_compat.
Qed.

(** X3.  On every bar where the window is full (N closes or more, with
    [2 <= N <= max_period = 1664511]), computed without rounding and with
    deviation multipliers that are not negative, [next] writes a lower band
    that is not above the regression value and an upper band that is not
    below it. *)
Theorem bands_enclose_regression (closes : list Qc) (N : nat)
    (up down : Qc) :
  2 ≤ N → (Z.of_nat N ≤ max_period)%Z → N ≤ length closes →
  (0 ≤ up)%Qc → (0 ≤ down)%Qc →
  ∃ u r l : Qc,
    next (ops := exact_ops)
      (Channel (ops := exact_ops) (Z.of_nat N) (Fin up) (Fin down))
      (Fin <$> closes)
    = Some (Point (ops := exact_ops) (Fin u) (Fin r) (Fin l))
    ∧ (l ≤ r)%Qc ∧ (r ≤ u)%Qc.
Proof.
  intros HN Hmax Hlen Hup Hdown.
  set (ws := drop (length closes - N) closes).
  assert (length ws = N) as Hws by (unfold ws; rewrite length_drop; lia).
  pose proof (estimator_exact ws) as Hest. rewrite Hws in Hest.
  specialize (Hest HN Hmax).
  exists (Spec.regression_at ws (N - 1) + Spec.mad ws * up)%Qc,
    (Spec.regression_at ws (N - 1)),
    (Spec.regression_at ws (N - 1) - Spec.mad ws * down)%Qc.
  split.
  - unfold next. cbn [period up_deviation down_deviation F exact_ops].
    rewrite line_get_full by (by rewrite length_fmap).
    rewrite length_fmap, <- fmap_drop. fold ws.
    rewrite length_fmap, Hws, Z.ltb_irrefl, Hest. done.
  - pose proof (mad_nonneg ws) as Hd.
    assert (0 ≤ Spec.mad ws * up)%Qc as H1.
    { replace 0%Qc with (0 * up)%Qc by ring.
      by apply Qcmult_le_compat_r. }
    assert (0 ≤ Spec.mad ws * down)%Qc as H2.
    { replace 0%Qc with (0 * down)%Qc by ring.
      by apply Qcmult_le_compat_r. }
    revert H1 H2. generalize (Spec.mad ws * up)%Qc (Spec.mad ws * down)%Qc
      (Spec.regression_at ws (N - 1)).
    clear. intros a b r Ha Hb. split; qc_lra.
Qed.

Lemma bands_enclose_regression_witness :
  2 ≤ 2 ∧ (Z.of_nat 2 ≤ max_period)%Z
  ∧ 2 ≤ length [Qc_of_Z 1; Qc_of_Z 2; Qc_of_Z 4]
  ∧ ∃ u r l : Qc,
      next (ops := exact_ops)
        (Channel (ops := exact_ops) (Z.of_nat 2)
           (Fin (Qc_of_Z 2)) (Fin (Qc_of_Z 2)))
        (Fin <$> [Qc_of_Z 1; Qc_of_Z 2; Qc_of_Z 4])
      = Some (Point (ops := exact_ops) (Fin u) (Fin r) (Fin l))
      ∧ (l ≤ r)%Qc ∧ (r ≤ u)%Qc.
Proof.
  split; [lia|]. split; [compute_done|]. split; [simpl; lia|].
  apply (bands_enclose_regression [Qc_of_Z 1; Qc_of_Z 2; Qc_of_Z 4] 2
           (Qc_of_Z 2) (Qc_of_Z 2)); [lia|compute_done|simpl; lia|done|done].
Defined.

(** * Further properties of the channel *)

Lemma for_each_ext {S X} (body1 body2 : S → X → option S) (xs : list X)
    (s : S) :
  (∀ s' x, x ∈ xs → body1 s' x = body2 s' x) →
  for_each body1 xs s = for_each body2 xs s.
Proof.
  revert s. induction xs as [|x xs IH]; intros s H; simpl; [done|].
  rewrite H by left. destruct (body2 s x); [|done].
  apply IH. intros s' y Hy. apply H. by right.
Qed.

(** X4.  The estimator reads only the first [period] values of the window
    it is given: values after them do not change its result (in any
    arithmetic). *)
Theorem estimator_reads_first_period {ops : Float64Ops}
    (window extra : list F) (period : Z) :
  (period ≤ Z.of_nat (length window))%Z →
  compute_linear_regression_mad_numba (window ++ extra) period
  = compute_linear_regression_mad_numba window period.
Proof.
  intros Hlen. unfold compute_linear_regression_mad_numba.
  assert (∀ g, g ∈ py_range 0 period →
               (window ++ extra) !! Z.to_nat g = window !! Z.to_nat g) as Hlk.
  { intros g Hg%elem_of_py_range. apply lookup_app_l. lia. }
  rewrite (for_each_ext (sums_body (window ++ extra)) (sums_body window)).
  2:{ intros st g Hg. unfold sums_body. by rewrite Hlk. }
  destruct (for_each (sums_body window) _ _) as [st|]; [|done].
  destruct (fltb _ _); [done|].
  match goal with
  | |- context [for_each (mad_body (window ++ extra) ?a ?b)] =>
      rewrite (for_each_ext (mad_body (window ++ extra) a b)
                 (mad_body window a b)); [done|]
  end.
  intros st' g Hg. unfold mad_body. by rewrite Hlk.
Qed.

Lemma estimator_reads_first_period_witness :
  (2 ≤ Z.of_nat (length [exq 1; exq 3]))%Z
  ∧ compute_linear_regression_mad_numba (ops := exact_ops)
      ([exq 1; exq 3] ++ [exq 100; exq (-7)]) 2
    = compute_linear_regression_mad_numba (ops := exact_ops)
        [exq 1; exq 3] 2.
Proof.
  split; [compute_done|].
  apply (estimator_reads_first_period (ops := exact_ops)
           [exq 1; exq 3] [exq 100; exq (-7)] 2).
  compute_done.
Defined.

(** ** Period 1 *)

Lemma estimator_period_one_exact (data : list exact) :
  1 ≤ length data →
  compute_linear_regression_mad_numba (ops := exact_ops) data 1
  = Some (Fin 0%Qc, Fin 0%Qc).
Proof.
  intros Hlen. unfold compute_linear_regression_mad_numba.
  destruct (sums_loop_is_Some (ops := exact_ops) data 1 (Sums f0 f0 f0 f0))
    as [st ->]; [cbn [F exact_ops]; lia|].
  destruct (period_products_fit 1 ltac:(done)) as (_ & E2 & E3).
  rewrite E2, E3, sumx_exact, sumx2_exact.
  assert ((Fin (Spec.sumx2 1) * of_Z 1 - Fin (Spec.sumx 1) * Fin (Spec.sumx 1))%f64
          = Fin (Spec.denom 1)) as -> by reflexivity.
  assert (Spec.denom 1 = 0%Qc) as -> by (by apply Qc_is_canon).
  rewrite f1e_10_exact, f0_exact.
  cbn [fltb fabs exact_ops Exact.abs Exact.cmp2].
  rewrite qabs_zero. unfold Exact.ltb.
  rewrite bool_decide_eq_true_2; [done|]. clear. qc_lra.
Qed.

Lemma estimator_period_one_b64 (data : list float) :
  1 ≤ length data →
  compute_linear_regression_mad_numba (ops := b64_ops) data 1
  = Some (0%float, 0%float).
Proof.
  intros Hlen. unfold compute_linear_regression_mad_numba.
  destruct (sums_loop_is_Some (ops := b64_ops) data 1 (Sums f0 f0 f0 f0))
    as [st ->]; [simpl; lia|].
  reflexivity.
Qed.

(** X5.  With [period = 1] the denominator of the fit is 0, so the guard
    answers [(0, 0)] for every window: computed without rounding, every bar
    of the batch arrays and every value [next] writes is the point
    [(0, 0, 0)], whatever the closes and the multipliers; in binary64 the
    estimator likewise answers [(0, 0)] on every non-empty window. *)
Theorem period_one_channel_is_zero (junk : exact) (closes : list exact)
    (up down : Qc) :
  (∃ arrays,
     compute_lr_channel_mad_numba (ops := exact_ops) junk closes 1
       (Fin up) (Fin down) = Some arrays
     ∧ ∀ i, i < length closes →
         point_at arrays i = Some (Point (Fin 0%Qc) (Fin 0%Qc) (Fin 0%Qc))
         ∧ next (Channel 1 (Fin up) (Fin down)) (take (S i) closes)
           = Some (Point (Fin 0%Qc) (Fin 0%Qc) (Fin 0%Qc)))
  ∧ ∀ window : list float,
      window ≠ [] →
      compute_linear_regression_mad_numba (ops := b64_ops) window 1
      = Some (0%float, 0%float).
Proof.
  split.
  - destruct (batch_loop_invariant (ops := exact_ops) junk closes 1
                (Fin up) (Fin down) (length closes))
      as (ub & reg & lb & Hrun & _ & _ & _ & Hpts); [lia|simpl; lia|].
    exists (ub, reg, lb). split.
    { unfold compute_lr_channel_mad_numba. rewrite <- Hrun.
      do 2 f_equal. }
    intros i Hi.
    assert (next (Channel 1 (Fin up) (Fin down)) (take (S i) closes)
            = Some (Point (Fin 0%Qc) (Fin 0%Qc) (Fin 0%Qc))) as Hnext.
    { etrans.
      { apply (next_at_index (ops := exact_ops) closes 1 (Fin up) (Fin down) i);
          [simpl; lia|done|lia]. }
      change (Z.of_nat 1) with 1%Z.
      rewrite estimator_period_one_exact.
      2:{ rewrite length_take, length_drop. lia. }
      cbn [fadd fsub fmul exact_ops Exact.lift2].
      do 2 f_equal; f_equal; apply Qc_is_canon; simpl; ring. }
    split; [|done]. rewrite <- Hnext. apply Hpts; simpl; lia.
  - intros window Hne. apply estimator_period_one_b64.
    destruct window; [done|simpl; lia].
Qed.

Lemma period_one_channel_is_zero_witness :
  (∃ arrays,
     compute_lr_channel_mad_numba (ops := exact_ops) (exq 7)
       [exq 3; exq 1; exq 4] 1 (Fin 2%Qc) (Fin 2%Qc) = Some arrays
     ∧ ∀ i, i < length [exq 3; exq 1; exq 4] →
         point_at arrays i = Some (Point (Fin 0%Qc) (Fin 0%Qc) (Fin 0%Qc))
         ∧ next (Channel 1 (Fin 2%Qc) (Fin 2%Qc))
             (take (S i) [exq 3; exq 1; exq 4])
           = Some (Point (Fin 0%Qc) (Fin 0%Qc) (Fin 0%Qc)))
  ∧ ∀ window : list float,
      window ≠ [] →
      compute_linear_regression_mad_numba (ops := b64_ops) window 1
      = Some (0%float, 0%float).
Proof.
  exact (period_one_channel_is_zero (exq 7) [exq 3; exq 1; exq 4] 2%Qc 2%Qc).
Defined.

(** X6.  [once] fills the three line buffers with exactly what [next]
    writes bar by bar, for every period from 1 on and in any arithmetic:
    unless it is called for a single bar ([end - start = 1], where it
    returns at once), it returns three arrays as long as the preloaded
    closes, whose bar [i] is the point [next] computes from the closes up
    to [i]. *)
Theorem once_fills_what_next_writes {ops : Float64Ops}
    (self : LinearRegressionChannel_MAD) (junk : F) (start end_ : Z)
    (preloaded : list F) (lines : list F * list F * list F) :
  (1 ≤ period self)%Z →
  (end_ - start)%Z ≠ 1%Z →
  ∃ ub reg lb,
    once self junk start end_ preloaded lines = Some (ub, reg, lb)
    ∧ length ub = length preloaded
    ∧ length reg = length preloaded
    ∧ length lb = length preloaded
    ∧ ∀ i, i < length preloaded →
        point_at (ub, reg, lb) i = next self (take (S i) preloaded).
Proof.
  intros HN Hse. destruct self as [p up down]. simpl in HN.
  assert (∃ N, p = Z.of_nat N) as [N ->] by (exists (Z.to_nat p); lia).
  assert (1 ≤ N) as HN1 by lia.
  set (m := length preloaded - (N - 1)).
  destruct (batch_loop_invariant junk preloaded N up down m HN1)
    as (ub & reg & lb & Hrun & Hub & Hreg & Hlb & Hpts); [lia|].
  exists ub, reg, lb. split_and!; [|done..|].
  - unfold once. rewrite decide_False by done. simpl.
    unfold compute_lr_channel_mad_numba. rewrite <- Hrun.
    destruct (decide (N - 1 ≤ length preloaded)) as [Hle|Hgt].
    + do 2 f_equal. lia.
    + rewrite !py_range_empty by lia. done.
  - intros i Hi. destruct (decide (i < N - 1 + m)) as [Hlt|Hge].
    + by apply Hpts.
    + assert (length preloaded < N - 1) by lia. lia.
Qed.

Lemma once_fills_what_next_writes_witness :
  ∃ ub reg lb,
    once (ops := b64_ops) (Channel (ops := b64_ops) 1 2%float 2%float)
      7%float 0 3 [1; 2; 4]%float ([], [], []) = Some (ub, reg, lb)
    ∧ length ub = 3 ∧ length reg = 3 ∧ length lb = 3
    ∧ ∀ i, i < 3 →
        point_at (ops := b64_ops) (ub, reg, lb) i
        = next (ops := b64_ops) (Channel (ops := b64_ops) 1 2%float 2%float)
            (take (S i) [1; 2; 4]%float).
Proof.
  apply (once_fills_what_next_writes (ops := b64_ops)
           (Channel (ops := b64_ops) 1 2%float 2%float)
           7%float 0 3 [1; 2; 4]%float ([], [], []));
    [simpl; lia|lia].
Defined.

(** * Further properties of the volatility gauge *)

Section GaugeFacts.
Local Open Scope Qc_scope.

Lemma np_max_fold (h0 : Qc) (hs : list Qc) :
  np_max (ops := exact_ops) (Fin h0) (Fin <$> hs)
  = Fin (foldl Exact.max h0 hs).
Proof.
  unfold np_max. revert h0. induction hs as [|h hs IH]; intros h0; [done|].
  simpl. apply IH.
Qed.

Lemma np_min_fold (l0 : Qc) (ls : list Qc) :
  np_min (ops := exact_ops) (Fin l0) (Fin <$> ls)
  = Fin (foldl Exact.min l0 ls).
Proof.
  unfold np_min. revert l0. induction ls as [|l ls IH]; intros l0; [done|].
  simpl. apply IH.
Qed.

(** The gauge on numbers, for any feed and lookback. *)
Lemma gauge_exact_window (nm : option string) (ps : list (Qc * Qc))
    (period : Z) :
  VolatilityCalculator_calculate (ops := exact_ops)
    (Feed (ops := exact_ops) nm (exact_bar <$> ps)) period
  = match drop (length ps - Z.to_nat period) ps with
    | [] => Fin 0
    | p0 :: w =>
        let M := foldl Exact.max p0.1 (fst <$> w) in
        let m := foldl Exact.min p0.2 (snd <$> w) in
        if decide (m = 0) then Fin 0 else Fin ((M - m) / (m / Qc_of_Z 100))
    end.
Proof.
  rewrite gauge_general. cbn [bars]. rewrite length_fmap, <- fmap_drop.
  destruct (drop (length ps - Z.to_nat period) ps) as [|p0 w];
    [apply f0_exact|].
  rewrite fmap_cons. cbn [high low exact_bar].
  rewrite <- !list_fmap_compose.
  change (high ∘ exact_bar) with (Fin ∘ fst (B := Qc)).
  change (low ∘ exact_bar) with (Fin ∘ snd (A := Qc)).
  rewrite !list_fmap_compose, np_max_fold, np_min_fold, f0_exact.
  cbn [feqb fsub fdiv exact_ops Exact.cmp2 Exact.lift2]. unfold Exact.eqb.
  case_bool_decide as H0; case_decide as H0'; try done.
  unfold f100. cbn [of_Z exact_ops].
  rewrite (exact_div_fin (foldl Exact.min p0.2 (snd <$> w))) by done.
  rewrite exact_div_fin; [done|].
  intros Hz. apply H0. revert Hz. clear.
  generalize (foldl Exact.min p0.2 (snd <$> w)). intros m Hz.
  apply Qc_is_canon.
  assert (this (m / Qc_of_Z 100) == 0)%Q as Hq by by rewrite Hz.
  revert Hq. qc_norm. unfold inject_Z. q_const_inv. intros. lra.
Qed.

Lemma scale_lt (s a b : Qc) : 0 < s → (s * a < s * b ↔ a < b).
Proof.
  intros Hs. rewrite !(Qcmult_comm s). split; intros H.
  - apply Qcnot_le_lt. intros Hle. apply (Qcmult_le_compat_r _ _ s) in Hle.
    + by apply Qcle_not_lt in Hle.
    + by apply Qclt_le_weak.
  - by apply Qcmult_lt_compat_r.
Qed.

Lemma max_scale (s a b : Qc) :
  0 < s → Exact.max (s * a) (s * b) = s * Exact.max a b.
Proof.
  intros Hs. unfold Exact.max, Exact.ltb.
  do 2 case_bool_decide; try done; exfalso; by rewrite scale_lt in *.
Qed.

Lemma min_scale (s a b : Qc) :
  0 < s → Exact.min (s * a) (s * b) = s * Exact.min a b.
Proof.
  intros Hs. unfold Exact.min, Exact.ltb.
  do 2 case_bool_decide; try done; exfalso; by rewrite scale_lt in *.
Qed.

Lemma foldl_max_scale (s h0 : Qc) (hs : list Qc) :
  0 < s →
  foldl Exact.max (s * h0) (Qcmult s <$> hs) = s * foldl Exact.max h0 hs.
Proof.
  intros Hs. revert h0. induction hs as [|h hs IH]; intros h0; [done|].
  simpl. by rewrite max_scale, IH.
Qed.

Lemma foldl_min_scale (s l0 : Qc) (ls : list Qc) :
  0 < s →
  foldl Exact.min (s * l0) (Qcmult s <$> ls) = s * foldl Exact.min l0 ls.
Proof.
  intros Hs. revert l0. induction ls as [|l ls IH]; intros l0; [done|].
  simpl. by rewrite min_scale, IH.
Qed.

Lemma foldl_max_ge (h0 : Qc) (hs : list Qc) : h0 ≤ foldl Exact.max h0 hs.
Proof.
  destruct (np_max_exact h0 hs) as (M & HM & _ & Hle).
  rewrite np_max_fold in HM. injection HM as ->. apply Hle. left.
Qed.

Lemma foldl_min_le (l0 : Qc) (ls : list Qc) : foldl Exact.min l0 ls ≤ l0.
Proof.
  destruct (np_min_exact l0 ls) as (M & HM & _ & Hle).
  rewrite np_min_fold in HM. injection HM as ->. apply Hle. left.
Qed.

Lemma foldl_min_elem (l0 : Qc) (ls : list Qc) :
  foldl Exact.min l0 ls ∈ l0 :: ls.
Proof.
  destruct (np_min_exact l0 ls) as (M & HM & Hin & _).
  rewrite np_min_fold in HM. by injection HM as ->.
Qed.

Lemma Qc_inv_pos (a : Qc) : 0 < a → 0 < / a.
Proof.
  intros Ha.
  change (0 < Qred (/ this a))%Q. change (0 < this a)%Q in Ha.
  rewrite (Qred_correct (/ this a)). by apply Qinv_lt_0_compat.
Qed.

Lemma Qc_div_pos (a b : Qc) : 0 < a → 0 < b → 0 < a / b.
Proof.
  intros Ha Hb. unfold Qcdiv. rewrite <- (Qcmult_0_l (/ b)).
  apply Qcmult_lt_compat_r; [by apply Qc_inv_pos|done].
Qed.

Lemma Qc_div_nonneg (a b : Qc) : 0 ≤ a → 0 < b → 0 ≤ a / b.
Proof.
  intros Ha Hb. unfold Qcdiv. rewrite <- (Qcmult_0_l (/ b)).
  apply Qcmult_le_compat_r; [done|]. by apply Qclt_le_weak, Qc_inv_pos.
Qed.

End GaugeFacts.

(** X7.  The gauge does not depend on the price scale: computed without
    rounding, multiplying every high and low of a feed by the same positive
    factor leaves the volatility unchanged, for every feed and lookback. *)
Theorem gauge_scale_invariant (nm : option string) (ps : list (Qc * Qc))
    (period : Z) (s : Qc) :
  (0 < s)%Qc →
  VolatilityCalculator_calculate (ops := exact_ops)
    (Feed (ops := exact_ops) nm
       (exact_bar <$> ((λ p, (s * p.1, s * p.2)%Qc) <$> ps))) period
  = VolatilityCalculator_calculate (ops := exact_ops)
      (Feed (ops := exact_ops) nm (exact_bar <$> ps)) period.
Proof.
  intros Hs. rewrite !gauge_exact_window.
  rewrite length_fmap, <- fmap_drop.
  destruct (drop (length ps - Z.to_nat period) ps) as [|p0 w]; [done|].
  rewrite fmap_cons. cbn [fst snd]. cbv zeta.
  rewrite <- !list_fmap_compose.
  change (fst ∘ (λ p : Qc * Qc, (s * p.1, s * p.2)%Qc))
    with (Qcmult s ∘ fst (B := Qc)).
  change (snd ∘ (λ p : Qc * Qc, (s * p.1, s * p.2)%Qc))
    with (Qcmult s ∘ snd (A := Qc)).
  rewrite !list_fmap_compose, foldl_max_scale, foldl_min_scale by done.
  generalize (foldl Exact.max p0.1 (fst <$> w)).
  generalize (foldl Exact.min p0.2 (snd <$> w)). intros m M.
  assert (s ≠ 0%Qc) as Hs0.
  { intros ->. by apply Qclt_not_eq in Hs. }
  destruct (decide (m = 0%Qc)) as [->|Hm].
  - rewrite Qcmult_0_r. by rewrite decide_True.
  - rewrite decide_False.
    2:{ intros H. apply Qcmult_integral in H as [?|?]; done. }
    f_equal. clear Hs. field. split; [|done].
    by apply Qc_of_Z_nonzero.
Qed.

Lemma gauge_scale_invariant_witness :
  VolatilityCalculator_calculate (ops := exact_ops)
    (Feed (ops := exact_ops) None
       (exact_bar
          <$> ((λ p, (Qc_of_Z 3 * p.1, Qc_of_Z 3 * p.2)%Qc)
                 <$> [(Qc_of_Z 110, Qc_of_Z 90); (Qc_of_Z 120, Qc_of_Z 95)])))
    2
  = VolatilityCalculator_calculate (ops := exact_ops)
      (Feed (ops := exact_ops) None
         (exact_bar <$> [(Qc_of_Z 110, Qc_of_Z 90); (Qc_of_Z 120, Qc_of_Z 95)]))
      2.
Proof.
  apply (gauge_scale_invariant None
           [(Qc_of_Z 110, Qc_of_Z 90); (Qc_of_Z 120, Qc_of_Z 95)] 2
           (Qc_of_Z 3)).
  reflexivity.
Defined.

(** X8.  The gauge is never negative on sound bars: computed without
    rounding, when every bar has a positive low that does not exceed its
    high, the volatility is a number and is at least 0, for every feed and
    lookback (0 when the window is empty). *)
Theorem gauge_nonnegative (nm : option string) (ps : list (Qc * Qc))
    (period : Z) :
  (∀ p, p ∈ ps → 0 < p.2 ∧ p.2 ≤ p.1)%Qc →
  ∃ v : Qc,
    VolatilityCalculator_calculate (ops := exact_ops)
      (Feed (ops := exact_ops) nm (exact_bar <$> ps)) period = Fin v
    ∧ (0 ≤ v)%Qc.
Proof.
  intros Hps. rewrite gauge_exact_window.
  pose proof (sublist_drop ps (length ps - Z.to_nat period)) as Hsub.
  destruct (drop (length ps - Z.to_nat period) ps) as [|p0 w];
    [exists 0%Qc; split; [done|apply Qcle_refl]|].
  cbv zeta. case_decide as Hm; [exists 0%Qc; split; [done|apply Qcle_refl]|].
  eexists; split; [done|].
  assert (∀ p, p ∈ p0 :: w → 0 < p.2 ∧ p.2 ≤ p.1)%Qc as Hw.
  { intros p Hp. apply Hps. by eapply elem_of_sublist. }
  pose proof (foldl_max_ge p0.1 (fst <$> w)) as HM.
  pose proof (foldl_min_le p0.2 (snd <$> w)) as Hm1.
  pose proof (foldl_min_elem p0.2 (snd <$> w)) as Hin.
  assert (0 < foldl Exact.min p0.2 (snd <$> w))%Qc as Hpos.
  { change (p0.2 :: (snd <$> w)) with (snd <$> p0 :: w) in Hin.
    apply list_elem_of_fmap in Hin as (p & -> & Hp). by apply Hw. }
  destruct (Hw p0) as [_ H0]; [left|].
  revert HM Hm1 Hpos H0.
  generalize (foldl Exact.max p0.1 (fst <$> w)).
  generalize (foldl Exact.min p0.2 (snd <$> w)).
  generalize (p0.1) (p0.2). clear. intros h l m M HM Hm Hpos Hhl.
  assert (0 ≤ M - m)%Qc as Hd by (revert HM Hm Hhl; clear; intros; qc_lra).
  apply Qc_div_nonneg; [done|].
  apply Qc_div_pos; [done|reflexivity].
Qed.

Lemma gauge_nonnegative_witness :
  (∀ p, p ∈ [(Qc_of_Z 110, Qc_of_Z 90); (Qc_of_Z 120, Qc_of_Z 95)] →
        0 < p.2 ∧ p.2 ≤ p.1)%Qc
  ∧ ∃ v : Qc,
      VolatilityCalculator_calculate (ops := exact_ops)
        (Feed (ops := exact_ops) None
           (exact_bar
              <$> [(Qc_of_Z 110, Qc_of_Z 90); (Qc_of_Z 120, Qc_of_Z 95)])) 2
      = Fin v
      ∧ (0 ≤ v)%Qc.
Proof.
  assert (∀ p, p ∈ [(Qc_of_Z 110, Qc_of_Z 90); (Qc_of_Z 120, Qc_of_Z 95)] →
               0 < p.2 ∧ p.2 ≤ p.1)%Qc as H.
  { intros p Hp. repeat (apply elem_of_cons in Hp as [->|Hp]);
      [split; reflexivity || (by vm_compute)..|by apply elem_of_nil in Hp]. }
  split; [exact H|].
  exact (gauge_nonnegative None
           [(Qc_of_Z 110, Qc_of_Z 90); (Qc_of_Z 120, Qc_of_Z 95)] 2 H).
Defined.

(** * Further properties of the clusters *)

Section ClusterFacts.
Context {ops : Float64Ops}.

(** What [calculate] leaves with two or more eligible feeds. *)
Lemma calculate_ranked (self : VolatilityStageClusters)
    (data_feeds : list DataFeed) :
  let sources :=
    source_of (length_ self)
      <$> filter (λ d, eligible (length_ self) d) data_feeds in
  let sorted := list_sort src_volatility sources in
  let lot := (of_Z (Z.of_nat (length sources)) / f100)%f64 in
  let limit1 := (cluster_one_percent self * lot)%f64 in
  let limit2 :=
    ((cluster_one_percent self + cluster_two_percent self) * lot)%f64 in
  2 ≤ length sources →
  calculate self data_feeds
  = (Clusters
       (dict_add (members 1 limit1 limit2 sorted) ∅)
       (dict_add (members 2 limit1 limit2 sorted) ∅)
       (dict_add (members 3 limit1 limit2 sorted) ∅)
       (members 1 limit1 limit2 sorted)
       (members 2 limit1 limit2 sorted)
       (members 3 limit1 limit2 sorted)
       lot (length_ self) (cluster_one_percent self)
       (cluster_two_percent self) (cluster_three_percent self), None).
Proof.
  intros sources sorted lot limit1 limit2 Hcount.
  assert (length sorted = length sources) as Hlen
    by (unfold sorted; by rewrite list_sort_perm).
  unfold calculate, _calculate_clusters.
  destruct data_feeds as [|d ds]; [simpl in Hcount; lia|].
  rewrite collect_sources_filter.
  change (length_ (clear_clusters self)) with (length_ self).
  fold sources. rewrite decide_False by lia. fold sorted.
  rewrite assign_loop by lia. rewrite take_ge by lia.
  simpl. rewrite Hlen. done.
Qed.

(** What [calculate] leaves with at most one eligible feed. *)
Lemma calculate_unranked (self : VolatilityStageClusters)
    (data_feeds : list DataFeed) :
  let sources :=
    source_of (length_ self)
      <$> filter (λ d, eligible (length_ self) d) data_feeds in
  length sources ≤ 1 →
  calculate self data_feeds
  = (clear_clusters self,
     if decide (length sources = 1) then Some AttributeError else None).
Proof.
  intros sources Hcount. unfold calculate, _calculate_clusters.
  destruct data_feeds as [|d ds]; [done|].
  rewrite collect_sources_filter.
  change (length_ (clear_clusters self)) with (length_ self).
  fold sources. rewrite decide_True by done. by case_decide.
Qed.

Lemma dict_add_in (l : list Source) (d : gmap string Source) (n : string) :
  is_Some (dict_add l d !! n) ↔ n ∈ src_name <$> l ∨ is_Some (d !! n).
Proof.
  induction l as [|x l IH] using rev_ind.
  - simpl. split; [by right|]. intros [H|H]; [|done].
    by apply elem_of_nil in H.
  - rewrite dict_add_snoc, lookup_insert_is_Some, fmap_app, elem_of_app, IH.
    simpl. rewrite list_elem_of_singleton.
    split.
    + intros [->|[Hne [H|H]]]; [left; by right|left; by left|by right].
    + intros [[H|Hx]|H]; destruct (decide (src_name x = n)); auto.
Qed.

Lemma dict_in_add (l : list Source) (n : string) :
  dict_in n (dict_add l ∅) = bool_decide (n ∈ src_name <$> l).
Proof.
  unfold dict_in. apply bool_decide_ext. rewrite dict_add_in.
  rewrite lookup_empty. split; [|by left]. by intros [?|[? ?]].
Qed.

Lemma source_names (lookback : Z) (ds : list DataFeed) :
  src_name <$> (source_of lookback <$> ds)
  = (λ d, default "Unknown" (_name d)) <$> ds.
Proof. by rewrite <- list_fmap_compose. Qed.

End ClusterFacts.

(** X9.  With two or more eligible feeds whose names (["Unknown"] for a
    feed without one) are pairwise distinct, [calculate] puts every
    eligible instrument in exactly one cluster: the membership query for
    its name answers True for one cluster number among 1, 2, 3 and False
    for every other number; for a name that is not the name of an eligible
    feed it answers False for every number.  This holds in any
    arithmetic. *)
Theorem each_instrument_in_one_cluster {ops : Float64Ops}
    (self : VolatilityStageClusters) (data_feeds : list DataFeed)
    (n : string) (bs : list Bar) :
  let names :=
    (λ d, default "Unknown" (_name d))
      <$> filter (λ d, eligible (length_ self) d) data_feeds in
  let r := (calculate self data_feeds).1 in
  2 ≤ length names →
  NoDup names →
  (n ∈ names →
   ∃ k, k ∈ [1; 2; 3]%Z
        ∧ ∀ c, is_in_cluster r (Feed (Some n) bs) c
               = inr (bool_decide (c = k)))
  ∧ (n ∉ names → ∀ c, is_in_cluster r (Feed (Some n) bs) c = inr false).
Proof.
  intros names r Hcount Hnd.
  set (sources := source_of (length_ self)
         <$> filter (λ d, eligible (length_ self) d) data_feeds).
  assert (length names = length sources) as Hl
    by (unfold names, sources; by rewrite !length_fmap).
  pose proof (calculate_ranked self data_feeds) as Hcalc.
  cbv zeta in Hcalc. fold sources in Hcalc.
  specialize (Hcalc ltac:(lia)).
  set (sorted := list_sort src_volatility sources) in *.
  set (limit1 := (cluster_one_percent self
                  * (of_Z (Z.of_nat (length sources)) / f100))%f64) in *.
  set (limit2 := ((cluster_one_percent self + cluster_two_percent self)
                  * (of_Z (Z.of_nat (length sources)) / f100))%f64) in *.
  set (n1 := src_name <$> members 1 limit1 limit2 sorted).
  set (n2 := src_name <$> members 2 limit1 limit2 sorted).
  set (n3 := src_name <$> members 3 limit1 limit2 sorted).
  assert (n1 ++ n2 ++ n3 ≡ₚ names) as Hperm.
  { unfold n1, n2, n3, names. rewrite <- !fmap_app, members_partition.
    unfold sorted. rewrite list_sort_perm. unfold sources.
    by rewrite source_names. }
  assert (∀ c, is_in_cluster r (Feed (Some n) bs) c
               = inr (if decide (c = 1%Z) then bool_decide (n ∈ n1)
                      else if decide (c = 2%Z) then bool_decide (n ∈ n2)
                      else if decide (c = 3%Z) then bool_decide (n ∈ n3)
                      else false)) as Hq.
  { intros c. unfold r. rewrite Hcalc. unfold is_in_cluster. simpl.
    rewrite !dict_in_add. by repeat case_decide. }
  rewrite <- Hperm in Hnd.
  apply NoDup_app in Hnd as (_ & H1 & Hnd).
  apply NoDup_app in Hnd as (_ & H2 & _).
  assert (∀ (k : Z) (b1 b2 b3 : bool),
            (b1 = bool_decide (k = 1%Z)) → (b2 = bool_decide (k = 2%Z)) →
            (b3 = bool_decide (k = 3%Z)) → k ∈ [1; 2; 3]%Z →
            ∀ c, (if decide (c = 1%Z) then b1
                  else if decide (c = 2%Z) then b2
                  else if decide (c = 3%Z) then b3 else false)
                 = bool_decide (c = k)) as Hpick.
  { intros k b1 b2 b3 -> -> -> Hk c.
    repeat (apply elem_of_cons in Hk as [->|Hk]);
      [..|by apply elem_of_nil in Hk];
      repeat case_decide; subst; try done;
      symmetry; by apply bool_decide_eq_false_2. }
  split.
  - intros Hn. rewrite <- Hperm in Hn.
    apply elem_of_app in Hn as [Hn|Hn]; [|apply elem_of_app in Hn as [Hn|Hn]].
    + exists 1%Z. split; [left|]. intros c. rewrite Hq. f_equal.
      specialize (H1 n Hn). rewrite elem_of_app in H1.
      apply Hpick; [by rewrite bool_decide_eq_true_2
                   |rewrite bool_decide_eq_false_2; [done|tauto]..|left].
    + exists 2%Z. split; [right; left|]. intros c. rewrite Hq. f_equal.
      specialize (H2 n Hn).
      assert (n ∉ n1) as Hn1.
      { intros Hn1. apply (H1 n Hn1). apply elem_of_app. by left. }
      apply Hpick; [by rewrite bool_decide_eq_false_2
                   |by rewrite bool_decide_eq_true_2
                   |by rewrite bool_decide_eq_false_2|right; left].
    + exists 3%Z. split; [do 2 right; left|]. intros c. rewrite Hq. f_equal.
      assert (n ∉ n1) as Hn1.
      { intros Hn1. apply (H1 n Hn1). apply elem_of_app. by right. }
      assert (n ∉ n2) as Hn2 by (intros Hn2; by apply (H2 n Hn2)).
      apply Hpick; [by rewrite bool_decide_eq_false_2..
                   |by rewrite bool_decide_eq_true_2|do 2 right; left].
  - intros Hn c. rewrite Hq. rewrite <- Hperm in Hn.
    rewrite !elem_of_app in Hn.
    repeat case_decide; try done; rewrite bool_decide_eq_false_2; tauto.
Qed.

Lemma each_instrument_in_one_cluster_witness :
  let self := Sample.clusters in
  let data_feeds := Sample.feeds10 in
  let names :=
    (λ d, default "Unknown" (_name d))
      <$> filter (λ d, eligible (length_ self) d) data_feeds in
  let r := (calculate self data_feeds).1 in
  2 ≤ length names
  ∧ NoDup names
  ∧ ("d" ∈ names →
     ∃ k, k ∈ [1; 2; 3]%Z
          ∧ ∀ c, is_in_cluster r (Feed (Some "d") []) c
                 = inr (bool_decide (c = k)))
  ∧ ("d" ∉ names →
     ∀ c, is_in_cluster r (Feed (Some "d") []) c = inr false).
Proof.
  intros self data_feeds names r.
  assert (2 ≤ length names) as Hcount by (vm_compute; lia).
  assert (NoDup names) as Hnd by (apply (bool_decide_unpack _); by vm_compute).
  split; [exact Hcount|]. split; [exact Hnd|].
  exact (each_instrument_in_one_cluster (ops := exact_ops) self data_feeds
           "d" [] Hcount Hnd).
Defined.

(** X10.  A recomputation forgets every earlier assignment: the exception
    raised and the six cluster containers left by [calculate] depend only
    on the feeds and on the lookback and the first two percentages of the
    object, not on what its clusters held before; [calculate] keeps the
    lookback and the three percentages; and calling it again on the same
    feeds changes nothing.  This holds in any arithmetic. *)
Theorem recompute_forgets_earlier_state {ops : Float64Ops}
    (self self' : VolatilityStageClusters) (data_feeds : list DataFeed) :
  length_ self' = length_ self →
  cluster_one_percent self' = cluster_one_percent self →
  cluster_two_percent self' = cluster_two_percent self →
  let r := calculate self data_feeds in
  let r' := calculate self' data_feeds in
  (r'.2 = r.2
   ∧ cluster_one r'.1 = cluster_one r.1
   ∧ cluster_two r'.1 = cluster_two r.1
   ∧ cluster_three r'.1 = cluster_three r.1
   ∧ cluster_one_full r'.1 = cluster_one_full r.1
   ∧ cluster_two_full r'.1 = cluster_two_full r.1
   ∧ cluster_three_full r'.1 = cluster_three_full r.1)
  ∧ (length_ r.1 = length_ self
     ∧ cluster_one_percent r.1 = cluster_one_percent self
     ∧ cluster_two_percent r.1 = cluster_two_percent self
     ∧ cluster_three_percent r.1 = cluster_three_percent self)
  ∧ calculate r.1 data_feeds = r.
Proof.
  intros HL H1 H2 r r'.
  set (sources := source_of (length_ self)
         <$> filter (λ d, eligible (length_ self) d) data_feeds).
  destruct (decide (2 ≤ length sources)) as [Hge|Hlt].
  - pose proof (calculate_ranked self data_feeds) as Hr.
    pose proof (calculate_ranked self' data_feeds) as Hr'.
    cbv zeta in Hr, Hr'. rewrite HL, H1, H2 in Hr'.
    specialize (Hr Hge). specialize (Hr' Hge).
    fold r in Hr. fold r' in Hr'.
    split; [by rewrite Hr, Hr'|]. split; [by rewrite Hr|].
    pose proof (calculate_ranked r.1 data_feeds) as Hrr.
    cbv zeta in Hrr. rewrite Hr in Hrr. simpl in Hrr.
    rewrite Hr. simpl. by apply Hrr.
  - pose proof (calculate_unranked self data_feeds) as Hr.
    pose proof (calculate_unranked self' data_feeds) as Hr'.
    cbv zeta in Hr, Hr'. rewrite HL in Hr'.
    specialize (Hr ltac:(fold sources; lia)).
    specialize (Hr' ltac:(fold sources; lia)).
    fold r in Hr. fold r' in Hr'.
    split; [by rewrite Hr, Hr'|]. split; [by rewrite Hr|].
    pose proof (calculate_unranked (clear_clusters self) data_feeds) as Hrr.
    cbv zeta in Hrr. simpl in Hrr.
    specialize (Hrr ltac:(fold sources; lia)).
    rewrite Hr. simpl. exact Hrr.
Qed.

Lemma recompute_forgets_earlier_state_witness :
  let self := Sample.clusters in
  let self' := (calculate Sample.clusters Sample.feeds10).1 in
  let data_feeds := [Sample.feed "a" 101 100; Sample.feed "b" 102 100] in
  let r := calculate self data_feeds in
  let r' := calculate self' data_feeds in
  (r'.2 = r.2
   ∧ cluster_one r'.1 = cluster_one r.1
   ∧ cluster_two r'.1 = cluster_two r.1
   ∧ cluster_three r'.1 = cluster_three r.1
   ∧ cluster_one_full r'.1 = cluster_one_full r.1
   ∧ cluster_two_full r'.1 = cluster_two_full r.1
   ∧ cluster_three_full r'.1 = cluster_three_full r.1)
  ∧ (length_ r.1 = length_ self
     ∧ cluster_one_percent r.1 = cluster_one_percent self
     ∧ cluster_two_percent r.1 = cluster_two_percent self
     ∧ cluster_three_percent r.1 = cluster_three_percent self)
  ∧ calculate r.1 data_feeds = r.
Proof.
  intros self self' data_feeds.
  apply (recompute_forgets_earlier_state (ops := exact_ops) self self'
           data_feeds).
  - compute_done.
  - compute_done.
  - compute_done.
Defined.

Section ClusterOrder.
Context {ops : Float64Ops}.

Lemma elem_of_members (k : Z) (limit1 limit2 : F) (sources : list Source)
    (a : Source) :
  a ∈ members k limit1 limit2 sources
  ↔ ∃ i, sources !! i = Some a
         ∧ bucket limit1 limit2 (Z.of_nat i + 1) = k.
Proof.
  unfold members, ranked. rewrite list_elem_of_fmap. split.
  - intros ([r x] & -> & Hin). apply list_elem_of_filter in Hin as [Hb Hin].
    apply elem_of_lookup_imap in Hin as (i & y & [= -> ->] & Hi).
    by exists i.
  - intros (i & Hi & Hb). exists ((Z.of_nat i + 1)%Z, a). split; [done|].
    apply list_elem_of_filter. split; [done|].
    by apply (elem_of_lookup_imap_2 (λ i src, ((Z.of_nat i + 1)%Z, src))).
Qed.

Lemma sorted_lookup {A} (R : relation A) (l : list A) (i j : nat) (a b : A) :
  StronglySorted R l → i < j → l !! i = Some a → l !! j = Some b → R a b.
Proof.
  intros Hs. revert i j.
  induction Hs as [|x l Hs IH Hall]; intros i j Hij Hi Hj; [done|].
  destruct i as [|i], j as [|j]; simpl in *; try lia.
  - injection Hi as ->. rewrite Forall_forall in Hall. apply Hall.
    by eapply list_elem_of_lookup_2.
  - apply (IH i j); [lia|done..].
Qed.

End ClusterOrder.

Lemma fleb_rank_mono (limit : exact) (r r' : Z) :
  (r ≤ r')%Z →
  fleb (Float64Ops := exact_ops) (of_Z r') limit = true →
  fleb (Float64Ops := exact_ops) (of_Z r) limit = true.
Proof.
  intros Hr. destruct limit as [l|]; [|done]. simpl. unfold Exact.leb.
  intros H%bool_decide_eq_true_1. apply bool_decide_eq_true_2.
  apply Qcle_trans with (Qc_of_Z r'); [|done].
  by apply (proj1 (Z2Qc_inj_le _ _)).
Qed.

Lemma bucket_mono (limit1 limit2 : exact) (r r' : Z) :
  (r ≤ r')%Z →
  (bucket (ops := exact_ops) limit1 limit2 r
   ≤ bucket (ops := exact_ops) limit1 limit2 r')%Z.
Proof.
  intros Hr. unfold bucket.
  pose proof (fleb_rank_mono limit1 r r' Hr) as H1.
  pose proof (fleb_rank_mono limit2 r r' Hr) as H2.
  set (x1 := fleb (Float64Ops := exact_ops) (of_Z r) limit1) in *.
  set (x2 := fleb (Float64Ops := exact_ops) (of_Z r) limit2) in *.
  set (y1 := fleb (Float64Ops := exact_ops) (of_Z r') limit1) in *.
  set (y2 := fleb (Float64Ops := exact_ops) (of_Z r') limit2) in *.
  clearbody x1 x2 y1 y2.
  destruct y1; [by rewrite H1|].
  destruct y2; [rewrite H2 by done; by destruct x1|].
  by destruct x1, x2.
Qed.

(** X11.  The clusters are ordered by volatility: computed without
    rounding and with volatilities that are numbers, after [calculate]
    every instrument of cluster one is at most as volatile as every
    instrument of clusters two and three, and every instrument of cluster
    two at most as volatile as every instrument of cluster three, whatever
    the percentages. *)
Theorem clusters_ordered_by_volatility
    (self : VolatilityStageClusters (ops := exact_ops))
    (data_feeds : list DataFeed) (a b : Source) :
  let sources :=
    source_of (length_ self)
      <$> filter (λ d, eligible (length_ self) d) data_feeds in
  let r := (calculate self data_feeds).1 in
  Forall (λ s, finite (src_volatility s)) sources →
  (a ∈ cluster_one_full r ∧ b ∈ cluster_two_full r)
  ∨ (a ∈ cluster_one_full r ∧ b ∈ cluster_three_full r)
  ∨ (a ∈ cluster_two_full r ∧ b ∈ cluster_three_full r) →
  ∃ va vb : Qc,
    src_volatility a = Fin va ∧ src_volatility b = Fin vb ∧ (va ≤ vb)%Qc.
Proof.
  intros sources r Hfin Hab.
  destruct (decide (2 ≤ length sources)) as [Hge|Hlt].
  2:{ pose proof (calculate_unranked self data_feeds) as Hr.
      cbv zeta in Hr. specialize (Hr ltac:(fold sources; lia)).
      unfold r in Hab. rewrite Hr in Hab. simpl in Hab.
      destruct Hab as [[H _]|[[H _]|[H _]]]; by apply elem_of_nil in H. }
  pose proof (calculate_ranked self data_feeds) as Hr.
  cbv zeta in Hr. specialize (Hr Hge). fold sources in Hr.
  set (sorted := list_sort src_volatility sources) in *.
  set (limit1 := (cluster_one_percent self
                  * (of_Z (Z.of_nat (length sources)) / f100))%f64) in *.
  set (limit2 := ((cluster_one_percent self + cluster_two_percent self)
                  * (of_Z (Z.of_nat (length sources)) / f100))%f64) in *.
  unfold r in Hab. rewrite Hr in Hab. simpl in Hab.
  assert (∃ ka kb, (ka < kb)%Z
                   ∧ a ∈ members (ops := exact_ops) ka limit1 limit2 sorted
                   ∧ b ∈ members (ops := exact_ops) kb limit1 limit2 sorted)
    as (ka & kb & Hk & Ha & Hb).
  { destruct Hab as [[? ?]|[[? ?]|[? ?]]];
      [exists 1%Z, 2%Z|exists 1%Z, 3%Z|exists 2%Z, 3%Z]; by split_and!. }
  apply elem_of_members in Ha as (i & Hi & Hbi).
  apply elem_of_members in Hb as (j & Hj & Hbj).
  assert (i < j) as Hij.
  { destruct (decide (i < j)) as [|Hji]; [done|].
    pose proof (bucket_mono limit1 limit2 (Z.of_nat j + 1) (Z.of_nat i + 1)
                  ltac:(lia)). lia. }
  assert (Forall (λ s, finite (src_volatility s)) sorted) as Hfs.
  { unfold sorted. by rewrite list_sort_perm. }
  assert (StronglySorted ascending sorted) as Hs.
  { apply (list_sort_sorted (ops := exact_ops) finite
             exact_lt_asym exact_ge_trans). exact Hfin. }
  pose proof (sorted_lookup _ _ _ _ _ _ Hs Hij Hi Hj) as Hasc.
  rewrite Forall_forall in Hfs.
  pose proof (Hfs a ltac:(by eapply list_elem_of_lookup_2)) as Hfa.
  pose proof (Hfs b ltac:(by eapply list_elem_of_lookup_2)) as Hfb.
  unfold ascending in Hasc.
  destruct (src_volatility a) as [va|], (src_volatility b) as [vb|];
    try done.
  exists va, vb. split_and!; [done..|].
  simpl in Hasc. unfold Exact.ltb in Hasc.
  apply bool_decide_eq_false_1 in Hasc. by apply Qcnot_lt_le.
Qed.

Lemma clusters_ordered_by_volatility_witness :
  let self := Sample.clusters in
  let data_feeds := Sample.feeds10 in
  let a := source_of 1 (Sample.feed "b" 102 100) in
  let b := source_of 1 (Sample.feed "h" 108 100) in
  let sources :=
    source_of (length_ self)
      <$> filter (λ d, eligible (length_ self) d) data_feeds in
  let r := (calculate self data_feeds).1 in
  Forall (λ s, finite (src_volatility s)) sources
  ∧ ((a ∈ cluster_one_full r ∧ b ∈ cluster_two_full r)
     ∨ (a ∈ cluster_one_full r ∧ b ∈ cluster_three_full r)
     ∨ (a ∈ cluster_two_full r ∧ b ∈ cluster_three_full r))
  ∧ ∃ va vb : Qc,
      src_volatility a = Fin va ∧ src_volatility b = Fin vb ∧ (va ≤ vb)%Qc.
Proof.
  intros self data_feeds a b sources r.
  assert (Forall (λ s, finite (src_volatility s)) sources) as Hfin.
  { apply (bool_decide_unpack _). vm_compute. exact I. }
  assert ((a ∈ cluster_one_full r ∧ b ∈ cluster_two_full r)
          ∨ (a ∈ cluster_one_full r ∧ b ∈ cluster_three_full r)
          ∨ (a ∈ cluster_two_full r ∧ b ∈ cluster_three_full r)) as Hab.
  { right; left.
    split; apply (list_elem_of_lookup_2 _ 1); vm_compute; reflexivity. }
  split; [exact Hfin|]. split; [exact Hab|].
  exact (clusters_ordered_by_volatility self data_feeds a b Hfin Hab).
Defined.

(** ** The sizes of the clusters *)

Section ClusterSizes.
Context {ops : Float64Ops}.


End ClusterSizes.




(** ** The report on the clusters *)

Section InfoFacts.
Context {ops : Float64Ops}.

Lemma dict_add_size_le (l : list Source) :
  size (dict_add l ∅) ≤ length l.
Proof.
  induction l as [|x l IH] using rev_ind.
  { change (dict_add [] ∅) with (∅ : gmap string Source).
    by rewrite map_size_empty. }
  rewrite dict_add_snoc, map_size_insert, length_app. simpl.
  destruct (dict_add l ∅ !! src_name x); simpl; lia.
Qed.

Lemma dict_add_size (l : list Source) :
  NoDup (src_name <$> l) → size (dict_add l ∅) = length l.
Proof.
  induction l as [|x l IH] using rev_ind; intros Hnd.
  { change (dict_add [] ∅) with (∅ : gmap string Source).
    by rewrite map_size_empty. }
  rewrite fmap_app in Hnd. apply NoDup_app in Hnd as (Hl & Hx & _).
  rewrite dict_add_snoc, length_app. simpl.
  rewrite map_size_insert_None; [rewrite IH by done; lia|].
  apply eq_None_not_Some. intros Hin.
  apply dict_add_in in Hin as [Hin|[? Hin]];
    [|by rewrite lookup_empty in Hin].
  apply (Hx _ Hin). simpl. left.
Qed.

End InfoFacts.

(** X13.  In the report of [get_cluster_info] after [calculate], the count
    of a cluster (the number of distinct names it holds) never exceeds the
    number of its listed names; the two agree for every cluster when the
    names of the eligible feeds (["Unknown"] for a feed without one) are
    pairwise distinct; with two or more eligible feeds the three lists of
    names together have one entry per eligible feed; and the three entries
    carry the same [one_lot].  This holds in any arithmetic and for any
    rendering of the volatilities. *)
Theorem cluster_info_counts {ops : Float64Ops} (fmt4 : F → string)
    (self : VolatilityStageClusters) (data_feeds : list DataFeed) :
  let eligible_feeds := filter (λ d, eligible (length_ self) d) data_feeds in
  let r := (calculate self data_feeds).1 in
  let i1 := (get_cluster_info fmt4 r).1.1 in
  let i2 := (get_cluster_info fmt4 r).1.2 in
  let i3 := (get_cluster_info fmt4 r).2 in
  (info_count i1 ≤ length (info_names i1)
   ∧ info_count i2 ≤ length (info_names i2)
   ∧ info_count i3 ≤ length (info_names i3))
  ∧ (NoDup ((λ d, default "Unknown" (_name d)) <$> eligible_feeds) →
     info_count i1 = length (info_names i1)
     ∧ info_count i2 = length (info_names i2)
     ∧ info_count i3 = length (info_names i3))
  ∧ (2 ≤ length eligible_feeds →
     length (info_names i1) + length (info_names i2)
     + length (info_names i3) = length eligible_feeds)
  ∧ info_one_lot i1 = one_lot r ∧ info_one_lot i2 = one_lot r
  ∧ info_one_lot i3 = one_lot r.
Proof.
  intros eligible_feeds r i1 i2 i3.
  set (sources := source_of (length_ self) <$> eligible_feeds).
  assert (length sources = length eligible_feeds) as Hlen
    by (unfold sources; by rewrite length_fmap).
  destruct (decide (2 ≤ length sources)) as [Hge|Hlt].
  2:{ pose proof (calculate_unranked self data_feeds) as Hr.
      cbv zeta in Hr. specialize (Hr ltac:(fold eligible_feeds sources; lia)).
      unfold i1, i2, i3, r, get_cluster_info. rewrite Hr. simpl.
      rewrite map_size_empty. split_and!; try done. lia. }
  pose proof (calculate_ranked self data_feeds) as Hr.
  cbv zeta in Hr. fold eligible_feeds sources in Hr. specialize (Hr Hge).
  set (sorted := list_sort src_volatility sources) in *.
  set (limit1 := (cluster_one_percent self
                  * (of_Z (Z.of_nat (length sources)) / f100))%f64) in *.
  set (limit2 := ((cluster_one_percent self + cluster_two_percent self)
                  * (of_Z (Z.of_nat (length sources)) / f100))%f64) in *.
  unfold i1, i2, i3, r, get_cluster_info. rewrite Hr.
  cbn [fst snd info_count info_names info_one_lot cluster_one cluster_two
         cluster_three cluster_one_full cluster_two_full cluster_three_full
         one_lot].
  rewrite !length_fmap.
  split_and!; try done; try apply dict_add_size_le.
  - intros Hnd.
    assert (NoDup (src_name <$> (members 1 limit1 limit2 sorted
                                 ++ members 2 limit1 limit2 sorted
                                 ++ members 3 limit1 limit2 sorted))) as Hnd'.
    { rewrite members_partition. unfold sorted. rewrite list_sort_perm.
      unfold sources. by rewrite source_names. }
    rewrite !fmap_app in Hnd'.
    apply NoDup_app in Hnd' as (H1 & _ & Hnd').
    apply NoDup_app in Hnd' as (H2 & _ & H3).
    by rewrite !dict_add_size.
  - intros _. rewrite <- Hlen.
    rewrite <- (list_sort_perm sources). fold sorted.
    rewrite <- (members_partition limit1 limit2 sorted) at 4.
    rewrite !length_app. lia.
Qed.

Lemma cluster_info_counts_witness :
  let fmt4 := λ _ : exact, "0.0000" in
  let self := Sample.clusters in
  let data_feeds := Sample.feeds10 in
  let eligible_feeds := filter (λ d, eligible (length_ self) d) data_feeds in
  let r := (calculate self data_feeds).1 in
  let i1 := (get_cluster_info fmt4 r).1.1 in
  let i2 := (get_cluster_info fmt4 r).1.2 in
  let i3 := (get_cluster_info fmt4 r).2 in
  NoDup ((λ d, default "Unknown" (_name d)) <$> eligible_feeds)
  ∧ 2 ≤ length eligible_feeds
  ∧ (info_count i1 = length (info_names i1)
     ∧ info_count i2 = length (info_names i2)
     ∧ info_count i3 = length (info_names i3))
  ∧ length (info_names i1) + length (info_names i2)
    + length (info_names i3) = length eligible_feeds.
Proof.
  intros fmt4 self data_feeds eligible_feeds r i1 i2 i3.
  assert (NoDup ((λ d, default "Unknown" (_name d)) <$> eligible_feeds))
    as Hnd by (apply (bool_decide_unpack _); by vm_compute).
  assert (2 ≤ length eligible_feeds) as Hn by (vm_compute; lia).
  destruct (cluster_info_counts (ops := exact_ops) fmt4 self data_feeds)
    as (_ & Heq & Hsum & _).
  exact (conj Hnd (conj Hn (conj (Heq Hnd) (Hsum Hn)))).
Defined.

(** * The strategy *)

Lemma time_le_microseconds (a b : pytime) :
  valid_time a → valid_time b →
  time_le a b = bool_decide (microseconds a ≤ microseconds b)%Z.
Proof.
  unfold valid_time, time_le, microseconds. intros Ha Hb.
  repeat case_decide; repeat case_bool_decide; try done; nia.
Qed.

(** X14.  [can_trade_now] on times of day as Python allows them: it
    answers True exactly on a listed weekday at a time between the start
    and the end of the session, both included, counted in microseconds
    since midnight; so a session whose end precedes its start (one meant
    to run past midnight) never trades. *)
Theorem can_trade_now_window {ops : Float64Ops}
    (self : R1.R1_LinearRegression) (dt : datetime) :
  valid_time (R1.trade_start_tm (R1.p self)) →
  valid_time (R1.trade_end_tm (R1.p self)) →
  valid_time (time_ dt) →
  (R1.can_trade_now self dt = true
   ↔ weekday dt ∈ R1.trade_weekdays (R1.p self)
     ∧ (microseconds (R1.trade_start_tm (R1.p self))
        ≤ microseconds (time_ dt)
        ≤ microseconds (R1.trade_end_tm (R1.p self)))%Z)
  ∧ ((microseconds (R1.trade_end_tm (R1.p self))
      < microseconds (R1.trade_start_tm (R1.p self)))%Z →
     R1.can_trade_now self dt = false).
Proof.
  intros Hs He Ht.
  assert (R1.can_trade_now self dt = true
          ↔ weekday dt ∈ R1.trade_weekdays (R1.p self)
            ∧ (microseconds (R1.trade_start_tm (R1.p self))
               ≤ microseconds (time_ dt)
               ≤ microseconds (R1.trade_end_tm (R1.p self)))%Z) as Hiff.
  { unfold R1.can_trade_now. rewrite !time_le_microseconds by done.
    repeat case_bool_decide; simpl; split; try done; try tauto; try lia. }
  split; [done|]. intros Hinv.
  apply not_true_is_false. intros E. apply Hiff in E. lia.
Qed.

Lemma can_trade_now_window_witness :
  let self :=
    R1.Strategy (ops := exact_ops)
      (R1.Params (ops := exact_ops) 180 (Fin (Q2Qc (24 # 10))) true 10 10 1
         (MkTime 10 5 0 0) (MkTime 18 0 0 0) [0; 1; 2; 3; 4]%Z false)
      Sample.clusters None in
  let dt := MkDatetime 739558 (MkTime 12 30 0 0) in
  (valid_time (R1.trade_start_tm (R1.p self))
   ∧ valid_time (R1.trade_end_tm (R1.p self))
   ∧ valid_time (time_ dt))
  ∧ (R1.can_trade_now self dt = true
     ↔ weekday dt ∈ R1.trade_weekdays (R1.p self)
       ∧ (microseconds (R1.trade_start_tm (R1.p self))
          ≤ microseconds (time_ dt)
          ≤ microseconds (R1.trade_end_tm (R1.p self)))%Z)
  ∧ ((microseconds (R1.trade_end_tm (R1.p self))
      < microseconds (R1.trade_start_tm (R1.p self)))%Z →
     R1.can_trade_now self dt = false).
Proof.
  intros self dt.
  assert (∀ h m, (0 ≤ h < 24)%Z → (0 ≤ m < 60)%Z → valid_time (MkTime h m 0 0))
    as Hv by (intros h m ? ?; unfold valid_time; simpl; lia).
  split; [split_and!; apply Hv; lia|].
  apply (can_trade_now_window (ops := exact_ops) self dt); apply Hv; lia.
Defined.

Section StrategyFacts.
Context {ops : Float64Ops}.
Variable py_round : F → exn + Z.
Variable cash : F.
Variable datas : list R1.Data.

Lemma update_clusters_p (self : R1.R1_LinearRegression) (dt : datetime) :
  R1.p (R1.update_clusters self datas dt) = R1.p self.
Proof.
  unfold R1.update_clusters.
  destruct (match R1.last_time_set_clusters self with
            | Some t => bool_decide (t ≠ dt)
            | None => true
            end); [|done].
  case_decide; [|done]. by destruct (calculate _ _).2.
Qed.

(** The conditions under which an order is sent. *)
Let guarded (self : R1.R1_LinearRegression) (o : R1.Order) : Prop :=
  let d := R1.order_data o in
  R1.can_trade_now self (R1.datetime0 d) = true
  ∧ ∃ channel price,
      R1.lr_channel self (R1.feed d) = inr channel
      ∧ R1.close0 (R1.feed d) = inr price
      ∧ R1.isnan (upperband channel) = false
      ∧ R1.isnan (lowerband channel) = false
      ∧ (R1.live_mode (R1.p self) = true → R1.status_live d = true)
      ∧ match o with
        | R1.Buy _ size =>
            R1.position_size d = 0%Z
            ∧ (R1.count_open_positions datas
               < R1.max_positions (R1.p self))%Z
            ∧ fleb (upperband channel) price = true
            ∧ (R1.sma_filter (R1.p self) = true
               → fltb price (R1.sma0 d) = false)
            ∧ R1.get_position_size py_round cash self (R1.feed d)
              = inr size
            ∧ (0 < size)%Z
        | R1.Close _ =>
            (0 < R1.position_size d)%Z
            ∧ fleb price (lowerband channel) = true
        end.

Lemma guarded_p (self self' : R1.R1_LinearRegression) (o : R1.Order) :
  R1.p self' = R1.p self → guarded self' o → guarded self o.
Proof.
  intros Hp. unfold guarded, R1.can_trade_now, R1.lr_channel,
    R1.get_position_size. by rewrite Hp.
Qed.

Lemma next_body_orders (self : R1.R1_LinearRegression) (d : R1.Data) :
  let r := R1.next_body py_round cash datas self d in
  r.1.1 = R1.update_clusters self datas (R1.datetime0 d)
  ∧ (r.1.2 = []
     ∨ ∃ o, r.1.2 = [o] ∧ R1.order_data o = d ∧ r.2 = None
            ∧ guarded self o
            ∧ (R1.position_size d = 0%Z
               → R1.volatility_cluster (R1.p self) ≠ 0%Z
               → is_in_cluster (R1.volatility_clusters r.1.1) (R1.feed d)
                   (R1.volatility_cluster (R1.p self)) = inr true)).
Proof.
  cbv zeta. unfold R1.next_body.
  pose proof (update_clusters_p self (R1.datetime0 d)) as Hp.
  set (self' := R1.update_clusters self datas (R1.datetime0 d)) in *.
  destruct (R1.can_trade_now self' (R1.datetime0 d)) eqn:Htrade;
    simpl negb; cbv iota; [|by split; [|left]].
  destruct (if bool_decide (R1.position_size d = 0%Z)
               && bool_decide (R1.volatility_cluster (R1.p self') ≠ 0%Z)
            then is_in_cluster (R1.volatility_clusters self') (R1.feed d)
                   (R1.volatility_cluster (R1.p self'))
            else inr true) as [e|[|]] eqn:Hin; [by split; [|left]| |by split; [|left]].
  destruct (R1.lr_channel self' (R1.feed d)) as [e|channel] eqn:Hch;
    [by split; [|left]|].
  destruct (R1.isnan (upperband channel)) eqn:Hup; [by split; [|left]|].
  destruct (R1.isnan (lowerband channel)) eqn:Hlo; [by split; [|left]|].
  simpl orb. cbv iota.
  destruct (R1.close0 (R1.feed d)) as [e|price] eqn:Hcl; [by split; [|left]|].
  destruct (R1.live_mode (R1.p self') && negb (R1.status_live d)) eqn:Hlive;
    [by split; [|left]|].
  assert (R1.live_mode (R1.p self') = true → R1.status_live d = true)
    as Hlive'.
  { intros Hl. rewrite Hl in Hlive. simpl in Hlive.
    by apply negb_false_iff in Hlive. }
  assert (R1.position_size d = 0%Z
          → R1.volatility_cluster (R1.p self) ≠ 0%Z
          → is_in_cluster (R1.volatility_clusters self') (R1.feed d)
              (R1.volatility_cluster (R1.p self)) = inr true) as Hmem.
  { intros Hz Hvc. rewrite Hp in Hin.
    by rewrite !bool_decide_eq_true_2 in Hin by done. }
  clear Hin. case_bool_decide as Hpos.
  - case_bool_decide as Hmax; [by split; [|left]|].
    destruct (fleb (upperband channel) price) eqn:Hbreak;
      [|by split; [|left]].
    destruct (R1.sma_filter (R1.p self') && fltb price (R1.sma0 d))
      eqn:Hsma; [by split; [|left]|].
    destruct (R1.get_position_size py_round cash self' (R1.feed d))
      as [e|size] eqn:Hsize; [by split; [|left]|].
    case_bool_decide as Hsz; [|by split; [|left]].
    split; [done|]. right. exists (R1.Buy d size).
    split_and!; [done..| |done].
    apply (guarded_p self self'); [done|].
    split; [done|]. exists channel, price. split_and!; try done; [lia|].
    intros Hf. rewrite Hf in Hsma. done.
  - case_bool_decide as Hheld; [|by split; [|left]].
    destruct (fleb price (lowerband channel)) eqn:Hexit;
      [|by split; [|left]].
    split; [done|]. right. exists (R1.Close d).
    split_and!; [done..| |done].
    apply (guarded_p self self'); [done|].
    split; [done|]. exists channel, price. by split_and!.
Qed.

Lemma run_orders (self : R1.R1_LinearRegression) (todo : list R1.Data) :
  let r := R1.run py_round cash datas self todo in
  R1.p r.1.1 = R1.p self
  ∧ R1.order_data <$> r.1.2 `sublist_of` todo
  ∧ ∀ o, o ∈ r.1.2 → guarded self o.
Proof.
  cbv zeta. revert self. induction todo as [|d rest IH]; intros self.
  - simpl. split_and!; [done..|]. intros o Ho. by apply elem_of_nil in Ho.
  - simpl.
    pose proof (next_body_orders self d) as Hb. cbv zeta in Hb.
    pose proof (update_clusters_p self (R1.datetime0 d)) as Hp.
    destruct (R1.next_body py_round cash datas self d) as [[self' os] e].
    simpl in Hb. destruct Hb as [-> Hos].
    assert (R1.order_data <$> os `sublist_of` [d]
            ∧ ∀ o, o ∈ os → guarded self o) as [Hsub Hg].
    { destruct Hos as [->|(o & -> & Hd & _ & Hg & _)].
      - split; [apply sublist_nil_l|]. intros o Ho.
        by apply elem_of_nil in Ho.
      - split; [simpl; by rewrite Hd|].
        by intros o' ->%list_elem_of_singleton. }
    destruct e as [e|].
    + simpl. split_and!; [done| |done].
      by apply (sublist_inserts_r rest) in Hsub.
    + specialize (IH (R1.update_clusters self datas (R1.datetime0 d))).
      destruct (R1.run py_round cash datas _ rest) as [[self'' os'] e'].
      simpl in IH |- *. destruct IH as (Hp' & Hsub' & Hg').
      split_and!; [congruence| |].
      * rewrite fmap_app. by apply (sublist_app _ [d]).
      * intros o [Ho|Ho]%elem_of_app; [by apply Hg|].
        apply (guarded_p _ _ _ Hp). by apply Hg'.
Qed.

End StrategyFacts.

(** X15.  What [next] of the strategy never does.  Whatever the state and
    the feeds, it keeps the parameters, sends at most one order per feed,
    in the order of the feeds, and every order it sends is for a feed that
    may trade now ([can_trade_now]) and whose channel bands are numbers
    (and, in live mode, whose data are live); a buy is sent only for a
    feed without position, while the open positions are fewer than
    [max_positions], when the close is at or above the upper band and,
    with the SMA filter, not below the moving average, and for the
    positive size [get_position_size] returns; a close is sent only for a
    feed with a positive position whose close is at or below the lower
    band.  It never sells short and never adds to a position. *)
Theorem orders_are_guarded {ops : Float64Ops} (py_round : F → exn + Z)
    (cash : F) (self : R1.R1_LinearRegression) (datas : list R1.Data) :
  let r := R1.next py_round cash self datas in
  R1.p r.1.1 = R1.p self
  ∧ R1.order_data <$> r.1.2 `sublist_of` datas
  ∧ ∀ o, o ∈ r.1.2 →
      let d := R1.order_data o in
      R1.can_trade_now self (R1.datetime0 d) = true
      ∧ ∃ channel price,
          R1.lr_channel self (R1.feed d) = inr channel
          ∧ R1.close0 (R1.feed d) = inr price
          ∧ R1.isnan (upperband channel) = false
          ∧ R1.isnan (lowerband channel) = false
          ∧ (R1.live_mode (R1.p self) = true → R1.status_live d = true)
          ∧ match o with
            | R1.Buy _ size =>
                R1.position_size d = 0%Z
                ∧ (R1.count_open_positions datas
                   < R1.max_positions (R1.p self))%Z
                ∧ fleb (upperband channel) price = true
                ∧ (R1.sma_filter (R1.p self) = true
                   → fltb price (R1.sma0 d) = false)
                ∧ R1.get_position_size py_round cash self (R1.feed d)
                  = inr size
                ∧ (0 < size)%Z
            | R1.Close _ =>
                (0 < R1.position_size d)%Z
                ∧ fleb price (lowerband channel) = true
            end.
Proof. apply (run_orders py_round cash datas self datas). Qed.

Lemma orders_are_guarded_witness :
  let datas := [SampleRun.A; SampleRun.B; SampleRun.C; SampleRun.D] in
  let r := R1.next exact_round (exq 100000) SampleRun.strategy datas in
  r.1.2 = [R1.Buy SampleRun.A 91; R1.Close SampleRun.D]
  ∧ r.2 = None
  ∧ R1.p r.1.1 = R1.p SampleRun.strategy
  ∧ R1.order_data <$> r.1.2 `sublist_of` datas.
Proof.
  intros datas r.
  split; [vm_compute; reflexivity|]. split; [vm_compute; reflexivity|].
  destruct (orders_are_guarded (ops := exact_ops) exact_round (exq 100000)
              SampleRun.strategy
              datas) as (Hp & Hsub & _).
  exact (conj Hp Hsub).
Defined.

Section NoEntry.
Context {ops : Float64Ops}.
Variable py_round : F → exn + Z.
Variable cash : F.
Variable datas : list R1.Data.
Variable lookback : Z.
Hypothesis few :
  length (filter (λ d, eligible lookback d) (R1.feed <$> datas)) ≤ 1.

(** The cluster filter is on and no instrument is assigned. *)
Let idle (self : R1.R1_LinearRegression) : Prop :=
  R1.volatility_cluster (R1.p self) ≠ 0%Z
  ∧ length_ (R1.volatility_clusters self) = lookback
  ∧ cluster_one (R1.volatility_clusters self) = ∅
  ∧ cluster_two (R1.volatility_clusters self) = ∅
  ∧ cluster_three (R1.volatility_clusters self) = ∅.

Lemma update_clusters_idle (self : R1.R1_LinearRegression) (dt : datetime) :
  idle self → idle (R1.update_clusters self datas dt).
Proof using few.
  intros (Hvc & HL & H1 & H2 & H3). unfold R1.update_clusters.
  destruct (match R1.last_time_set_clusters self with
            | Some t => bool_decide (t ≠ dt)
            | None => true
            end); [|done].
  rewrite decide_True by done.
  pose proof (calculate_unranked (R1.volatility_clusters self)
                (R1.feed <$> datas)) as Hc.
  cbv zeta in Hc. rewrite length_fmap, HL in Hc. specialize (Hc few).
  rewrite Hc. simpl. by case_decide.
Qed.

Lemma is_in_cluster_idle (self : R1.R1_LinearRegression) (d : DataFeed)
    (c : Z) :
  idle self → is_in_cluster (R1.volatility_clusters self) d c ≠ inr true.
Proof.
  intros (_ & _ & H1 & H2 & H3). unfold is_in_cluster, dict_in.
  rewrite H1, H2, H3.
  repeat case_decide; destruct (_name d); try done;
    by rewrite lookup_empty, bool_decide_eq_false_2 by (by intros [? ?]).
Qed.

Lemma run_idle (self : R1.R1_LinearRegression) (todo : list R1.Data) :
  idle self →
  let r := R1.run py_round cash datas self todo in
  (∀ o, o ∈ r.1.2 → ∃ d, o = R1.Close d) ∧ idle r.1.1.
Proof using few.
  cbv zeta. revert self. induction todo as [|d rest IH]; intros self Hidle.
  - simpl. split; [|done]. intros o Ho. by apply elem_of_nil in Ho.
  - simpl.
    pose proof (next_body_orders py_round cash datas self d) as Hb.
    cbv zeta in Hb.
    pose proof (update_clusters_idle self (R1.datetime0 d) Hidle) as Hidle'.
    destruct (R1.next_body py_round cash datas self d) as [[self' os] e].
    simpl in Hb. destruct Hb as [-> Hos].
    assert (∀ o, o ∈ os → ∃ d, o = R1.Close d) as Hclose.
    { destruct Hos as [->|(o & -> & Hd & _ & Hg & Hmem)].
      - intros o Ho. by apply elem_of_nil in Ho.
      - intros o' ->%list_elem_of_singleton.
        destruct o as [d' size|d']; [|by eexists]. exfalso.
        simpl in Hd. subst d'.
        destruct Hg as (_ & channel & price & _ & _ & _ & _ & _ & Hz & _).
        simpl in Hz.
        apply (is_in_cluster_idle _ (R1.feed d)
                 (R1.volatility_cluster (R1.p self)) Hidle').
        apply Hmem; [done|]. by destruct Hidle. }
    destruct e as [e|]; [done|].
    specialize (IH _ Hidle').
    destruct (R1.run py_round cash datas _ rest) as [[self'' os'] e'].
    simpl in IH |- *. destruct IH as [Hclose' Hidle''].
    split; [|done]. intros o [Ho|Ho]%elem_of_app; auto.
Qed.

End NoEntry.

(** X16.  With the cluster filter on, the strategy enters no position
    while fewer than two instruments have enough candles for the
    clustering: when no instrument is assigned to a cluster (as after
    [__init__]) and at most one feed is eligible, [calculate] assigns none
    (with exactly one it raises at [cluster_one.append], which [next]
    catches), so [next] sends no buy order, only closes, and again leaves
    no instrument assigned.  This holds in any arithmetic. *)
Theorem too_few_instruments_never_enter {ops : Float64Ops}
    (py_round : F → exn + Z) (cash : F) (self : R1.R1_LinearRegression)
    (datas : list R1.Data) :
  R1.volatility_cluster (R1.p self) ≠ 0%Z →
  cluster_one (R1.volatility_clusters self) = ∅ →
  cluster_two (R1.volatility_clusters self) = ∅ →
  cluster_three (R1.volatility_clusters self) = ∅ →
  length (filter (λ d, eligible (length_ (R1.volatility_clusters self)) d)
            (R1.feed <$> datas)) ≤ 1 →
  let r := R1.next py_round cash self datas in
  (∀ o, o ∈ r.1.2 → ∃ d, o = R1.Close d)
  ∧ cluster_one (R1.volatility_clusters r.1.1) = ∅
  ∧ cluster_two (R1.volatility_clusters r.1.1) = ∅
  ∧ cluster_three (R1.volatility_clusters r.1.1) = ∅.
Proof.
  intros Hvc H1 H2 H3 Hfew.
  destruct (run_idle py_round cash datas _ Hfew self datas)
    as (Hclose & _ & _ & E1 & E2 & E3); [done|].
  by split_and!.
Qed.

Lemma too_few_instruments_never_enter_witness :
  let datas := [SampleRun.A] in
  let self := SampleRun.strategy in
  let r := R1.next exact_round (exq 100000) self datas in
  length (filter (λ d, eligible (length_ (R1.volatility_clusters self)) d)
            (R1.feed <$> datas)) ≤ 1
  ∧ (∀ o, o ∈ r.1.2 → ∃ d, o = R1.Close d)
  ∧ cluster_one (R1.volatility_clusters r.1.1) = ∅
  ∧ cluster_two (R1.volatility_clusters r.1.1) = ∅
  ∧ cluster_three (R1.volatility_clusters r.1.1) = ∅.
Proof.
  intros datas self r.
  assert (length (filter (λ d, eligible (length_ (R1.volatility_clusters self)) d)
                    (R1.feed <$> datas)) ≤ 1) as Hfew by (vm_compute; lia).
  split; [exact Hfew|].
  apply (too_few_instruments_never_enter (ops := exact_ops) exact_round
           (exq 100000) self datas);
    [discriminate|reflexivity|reflexivity|reflexivity|exact Hfew].
Defined.
